(** * Model orchestration and streaming-conversation pipeline

  A shallow embedding of the model router and embedding retriever of
  [apps/webapp/app/lib/model.server.ts], of the conversation route
  [apps/webapp/app/routes/api.v1.conversation._index.tsx] and of the
  client-side stall watchdog of the single-conversation page, with the
  properties the specification states about them.

  Conventions of the embedding:
  - a JavaScript string is a [string]; [undefined] is [None];
  - a value used as a condition goes through [truthy], which is false for
    [undefined] and for the empty string;
  - a [throw] is the [Thrown] outcome, carrying the message of the error;
  - calls that leave the process (HTTP, SDK, database, queue, logger) are
    answered by an explicit oracle and recorded in an explicit trace. *)

From Stdlib Require Import QArith Ascii.
From stdpp Require Import gmap strings list fin_maps pretty.

Local Open Scope string_scope.

(** ** JavaScript values used by the code *)

Module JS.

(** [!!x] for an optional string. *)
Definition truthy (x : option string) : bool :=
  match x with
  | Some s => negb (String.eqb s "")
  | None => false
  end.

(** [a || b] where [b] is a string that is always present. *)
Definition or_default (a : option string) (b : string) : string :=
  match a with
  | Some s => if String.eqb s "" then b else s
  | None => b
  end.

(** [a || b] where both sides may be [undefined]. *)
Definition or_else (a b : option string) : option string :=
  if truthy a then a else b.

(** [hay.includes(needle)]. *)
Fixpoint includes (needle hay : string) : bool :=
  match hay with
  | EmptyString => String.prefix needle EmptyString
  | String _ rest => String.prefix needle hay || includes needle rest
  end.

(** What a call leaves behind: a value, or a thrown error. *)
Inductive Outcome (A : Type) : Type :=
| Returned (a : A)
| Thrown (msg : string).
Arguments Returned {A} a.
Arguments Thrown {A} msg.

Definition is_thrown {A} (o : Outcome A) : bool :=
  match o with Thrown _ => true | Returned _ => false end.

End JS.

Export JS.

(** ** Effects: state passing with exceptions

  A computation takes the state of what lies outside the function (a trace
  of calls, a database, a logger), and leaves an outcome and the new state.
  What was done before a [throw] stays done. *)

Module Eff.

Definition M (S A : Type) : Type := S -> Outcome A * S.

Section Operations.
Context {S : Type}.

Definition ret {A} (a : A) : M S A := fun s => (Returned a, s).

Definition bind {A B} (m : M S A) (k : A -> M S B) : M S B :=
  fun s =>
    match m s with
    | (Returned a, s') => k a s'
    | (Thrown e, s') => (Thrown e, s')
    end.

Definition throw {A} (msg : string) : M S A := fun s => (Thrown msg, s).

(** [try { m } catch (error) { h error }]. *)
Definition try_catch {A} (m : M S A) (h : string -> M S A) : M S A :=
  fun s =>
    match m s with
    | (Returned a, s') => (Returned a, s')
    | (Thrown e, s') => h e s'
    end.

Definition modify (f : S -> S) : M S unit := fun s => (Returned tt, f s).

Definition gets {A} (f : S -> A) : M S A := fun s => (Returned (f s), s).

(** [await] of a call whose answer the oracle has fixed. *)
Definition await {A} (o : Outcome A) : M S A := fun s => (o, s).

End Operations.

Declare Scope eff_scope.
Delimit Scope eff_scope with eff.
Notation "x <- m ;; k" := (bind m (fun x => k))
  (at level 100, m at next level, right associativity) : eff_scope.
Notation "m ;;; k" := (bind m (fun _ => k))
  (at level 100, right associativity) : eff_scope.

End Eff.

(** ** Configuration: [env] of [~/env.server] *)

Record Env : Type := {
MODEL : option string;
(** [Number(env.MODEL_TEMPERATURE)]; [None] when the conversion is [NaN]. *)
MODEL_TEMPERATURE : option Q;
ANTHROPIC_API_KEY : option string;
GOOGLE_GENERATIVE_AI_API_KEY : option string;
OPENAI_API_KEY : option string;
OPENAI_BASE_URL : option string;
OLLAMA_URL : option string;
OPENAI_EMBEDDINGS_BASE_URL : option string;
EMBEDDING_MODEL : option string
}.

(** ** Model router *)

Module ModelRouter.

Inductive ModelComplexity : Type := high | low.

Definition default_model : string := "gpt-4.1-2025-04-14".

(** The own entries of the object literal [downgrades] of
    [getModelForTask]. *)
Definition downgrades : gmap string string :=
  list_to_map
    [ ("gpt-5-2025-08-07", "gpt-5-mini-2025-08-07");
      ("gpt-4.1-2025-04-14", "gpt-4.1-mini-2025-04-14");
      ("claude-sonnet-4-5", "claude-3-5-haiku-20241022");
      ("claude-3-7-sonnet-20250219", "claude-3-5-haiku-20241022");
      ("claude-3-opus-20240229", "claude-3-5-haiku-20241022");
      ("gemini-2.5-pro-preview-03-25", "gemini-2.5-flash-preview-04-17");
      ("gemini-2.0-flash", "gemini-2.0-flash-lite");
      ("us.amazon.nova-premier-v1:0", "us.amazon.nova-premier-v1:0") ].

(** The members an object literal inherits from [Object.prototype]: eleven
    functions, and the accessor [__proto__], which answers with the prototype
    itself. *)
Definition object_prototype_members : list string :=
  [ "constructor"; "hasOwnProperty"; "isPrototypeOf"; "propertyIsEnumerable";
    "toLocaleString"; "toString"; "valueOf"; "__proto__";
    "__defineGetter__"; "__defineSetter__"; "__lookupGetter__"; "__lookupSetter__" ].

(** What the program holds where it expects the name of a model: a string,
    or the function or object found under the key of an inherited member. *)
Inductive ModelValue : Type :=
| ModelName (name : string)
| InheritedMember (key : string).

(** [!!v]: functions and objects are truthy. *)
Definition truthy_value (v : ModelValue) : bool :=
  match v with
  | ModelName name => truthy (Some name)
  | InheritedMember _ => true
  end.

(** [String(v)], as a template literal or a regular expression sees it. *)
Definition show_value (v : ModelValue) : string :=
  match v with
  | ModelName name => name
  | InheritedMember key =>
      if String.eqb key "__proto__" then "[object Object]"
      else if String.eqb key "constructor" then "function Object() { [native code] }"
      else "function " +:+ key +:+ "() { [native code] }"
  end.

(** [downgrades[key]]: an own entry, else an inherited member, else
    [undefined]. *)
Definition downgrades_at (key : string) : option ModelValue :=
  match downgrades !! key with
  | Some cheaper => Some (ModelName cheaper)
  | None =>
      if bool_decide (key ∈ object_prototype_members)
      then Some (InheritedMember key)
      else None
  end.

Definition getModelForTask (env : Env) (complexity : ModelComplexity) : ModelValue :=
  let baseModel := or_default (MODEL env) default_model in
  match complexity with
  | high => ModelName baseModel
  | low =>
      match downgrades_at baseModel with
      | Some v => if truthy_value v then v else ModelName baseModel
      | None => ModelName baseModel
      end
  end.

(** The provider clients a model instance can be bound to. *)
Inductive LanguageModel : Type :=
| Ollama (baseURL model : string)
| Anthropic (model : string)
| Google (model : string)
| OpenAIChat (model baseURL : string)
| OpenAI (model : string).

Definition is_ollama (m : LanguageModel) : bool :=
  match m with Ollama _ _ => true | _ => false end.

(** [Number(env.MODEL_TEMPERATURE) || 1]: [NaN] and [0] are falsy. *)
Definition default_temperature (env : Env) : Q :=
  match MODEL_TEMPERATURE env with
  | Some q => if Qeq_bool q 0 then 1%Q else q
  | None => 1%Q
  end.

(** The local variables of [getModel] when control leaves its body, and
    whether it leaves through [return modelInstance] or falls off the end
    (the [return] is inside the [else] branch). *)
Record Frame : Type := {
  model : string;
  ollamaUrl : option string;
  modelInstance : option LanguageModel;
  modelTemperature : Q;
  through_return : bool
}.

Definition getModel_frame (env : Env) (takeModel : option string) : Outcome Frame :=
  let anthropicKey := ANTHROPIC_API_KEY env in
  let googleKey := GOOGLE_GENERATIVE_AI_API_KEY env in
  let openaiKey := OPENAI_API_KEY env in
  let openaiBaseUrl := OPENAI_BASE_URL env in
  let ollamaUrl := OLLAMA_URL env in
  let model := or_default (or_else takeModel (MODEL env)) default_model in
  let modelTemperature := default_temperature env in
  let ollamaUrl : option string := None in
  if truthy ollamaUrl then
    Returned {| model := model; ollamaUrl := ollamaUrl;
                modelInstance :=
                  Some (Ollama (or_default ollamaUrl "") (or_default (Some model) "llama2"));
                modelTemperature := modelTemperature;
                through_return := false |}
  else if truthy (Some model) && includes "claude" model then
    if negb (truthy anthropicKey) then
      Thrown "No Anthropic API key found. Set ANTHROPIC_API_KEY"
    else
      Returned {| model := model; ollamaUrl := ollamaUrl;
                  modelInstance := Some (Anthropic model);
                  modelTemperature := (1 # 2)%Q;
                  through_return := true |}
  else if truthy (Some model) && includes "gemini" model then
    if negb (truthy googleKey) then
      Thrown "No Google API key found. Set GOOGLE_API_KEY"
    else
      Returned {| model := model; ollamaUrl := ollamaUrl;
                  modelInstance := Some (Google model);
                  modelTemperature := modelTemperature;
                  through_return := true |}
  else
    if negb (truthy openaiKey) then
      Thrown "No OpenAI API key found. Set OPENAI_API_KEY"
    else
      Returned {| model := model; ollamaUrl := ollamaUrl;
                  modelInstance :=
                    Some (if truthy openaiBaseUrl
                          then OpenAIChat model (or_default openaiBaseUrl "")
                          else OpenAI model);
                  modelTemperature := modelTemperature;
                  through_return := true |}.

(** The value of the call [getModel(takeModel)]: [None] is [undefined]. *)
Definition getModel (env : Env) (takeModel : option string)
  : Outcome (option LanguageModel) :=
  match getModel_frame env takeModel with
  | Returned f => Returned (if through_return f then modelInstance f else None)
  | Thrown msg => Thrown msg
  end.

(** [getModel(model)] where [model] is what [getModelForTask] has returned.
    An inherited member is truthy, so [takeModel || env.MODEL || ...] keeps
    it; it has no [includes], and the first test of the name,
    [model.includes("claude")], throws a [TypeError]. *)
Definition getModel_of (env : Env) (model : ModelValue) : Outcome (option LanguageModel) :=
  match model with
  | ModelName name => getModel env (Some name)
  | InheritedMember _ => Thrown "model.includes is not a function"
  end.

(** The name [getModel] classifies: the argument, else the configured
    model, else the built-in default. *)
Definition resolved_model (env : Env) (takeModel : option string) : string :=
  or_default (or_else takeModel (MODEL env)) default_model.

Definition bound_to_ollama (o : Outcome (option LanguageModel)) : bool :=
  match o with
  | Returned (Some m) => is_ollama m
  | _ => false
  end.

End ModelRouter.

(** ** Embedding retriever *)

Module EmbeddingRetriever.
Import Eff.
Local Open Scope eff_scope.

(** [number[]]: each component is the rational value of a double. *)
Definition Embedding : Type := list Q.

Inductive PayloadModel : Type :=
| ModelOmitted
| ModelNull
| ModelName (name : string).

(** The POST the custom endpoint receives. *)
Record Request : Type := {
  endpoint : string;
  authorization : option string;
  input : string;
  payload_model : PayloadModel
}.

(** What [fetch] and the reading of its body give back. *)
Inductive FetchResult : Type :=
| FetchRejected (error : string)
| FetchResponse (ok : bool) (status : nat) (errorText : string)
                (json : Outcome (option Embedding)).

(** What one call leaves behind, as far as the code at hand does it:
    [EvSleep] is the [setTimeout] of the retry loop of
    [requestEmbeddingWithRetries]; [EvSdkEmbed] and [EvOllamaEmbed] are each
    one call of [embed], and whatever the SDK does inside that call, requests
    and waits of its own included, lies behind its answer and is not in the
    trace. *)
Inductive Event : Type :=
| EvFetch (attempt : nat) (req : Request)
| EvSleep (ms : N)
| EvConsoleError (msg error : string)
| EvSdkEmbed (model value : string)
| EvOllamaEmbed (baseURL : string) (model : option string) (value : string).

(** The answers of the outside world to one [getEmbedding] call. *)
Record World : Type := {
  fetch : nat -> FetchResult;
  sdk_embed : Outcome Embedding;
  ollama_embed : Outcome Embedding
}.

Definition emit (e : Event) : M (list Event) unit :=
  modify (fun tr => (tr ++ [e])%list).

(** The options of [requestEmbeddingWithRetries]; an option left out is
    [None]. [maxRetries] is a natural number: the only caller leaves it out. *)
Record EmbeddingRequestOptions : Type := {
  baseUrl : string;
  text : string;
  apiKey : option string;
  model : option string;
  sendNullModelWhenMissing : option bool;
  maxRetries : option nat
}.

(** [baseUrl.replace(/\/$/, "")]. *)
Fixpoint strip_trailing_slash (s : string) : string :=
  match s with
  | EmptyString => EmptyString
  | String c EmptyString => if Ascii.eqb c "/"%char then EmptyString else s
  | String c rest => String c (strip_trailing_slash rest)
  end.

Definition build_request (o : EmbeddingRequestOptions) : Request :=
  {| endpoint := strip_trailing_slash (baseUrl o) +:+ "/embeddings";
     authorization :=
       if truthy (apiKey o) then Some ("Bearer " +:+ or_default (apiKey o) "") else None;
     input := text o;
     payload_model :=
       if truthy (model o) then ModelName (or_default (model o) "")
       else if default false (sendNullModelWhenMissing o) then ModelNull
       else ModelOmitted |}.

(** The body of the [try] of one attempt, after [fetch] has answered. *)
Definition read_response (r : FetchResult) : Outcome Embedding :=
  match r with
  | FetchRejected error => Thrown error
  | FetchResponse ok status errorText json =>
      if negb ok then Thrown ("Status " +:+ pretty status +:+ ": " +:+ errorText)
      else match json with
           | Thrown error => Thrown error
           | Returned None => Thrown "Unexpected embedding response format"
           | Returned (Some embedding) => Returned embedding
           end
  end.

Definition backoff_ms (attempt : nat) : N := (2 ^ N.of_nat attempt * 1000)%N.

Definition attempt_log (b : string) (attempt : nat) (error : string) : Event :=
  EvConsoleError
    ("Embedding request to " +:+ b +:+ " failed on attempt " +:+ pretty attempt +:+ ":")
    error.

(** The [for] loop: [remaining] iterations are left when the loop variable
    is [attempt], so [remaining = maxRetries + 1 - attempt]. *)
Fixpoint retry_loop (w : World) (baseUrl : string) (req : Request)
    (maxRetries remaining attempt : nat) : M (list Event) Embedding :=
  match remaining with
  | O => throw "Embedding request failed after retries"
  | S remaining' =>
      emit (EvFetch attempt req) ;;;
      match read_response (fetch w attempt) with
      | Returned embedding => ret embedding
      | Thrown error =>
          emit (attempt_log baseUrl attempt error) ;;;
          if Nat.eqb attempt maxRetries then throw error
          else
            emit (EvSleep (backoff_ms attempt)) ;;;
            retry_loop w baseUrl req maxRetries remaining' (S attempt)
      end
  end.

Definition requestEmbeddingWithRetries (w : World) (o : EmbeddingRequestOptions)
  : M (list Event) Embedding :=
  let maxRetries := default 3 (maxRetries o) in
  retry_loop w (baseUrl o) (build_request o) maxRetries maxRetries 1.

Definition sdk_model : string := "text-embedding-3-small".

Definition custom_options (env : Env) (text : string) : EmbeddingRequestOptions :=
  {| baseUrl := or_default (OPENAI_EMBEDDINGS_BASE_URL env) "";
     text := text;
     apiKey := OPENAI_API_KEY env;
     model := EMBEDDING_MODEL env;
     sendNullModelWhenMissing := Some true;
     maxRetries := None |}.

(** Each strategy ends in [Some embedding] when its [return] is reached and in
    [None] when control goes on to the statement after it. *)
Definition custom_strategy (env : Env) (w : World) (text : string)
  : M (list Event) (option Embedding) :=
  let openaiEmbeddingsBaseUrl := OPENAI_EMBEDDINGS_BASE_URL env in
  if truthy openaiEmbeddingsBaseUrl then
    try_catch
      (embedding <- requestEmbeddingWithRetries w (custom_options env text) ;;
       ret (Some embedding))
      (fun error =>
         emit (EvConsoleError "Custom embedding endpoint failed after retries:" error) ;;;
         ret None)
  else ret None.

Definition sdk_strategy (env : Env) (w : World) (text : string)
  : M (list Event) (option Embedding) :=
  try_catch
    (if bool_decide (EMBEDDING_MODEL env = Some sdk_model) then
       emit (EvSdkEmbed sdk_model text) ;;;
       embedding <- await (sdk_embed w) ;;
       ret (Some embedding)
     else ret None)
    (fun error =>
       emit (EvConsoleError "OpenAI SDK embedding failed:" error) ;;;
       ret None).

Definition ollama_strategy (env : Env) (w : World) (text : string)
  : M (list Event) (option Embedding) :=
  let ollamaUrl := OLLAMA_URL env in
  if truthy ollamaUrl then
    try_catch
      (emit (EvOllamaEmbed (or_default ollamaUrl "") (EMBEDDING_MODEL env) text) ;;;
       embedding <- await (ollama_embed w) ;;
       ret (Some embedding))
      (fun error =>
         emit (EvConsoleError "Ollama embedding failed:" error) ;;;
         ret None)
  else ret None.

Definition all_failed : string :=
  "All embedding methods failed. Please check your configuration.".

Definition getEmbedding (env : Env) (w : World) (text : string)
  : M (list Event) Embedding :=
  r1 <- custom_strategy env w text ;;
  match r1 with
  | Some embedding => ret embedding
  | None =>
      r2 <- sdk_strategy env w text ;;
      match r2 with
      | Some embedding => ret embedding
      | None =>
          r3 <- ollama_strategy env w text ;;
          match r3 with
          | Some embedding => ret embedding
          | None => throw all_failed
          end
      end
  end.

(** *** Reading a trace *)

Inductive Step : Type := Try (attempt : nat) | Wait (ms : N).

Definition step_of (e : Event) : list Step :=
  match e with
  | EvFetch n _ => [Try n]
  | EvSleep ms => [Wait ms]
  | _ => []
  end.

Definition steps (tr : list Event) : list Step := flat_map step_of tr.

Fixpoint schedule (first count : nat) : list Step :=
  match count with
  | O => []
  | S k =>
      Try first ::
      match k with
      | O => []
      | S _ => Wait (backoff_ms first) :: schedule (S first) k
      end
  end.

Definition is_try (s : Step) : bool :=
  match s with Try _ => true | Wait _ => false end.

Definition attempts_made (tr : list Event) : nat :=
  length (List.filter is_try (steps tr)).

(** *** The order of the strategies *)

Inductive Strategy : Type := CustomEndpoint | ManagedSdk | LocalInference.

Definition Strategy_eqb (a b : Strategy) : bool :=
  match a, b with
  | CustomEndpoint, CustomEndpoint | ManagedSdk, ManagedSdk
  | LocalInference, LocalInference => true
  | _, _ => false
  end.

Definition configured (env : Env) (s : Strategy) : bool :=
  match s with
  | CustomEndpoint => truthy (OPENAI_EMBEDDINGS_BASE_URL env)
  | ManagedSdk => bool_decide (EMBEDDING_MODEL env = Some sdk_model)
  | LocalInference => truthy (OLLAMA_URL env)
  end.

(** What a strategy answers when it is the one that is tried. *)
Definition strategy_outcome (env : Env) (w : World) (text : string) (s : Strategy)
  : Outcome Embedding :=
  match s with
  | CustomEndpoint => fst (requestEmbeddingWithRetries w (custom_options env text) [])
  | ManagedSdk => sdk_embed w
  | LocalInference => ollama_embed w
  end.

Definition strategy_of (e : Event) : list Strategy :=
  match e with
  | EvFetch _ _ => [CustomEndpoint]
  | EvSdkEmbed _ _ => [ManagedSdk]
  | EvOllamaEmbed _ _ _ => [LocalInference]
  | EvSleep _ | EvConsoleError _ _ => []
  end.

(** Runs of calls to one strategy, each run counted once. *)
Fixpoint squash (l : list Strategy) : list Strategy :=
  match l with
  | [] => []
  | a :: rest =>
      match rest with
      | b :: _ => if Strategy_eqb a b then squash rest else a :: squash rest
      | [] => [a]
      end
  end.

(** The strategies a trace shows, in the order in which they were tried. *)
Definition tried (tr : list Event) : list Strategy := squash (flat_map strategy_of tr).

(** The specification's reading: the configured strategies are tried in
    their fixed order up to the first one that succeeds. *)
Fixpoint first_success (outcome : Strategy -> Outcome Embedding) (ss : list Strategy)
  : list Strategy * Outcome Embedding :=
  match ss with
  | [] => ([], Thrown all_failed)
  | s :: rest =>
      match outcome s with
      | Returned v => ([s], Returned v)
      | Thrown _ =>
          let '(t, r) := first_success outcome rest in (s :: t, r)
      end
  end.

End EmbeddingRetriever.

(** ** Markup stripping: [stripHtml]

  A string stands for a sequence of UTF-16 code units below 256, one per
  character of the [string]. *)

Module Html.

Fixpoint contains_gt (s : string) : bool :=
  match s with
  | EmptyString => false
  | String c rest => Ascii.eqb c ">"%char || contains_gt rest
  end.

(** [.replace(/<[^>]*>/g, '')]: a match starts at a [<] and runs to the
    first [>] after it; a [<] with no [>] after it starts no match, and
    neither does anything behind it. *)
Fixpoint remove_tags (in_tag : bool) (s : string) : string :=
  match s with
  | EmptyString => EmptyString
  | String c rest =>
      if in_tag then
        remove_tags (negb (Ascii.eqb c ">"%char)) rest
      else if Ascii.eqb c "<"%char then
        if contains_gt rest then remove_tags true rest else s
      else String c (remove_tags false rest)
  end.

(** [.replace(/pat/g, rep)] for a literal, non-empty [pat]: [skip] counts
    the characters of the current match still to be dropped. *)
Fixpoint replace_from (pat rep : string) (skip : nat) (s : string) : string :=
  match s with
  | EmptyString => EmptyString
  | String c rest =>
      match skip with
      | S k => replace_from pat rep k rest
      | O =>
          if String.prefix pat s
          then rep +:+ replace_from pat rep (String.length pat - 1) rest
          else String c (replace_from pat rep 0 rest)
      end
  end.

Definition replace_all (pat rep s : string) : string := replace_from pat rep 0 s.

(** White space of [String.prototype.trim] among the code units below 256. *)
Definition is_white_space (c : ascii) : bool :=
  let n := nat_of_ascii c in
  (Nat.leb 9 n && Nat.leb n 13) || Nat.eqb n 32 || Nat.eqb n 160.

Fixpoint trim_start (s : string) : string :=
  match s with
  | EmptyString => EmptyString
  | String c rest => if is_white_space c then trim_start rest else s
  end.

Fixpoint trim_end (s : string) : string :=
  match s with
  | EmptyString => EmptyString
  | String c rest =>
      match trim_end rest with
      | EmptyString => if is_white_space c then EmptyString else String c EmptyString
      | rest' => String c rest'
      end
  end.

Definition trim (s : string) : string := trim_end (trim_start s).

Definition double_quote : string := String "034"%char EmptyString.

Definition stripHtml (html : string) : string :=
  trim
    (replace_all "&#039;" "'"
      (replace_all "&quot;" double_quote
        (replace_all "&amp;" "&"
          (replace_all "&gt;" ">"
            (replace_all "&lt;" "<"
              (replace_all "&nbsp;" " "
                (remove_tags false html))))))).

End Html.

(** ** The conversation route: one turn on the server *)

Module Conversation.
Import Eff ModelRouter Html.
Local Open Scope eff_scope.

Inductive UserTypeEnum : Type := User | Agent.

(** A row of the conversation history. *)
Record HistoryRow : Type := {
  row_id : string;
  conversationId : string;
  message : string;
  userType : UserTypeEnum
}.

Inductive LogLevel : Type := LogError | LogWarn.

Record LogEntry : Type := {
  level : LogLevel;
  log_message : string;
  log_error : option string
}.

Record TitleJob : Type := {
  job_conversationId : string;
  job_message : string
}.

(** What the route can change outside itself. *)
Record ServerState : Type := {
  history : list HistoryRow;
  logs : list LogEntry;
  titleQueue : list TitleJob
}.

(** A part of a UI message: [part.type] and, for the parts that have one,
    [part.text]. *)
Record Part : Type := {
  part_type : string;
  part_text : string
}.

Record UIMessage : Type := {
  msg_id : string;
  role : string;
  parts : list Part
}.

(** The request body accepted by [ChatRequestSchema]. *)
Record ChatRequest : Type := {
  body_message_id : option string;
  body_message_parts : list Part;
  body_message_role : string;
  body_id : string
}.

Definition Tool : Type := string.

(** The answers of the collaborators of one request. *)
Record Oracle : Type := {
  delete_pat : Outcome unit;
  create_pat : Outcome (option string);
  create_mcp_client : Outcome unit;
  mcp_tools : Outcome (gmap string Tool);
  enqueue_title : Outcome unit;
  generateId : string
}.

(** The arguments [streamText] is called with. *)
Record StreamCall : Type := {
  stream_model : option LanguageModel;
  stream_messages : list UIMessage;
  stream_tools : gmap string Tool;
  stream_step_limit : nat
}.

Definition logger (lv : LogLevel) (msg : string) (err : option string)
  : M ServerState unit :=
  modify (fun st =>
    {| history := history st;
       logs := (logs st ++ [{| level := lv; log_message := msg; log_error := err |}])%list;
       titleQueue := titleQueue st |}).

Definition same_conversation (id : string) (r : HistoryRow) : bool :=
  String.eqb (conversationId r) id.

(** Modelled from the spec: [getConversationAndHistory] of the conversation
    store, which is not part of the sources at hand; the store is consulted
    through [getHistory(conversationId) -> ordered Turns]. *)
Definition getConversationAndHistory (id : string) : M ServerState (list HistoryRow) :=
  gets (fun st => List.filter (same_conversation id) (history st)).

(** Modelled from the spec: [createConversationHistory] of the conversation
    store, which is not part of the sources at hand; turns are append-only
    and the store answers [appendTurn(conversationId, turn) -> Turn]. The
    new row gets an identifier that no earlier row has. *)
Definition createConversationHistory (msg id : string) (ut : UserTypeEnum)
  : M ServerState HistoryRow :=
  fun st =>
    let row := {| row_id := pretty (length (history st));
                  conversationId := id; message := msg; userType := ut |} in
    (Returned row,
     {| history := (history st ++ [row])%list;
        logs := logs st;
        titleQueue := titleQueue st |}).

(** The queue adapter: the job is in the queue when the call resolves. *)
Definition enqueueCreateConversationTitle (o : Oracle) (job : TitleJob)
  : M ServerState unit :=
  await (enqueue_title o) ;;;
  modify (fun st =>
    {| history := history st;
       logs := logs st;
       titleQueue := (titleQueue st ++ [job])%list |}).

Definition to_ui_message (id msg : string) (ut : UserTypeEnum) : UIMessage :=
  {| msg_id := id;
     role := match ut with Agent => "assistant" | User => "user" end;
     parts := [{| part_text := msg; part_type := "text" |}] |}.

(** The handler of the route, up to the call of [streamText]. The address of
    the tool gateway is only used to reach it and is part of what
    [create_mcp_client] answers; the messages the route builds have the shape
    [validateUIMessages] accepts; the stop conditions other than the step
    count look at the generated text and play no part before the stream. *)
Definition action (env : Env) (o : Oracle) (body : ChatRequest)
  : M ServerState StreamCall :=
  await (delete_pat o) ;;;
  pat_token <- await (create_pat o) ;;
  if negb (truthy pat_token) then
    logger LogError "Failed to get PAT token for MCP authentication" None ;;;
    throw "Authentication token unavailable"
  else
    message <- match body_message_parts body with
               | [] => throw "TypeError: Cannot read properties of undefined (reading 'text')"
               | p :: _ => ret (part_text p)
               end ;;
    let id := body_message_id body in
    try_catch (await (create_mcp_client o))
      (fun err =>
         logger LogError "Failed to create MCP client" (Some err) ;;;
         throw "Internal error: unable to connect to internal MCP service") ;;;
    tools <- try_catch (await (mcp_tools o))
      (fun err =>
         logger LogWarn "Failed to fetch MCP tools; continuing with empty tools set"
                (Some err) ;;;
         ret ∅) ;;
    conversationHistory <- getConversationAndHistory (body_id body) ;;
    savedHistory <- createConversationHistory message (body_id body) User ;;
    (if Nat.eqb (length conversationHistory) 0 then
       let cleanMessage := stripHtml message in
       enqueueCreateConversationTitle o
         {| job_conversationId := body_id body; job_message := cleanMessage |}
     else ret tt) ;;;
    let messages :=
      (map (fun h => to_ui_message (row_id h) (Conversation.message h) (userType h))
           conversationHistory
       ++ [to_ui_message (default (generateId o) id) message User])%list in
    let validatedMessages := messages in
    model <- await (getModel env None) ;;
    ret {| stream_model := model;
           stream_messages := validatedMessages;
           stream_tools := tools;
           stream_step_limit := 10 |}.

(** [lastMessage?.parts.forEach(...)] with the accumulator [message]. *)
Definition collect_text (ps : list Part) : string :=
  fold_left
    (fun message part =>
       if String.eqb (part_type part) "text" then message +:+ part_text part else message)
    ps "".

(** The [onFinish] callback. [messages.pop()] changes the array it is
    given: the array as the callback leaves it is the value returned here. *)
Definition onFinish (body : ChatRequest) (messages : list UIMessage)
  : M ServerState (list UIMessage) :=
  let lastMessage := last messages in
  let messages := removelast messages in
  let message := collect_text (from_option parts [] lastMessage) in
  savedResponse <- createConversationHistory message (body_id body) Agent ;;
  ret messages.

(** A turn whose stream ends: the callback receives the original messages
    followed by the message the stream produced. *)
Definition completed_turn (env : Env) (o : Oracle) (body : ChatRequest)
    (response : UIMessage) : M ServerState (list UIMessage) :=
  call <- action env o body ;;
  onFinish body (stream_messages call ++ [response])%list.

(** *** Names for what the route leaves behind *)

Definition first_text (body : ChatRequest) : string :=
  match body_message_parts body with
  | [] => ""
  | p :: _ => part_text p
  end.

Definition prior_history (body : ChatRequest) (st : ServerState) : list HistoryRow :=
  List.filter (same_conversation (body_id body)) (history st).

Definition user_row (body : ChatRequest) (st : ServerState) : HistoryRow :=
  {| row_id := pretty (length (history st)); conversationId := body_id body;
     message := first_text body; userType := User |}.

Definition agent_row (body : ChatRequest) (text : string) (n : nat) : HistoryRow :=
  {| row_id := pretty n; conversationId := body_id body;
     message := text; userType := Agent |}.

Definition tools_warning (err : string) : LogEntry :=
  {| level := LogWarn;
     log_message := "Failed to fetch MCP tools; continuing with empty tools set";
     log_error := Some err |}.

Definition title_job (body : ChatRequest) : TitleJob :=
  {| job_conversationId := body_id body; job_message := stripHtml (first_text body) |}.

(** The listing is reached: the token is there, the body has a first part and
    the client of the tool gateway has been created. *)
Definition reaches_tools (o : Oracle) (body : ChatRequest) : bool :=
  negb (is_thrown (delete_pat o))
  && match create_pat o with Returned tok => truthy tok | Thrown _ => false end
  && negb (Nat.eqb (length (body_message_parts body)) 0)
  && negb (is_thrown (create_mcp_client o)).

Definition listed_tools (o : Oracle) : gmap string Tool :=
  match mcp_tools o with Returned t => t | Thrown _ => ∅ end.

Definition with_tools (o : Oracle) (t : Outcome (gmap string Tool)) : Oracle :=
  {| delete_pat := delete_pat o; create_pat := create_pat o;
     create_mcp_client := create_mcp_client o; mcp_tools := t;
     enqueue_title := enqueue_title o; generateId := generateId o |}.

Definition stream_of (env : Env) (o : Oracle) (body : ChatRequest) (st : ServerState)
    (m : option LanguageModel) : StreamCall :=
  {| stream_model := m;
     stream_messages :=
       (map (fun h => to_ui_message (row_id h) (Conversation.message h) (userType h))
            (prior_history body st)
        ++ [to_ui_message (default (generateId o) (body_message_id body))
                          (first_text body) User])%list;
     stream_tools := listed_tools o;
     stream_step_limit := 10 |}.

(** The in-order concatenation of the text of the parts of type [text]. *)
Definition text_of_parts (ps : list Part) : string :=
  fold_right (fun p acc => part_text p +:+ acc) ""
    (List.filter (fun p => String.eqb (part_type p) "text") ps).

Definition agent_turns (id : string) (st : ServerState) : list HistoryRow :=
  List.filter (fun r => same_conversation id r
                        && match userType r with Agent => true | User => false end)
              (history st).

Definition user_turns (id : string) (st : ServerState) : list HistoryRow :=
  List.filter (fun r => same_conversation id r
                        && match userType r with User => true | Agent => false end)
              (history st).

End Conversation.

(** ** The stall watchdog of the conversation page

  The page is a state machine: what [useState] and [useRef] hold, the
  pending timeout of the watchdog, and whether the page has been left by a
  reload. Time is counted in milliseconds, one [tick] each. The hooks
  [stop] and [revalidator] are taken to keep their identity between
  renders, so that the watchdog effect runs again exactly when [status] or
  [retryCount] changes. *)

Module Watchdog.

Inductive ChatStatus : Type :=
| submitted | streaming | ready | error | idle | success.

Definition ChatStatus_eqb (a b : ChatStatus) : bool :=
  match a, b with
  | submitted, submitted | streaming, streaming | ready, ready
  | error, error | idle, idle | success, success => true
  | _, _ => false
  end.

(** A pending [setTimeout] of the watchdog: the time left, and the
    [retryCount] of the render whose effect created the callback. *)
Record Timer : Type := {
  remaining : nat;
  seen_retryCount : nat
}.

Record Page : Type := {
  status : ChatStatus;
  retryCount : nat;
  statusTimeout : option Timer;
  reload_pending : option nat;
  unloaded : bool
}.

Inductive Action : Type :=
| Stop
| RevalidateAfter (ms : nat)
| Reload.

Inductive Event : Type :=
| StatusChange (s : ChatStatus)
| ChatError
| Elapse (ms : nat).

Definition watchdog_timeout : nat := 30 * 1000.

Definition monitored (s : ChatStatus) : bool :=
  ChatStatus_eqb s submitted || ChatStatus_eqb s streaming.

Definition set_statusTimeout (t : option Timer) (p : Page) : Page :=
  {| status := status p; retryCount := retryCount p; statusTimeout := t;
     reload_pending := reload_pending p; unloaded := unloaded p |}.

Definition set_retryCount (n : nat) (p : Page) : Page :=
  {| status := status p; retryCount := n; statusTimeout := statusTimeout p;
     reload_pending := reload_pending p; unloaded := unloaded p |}.

Definition set_status (s : ChatStatus) (p : Page) : Page :=
  {| status := s; retryCount := retryCount p; statusTimeout := statusTimeout p;
     reload_pending := reload_pending p; unloaded := unloaded p |}.

Definition set_reload_pending (r : option nat) (p : Page) : Page :=
  {| status := status p; retryCount := retryCount p; statusTimeout := statusTimeout p;
     reload_pending := r; unloaded := unloaded p |}.

Definition unload (p : Page) : Page :=
  {| status := status p; retryCount := retryCount p; statusTimeout := None;
     reload_pending := None; unloaded := true |}.

(** The watchdog effect, with the clean-up of its previous run: the pending
    timeout is cleared, and a new one is set while the status is monitored. *)
Definition watchdog_effect (p : Page) : Page :=
  let p := set_statusTimeout None p in
  if monitored (status p) then
    set_statusTimeout
      (Some {| remaining := watchdog_timeout; seen_retryCount := retryCount p |}) p
  else p.

(** The effect that resets the retry counter. *)
Definition reset_effect (p : Page) : Page :=
  if ChatStatus_eqb (status p) idle || ChatStatus_eqb (status p) success then
    if Nat.ltb 0 (retryCount p) then set_retryCount 0 p else p
  else p.

(** A render after [status] or [retryCount] has changed: both effects run,
    and run once more when the reset effect has changed the counter. *)
Definition render (p : Page) : Page :=
  let p1 := reset_effect (watchdog_effect p) in
  if Nat.eqb (retryCount p1) (retryCount p) then p1
  else reset_effect (watchdog_effect p1).

(** The callback given to [setTimeout] by the watchdog effect. *)
Definition on_timeout (t : Timer) (p : Page) : Page * list Action :=
  let p := set_statusTimeout None p in
  if Nat.ltb (seen_retryCount t) 2 then
    (render (set_retryCount (S (retryCount p)) p), [Stop; RevalidateAfter 1000])
  else
    (unload p, [Reload]).

(** The [retryCount] the [onError] callback reads. [useChat] builds its chat
    on the first render of the page and keeps the callbacks it is given
    then: the callback closes over the state of that render, [useState(0)],
    whatever the counter has become since. *)
Definition onError_retryCount : nat := 0.

(** The [onError] callback of [useChat]. Its [setRetryCount] takes the
    current counter. Every [setTimeout] of its [else] branch is a timer of
    its own; the page is gone when the first of them fires, so the earliest
    is the one that counts. *)
Definition on_error (p : Page) : Page * list Action :=
  if Nat.ltb onError_retryCount 2 then
    (render (set_retryCount (S (retryCount p)) p), [RevalidateAfter 1000])
  else
    (set_reload_pending
       (Some match reload_pending p with
             | Some k => Nat.min k (2 * 1000)
             | None => 2 * 1000
             end) p, []).

(** One millisecond passes. *)
Definition tick (p : Page) : Page * list Action :=
  if unloaded p then (p, [])
  else
    match reload_pending p with
    | Some (O | 1) => (unload p, [Reload])
    | _ =>
        let p := set_reload_pending (pred <$> reload_pending p) p in
        match statusTimeout p with
        | Some t =>
            match remaining t with
            | O | 1 => on_timeout t p
            | S r =>
                (set_statusTimeout
                   (Some {| remaining := r; seen_retryCount := seen_retryCount t |}) p,
                 [])
            end
        | None => (p, [])
        end
    end.

Fixpoint elapse (ms : nat) (p : Page) : Page * list Action :=
  match ms with
  | O => (p, [])
  | S ms' =>
      let '(p1, a1) := tick p in
      let '(p2, a2) := elapse ms' p1 in
      (p2, (a1 ++ a2)%list)
  end.

Definition step (e : Event) (p : Page) : Page * list Action :=
  if unloaded p then (p, [])
  else
    match e with
    | StatusChange s =>
        if ChatStatus_eqb s (status p) then (p, [])
        else (render (set_status s p), [])
    | ChatError => on_error p
    | Elapse ms => elapse ms p
    end.

Fixpoint run (evs : list Event) (p : Page) : Page * list Action :=
  match evs with
  | [] => (p, [])
  | e :: evs' =>
      let '(p1, a1) := step e p in
      let '(p2, a2) := run evs' p1 in
      (p2, (a1 ++ a2)%list)
  end.

(** The page after its first render, with the status [useChat] reports. *)
Definition mount (s : ChatStatus) : Page :=
  render {| status := s; retryCount := 0; statusTimeout := None;
            reload_pending := None; unloaded := false |}.


Definition reloads (acts : list Action) : nat :=
  length (List.filter (fun a => match a with Reload => true | _ => false end) acts).

(** *** Stalls, and what holds between two completions *)

(** The statuses on which the retry counter is reset. *)
Definition completes (s : ChatStatus) : bool :=
  ChatStatus_eqb s idle || ChatStatus_eqb s success.



(** The watchdog has just been set: the state after a render in a monitored
    status. *)
Definition armed (p : Page) : Prop :=
  unloaded p = false
  /\ reload_pending p = None
  /\ monitored (status p) = true
  /\ statusTimeout p
     = Some {| remaining := watchdog_timeout; seen_retryCount := retryCount p |}.



End Watchdog.

(** ** Concrete configurations and worlds used as examples *)

Module Scenario.
Import ModelRouter EmbeddingRetriever Conversation.

Definition env_with_model (m : option string) : Env :=
  {| MODEL := m; MODEL_TEMPERATURE := None; ANTHROPIC_API_KEY := None;
     GOOGLE_GENERATIVE_AI_API_KEY := None; OPENAI_API_KEY := None;
     OPENAI_BASE_URL := None; OLLAMA_URL := None;
     OPENAI_EMBEDDINGS_BASE_URL := None; EMBEDDING_MODEL := None |}.

Definition env_ollama : Env :=
  {| MODEL := Some "llama3"; MODEL_TEMPERATURE := None; ANTHROPIC_API_KEY := None;
     GOOGLE_GENERATIVE_AI_API_KEY := None; OPENAI_API_KEY := None;
     OPENAI_BASE_URL := None; OLLAMA_URL := Some "http://localhost:11434";
     OPENAI_EMBEDDINGS_BASE_URL := None; EMBEDDING_MODEL := None |}.

Definition env_ollama_openai : Env :=
  {| MODEL := Some "llama3"; MODEL_TEMPERATURE := None; ANTHROPIC_API_KEY := None;
     GOOGLE_GENERATIVE_AI_API_KEY := None; OPENAI_API_KEY := Some "sk-test";
     OPENAI_BASE_URL := None; OLLAMA_URL := Some "http://localhost:11434";
     OPENAI_EMBEDDINGS_BASE_URL := None; EMBEDDING_MODEL := None |}.

Definition env_anthropic : Env :=
  {| MODEL := None; MODEL_TEMPERATURE := None; ANTHROPIC_API_KEY := Some "sk-ant-test";
     GOOGLE_GENERATIVE_AI_API_KEY := None; OPENAI_API_KEY := None;
     OPENAI_BASE_URL := None; OLLAMA_URL := None;
     OPENAI_EMBEDDINGS_BASE_URL := None; EMBEDDING_MODEL := None |}.

Definition options_with_retries (n : option nat) : EmbeddingRequestOptions :=
  {| baseUrl := "http://embeddings.test/v1"; text := "hello"; apiKey := None;
     model := None; sendNullModelWhenMissing := None; maxRetries := n |}.

Definition world_failing_twice : World :=
  {| fetch := fun n =>
       if Nat.leb n 2 then FetchResponse false 503 "busy" (Returned None)
       else FetchResponse true 200 "" (Returned (Some [1%Q]));
     sdk_embed := Thrown "sdk"; ollama_embed := Thrown "ollama" |}.

Definition env_all_strategies : Env :=
  {| MODEL := None; MODEL_TEMPERATURE := None; ANTHROPIC_API_KEY := None;
     GOOGLE_GENERATIVE_AI_API_KEY := None; OPENAI_API_KEY := Some "sk-test";
     OPENAI_BASE_URL := None; OLLAMA_URL := Some "http://localhost:11434";
     OPENAI_EMBEDDINGS_BASE_URL := Some "http://embeddings.test/v1/";
     EMBEDDING_MODEL := Some "text-embedding-3-small" |}.

Definition world_third_succeeds : World :=
  {| fetch := fun _ => FetchRejected "connection refused";
     sdk_embed := Thrown "quota exceeded";
     ollama_embed := Returned [(1 # 4)%Q; (3 # 4)%Q] |}.

Definition world_all_fail : World :=
  {| fetch := fun _ => FetchRejected "connection refused";
     sdk_embed := Thrown "quota exceeded";
     ollama_embed := Thrown "model not found" |}.

Definition env_openai : Env :=
  {| MODEL := None; MODEL_TEMPERATURE := None; ANTHROPIC_API_KEY := None;
     GOOGLE_GENERATIVE_AI_API_KEY := None; OPENAI_API_KEY := Some "sk-test";
     OPENAI_BASE_URL := None; OLLAMA_URL := None;
     OPENAI_EMBEDDINGS_BASE_URL := None; EMBEDDING_MODEL := None |}.

Definition oracle_ok : Oracle :=
  {| delete_pat := Returned tt; create_pat := Returned (Some "pat-1");
     create_mcp_client := Returned tt;
     mcp_tools := Returned {[ "memory_search" := "search the memory" ]};
     enqueue_title := Returned tt; generateId := "gen-1" |}.

Definition oracle_tools_down : Oracle :=
  {| delete_pat := Returned tt; create_pat := Returned (Some "pat-1");
     create_mcp_client := Returned tt;
     mcp_tools := Thrown "fetch failed";
     enqueue_title := Returned tt; generateId := "gen-1" |}.

Definition oracle_queue_down : Oracle :=
  {| delete_pat := Returned tt; create_pat := Returned (Some "pat-1");
     create_mcp_client := Returned tt;
     mcp_tools := Returned ∅;
     enqueue_title := Thrown "queue unavailable"; generateId := "gen-1" |}.

Definition first_request : ChatRequest :=
  {| body_message_id := Some "m-1";
     body_message_parts := [{| part_type := "text"; part_text := "<p>Plan a trip &amp; book it</p>" |}];
     body_message_role := "user";
     body_id := "conv-1" |}.

Definition empty_server : ServerState :=
  {| history := []; logs := []; titleQueue := [] |}.

Definition tool_part : Part := {| part_type := "tool-memory_search"; part_text := "" |}.

Definition response_message : UIMessage :=
  {| msg_id := "r-1"; role := "assistant";
     parts := [{| part_type := "text"; part_text := "Sure. " |};
               tool_part;
               {| part_type := "text"; part_text := "Where to?" |}] |}.

Definition tools_only_message : UIMessage :=
  {| msg_id := "r-2"; role := "assistant"; parts := [tool_part; tool_part] |}.


Definition after_first_turn : ServerState :=
  snd (completed_turn env_openai oracle_ok first_request response_message empty_server).

End Scenario.

(** ** The rest of [model.server.ts]: labelling and calling a model *)

Module ModelCall.
Import Eff ModelRouter.
Local Open Scope eff_scope.

(** The branch of [getModel] a name falls into: the substring tests, in the
    order in which the code makes them. *)
Inductive Provider : Type := AnthropicProvider | GoogleProvider | OpenAIProvider.

Definition provider_of (name : string) : Provider :=
  if includes "claude" name then AnthropicProvider
  else if includes "gemini" name then GoogleProvider
  else OpenAIProvider.

Definition provider_key (env : Env) (p : Provider) : option string :=
  match p with
  | AnthropicProvider => ANTHROPIC_API_KEY env
  | GoogleProvider => GOOGLE_GENERATIVE_AI_API_KEY env
  | OpenAIProvider => OPENAI_API_KEY env
  end.

Definition missing_key_message (p : Provider) : string :=
  match p with
  | AnthropicProvider => "No Anthropic API key found. Set ANTHROPIC_API_KEY"
  | GoogleProvider => "No Google API key found. Set GOOGLE_API_KEY"
  | OpenAIProvider => "No OpenAI API key found. Set OPENAI_API_KEY"
  end.

Definition provider_instance (env : Env) (p : Provider) (name : string) : LanguageModel :=
  match p with
  | AnthropicProvider => Anthropic name
  | GoogleProvider => Google name
  | OpenAIProvider =>
      if truthy (OPENAI_BASE_URL env)
      then OpenAIChat name (or_default (OPENAI_BASE_URL env) "")
      else OpenAI name
  end.

Definition Provider_eqb (a b : Provider) : bool :=
  match a, b with
  | AnthropicProvider, AnthropicProvider | GoogleProvider, GoogleProvider
  | OpenAIProvider, OpenAIProvider => true
  | _, _ => false
  end.

(** [proprietaryPatterns]: each pattern is anchored at the start of the name. *)
Definition proprietaryPatterns : list string := ["gpt-"; "claude-"; "gemini-"; "grok-"].

(** [modelName || getModelForTask(complexity)], then the patterns tried on
    the value as [RegExp.prototype.test] reads it, as a string. *)
Definition isProprietaryModel (env : Env) (modelName : option string)
    (complexity : ModelComplexity) : bool :=
  let model := if truthy modelName then ModelName (or_default modelName "")
               else getModelForTask env complexity in
  if negb (truthy_value model) then false
  else existsb (fun pattern => String.prefix pattern (show_value model)) proprietaryPatterns.

(** [env] with another [MODEL]. *)
Definition with_MODEL (env : Env) (m : option string) : Env :=
  {| MODEL := m; MODEL_TEMPERATURE := MODEL_TEMPERATURE env;
     ANTHROPIC_API_KEY := ANTHROPIC_API_KEY env;
     GOOGLE_GENERATIVE_AI_API_KEY := GOOGLE_GENERATIVE_AI_API_KEY env;
     OPENAI_API_KEY := OPENAI_API_KEY env;
     OPENAI_BASE_URL := OPENAI_BASE_URL env;
     OLLAMA_URL := OLLAMA_URL env;
     OPENAI_EMBEDDINGS_BASE_URL := OPENAI_EMBEDDINGS_BASE_URL env;
     EMBEDDING_MODEL := EMBEDDING_MODEL env |}.

(** *** [makeModelCall] *)

(** The usage a provider reports, and the [TokenUsage] handed to the caller. *)
Record Usage : Type := {
  inputTokens : option nat;
  outputTokens : option nat;
  usage_totalTokens : option nat
}.

Record TokenUsage : Type := {
  promptTokens : option nat;
  completionTokens : option nat;
  totalTokens : option nat
}.

Definition to_token_usage (usage : option Usage) : option TokenUsage :=
  match usage with
  | Some u => Some {| promptTokens := inputTokens u;
                      completionTokens := outputTokens u;
                      totalTokens := usage_totalTokens u |}
  | None => None
  end.

(** A number in a template literal: [undefined] prints as such. *)
Definition show_tokens (n : option nat) : string :=
  match n with Some k => pretty k | None => "undefined" end.

Definition toUpperCase (c : ModelComplexity) : string :=
  match c with high => "HIGH" | low => "LOW" end.

Definition usage_line (complexity : ModelComplexity) (model : ModelValue) (t : TokenUsage)
  : string :=
  "[" +:+ toUpperCase complexity +:+ "] " +:+ show_value model +:+ " - Tokens: "
    +:+ show_tokens (totalTokens t) +:+ " (prompt: " +:+ show_tokens (promptTokens t)
    +:+ ", completion: " +:+ show_tokens (completionTokens t) +:+ ")".

Record CoreMessage : Type := {
  message_role : string;
  message_content : string
}.

(** [options?: any], as [streamText] gets it spread over its argument: a
    [model] and [messages] of its own, if it has them, and its other
    settings by name. An [onFinish] of its own is overwritten by the one that
    follows the spread and is not among the settings. *)
Record CallOptions : Type := {
  options_model : option LanguageModel;
  options_messages : option (list CoreMessage);
  options_settings : list (string * string)
}.

(** [{ model: modelInstance, messages, ...options }]: the keys of [options]
    come later and win; without [options] nothing is spread. *)
Record CallArguments : Type := {
  call_model : LanguageModel;
  call_messages : list CoreMessage;
  call_settings : list (string * string)
}.

Definition spread (modelInstance : LanguageModel) (messages : list CoreMessage)
    (options : option CallOptions) : CallArguments :=
  match options with
  | Some o =>
      {| call_model := default modelInstance (options_model o);
         call_messages := default messages (options_messages o);
         call_settings := options_settings o |}
  | None =>
      {| call_model := modelInstance; call_messages := messages; call_settings := [] |}
  end.

Inductive CallEvent : Type :=
| CeStreamText (arguments : CallArguments)
| CeGenerateText (instance : LanguageModel) (messages : list CoreMessage)
| CeConsoleLog (line : string)
| CeOnFinish (text : string) (model : ModelValue) (usage : option TokenUsage).

(** The callback of the caller: what calling it leaves, a return or a throw. *)
Definition OnFinish : Type := string -> ModelValue -> option TokenUsage -> Outcome unit.

Definition call_emit (e : CallEvent) : M (list CallEvent) unit :=
  modify (fun tr => (tr ++ [e])%list).

(** What the call returns: the stream it has opened, or the generated text. *)
Inductive CallResult : Type :=
| Streaming
| Generated (text : string).

(** The lines both modes share: the usage is renamed, logged when there is
    one, and the callback of the caller is called. With [stream] they are the
    body of the [onFinish] given to [streamText], which runs when the stream
    has ended. *)
Definition finish (complexity : ModelComplexity) (model : ModelValue) (onFinish : OnFinish)
    (text : string) (usage : option Usage) : M (list CallEvent) unit :=
  let tokenUsage := to_token_usage usage in
  (match tokenUsage with
   | Some t => call_emit (CeConsoleLog (usage_line complexity model t))
   | None => ret tt
   end) ;;;
  call_emit (CeOnFinish text model tokenUsage) ;;;
  await (onFinish text model tokenUsage).

(** [makeModelCall(stream, messages, onFinish, options, complexity)]; what
    [streamText] and [generateText] answer is given by [streamed] and
    [generated]. *)
Definition makeModelCall (env : Env) (streamed : Outcome unit)
    (generated : Outcome (string * option Usage))
    (stream : bool) (messages : list CoreMessage) (onFinish : OnFinish)
    (options : option CallOptions) (complexity : ModelComplexity)
  : M (list CallEvent) CallResult :=
  let model := getModelForTask env complexity in
  modelInstance <- await (getModel_of env model) ;;
  match modelInstance with
  | None => throw ("Unsupported model type: " +:+ show_value model)
  | Some instance =>
      if stream then
        call_emit (CeStreamText (spread instance messages options)) ;;;
        await streamed ;;;
        ret Streaming
      else
        call_emit (CeGenerateText instance messages) ;;;
        r <- await generated ;;
        finish complexity model onFinish (fst r) (snd r) ;;;
        ret (Generated (fst r))
  end.

(** The callbacks and log lines of a trace. *)
Definition is_on_finish (e : CallEvent) : bool :=
  match e with CeOnFinish _ _ _ => true | _ => false end.

Definition is_provider_call (e : CallEvent) : bool :=
  match e with CeStreamText _ | CeGenerateText _ _ => true | _ => false end.

(** The base model of a configuration, and whether it is the name of an
    inherited member. *)
Definition base_model (env : Env) : string := or_default (MODEL env) default_model.

Definition names_inherited_member (env : Env) : bool :=
  bool_decide (base_model env ∈ object_prototype_members).

End ModelCall.

Module ModelCallScenario.
Import ModelRouter ModelCall Scenario.

Definition usage_of_call : Usage :=
  {| inputTokens := Some 12; outputTokens := Some 30; usage_totalTokens := Some 42 |}.

Definition one_message : list CoreMessage :=
  [{| message_role := "user"; message_content := "hi" |}].

(** A callback that returns, and one that throws. *)
Definition onFinish_ok : OnFinish := fun _ _ _ => Returned tt.

Definition onFinish_throwing : OnFinish := fun _ _ _ => Thrown "callback failed".

(** Options that name a model of their own. *)
Definition options_other_model : CallOptions :=
  {| options_model := Some (Anthropic "claude-sonnet-4-5");
     options_messages := None;
     options_settings := [("temperature", "0")] |}.

Definition env_constructor : Env :=
  {| MODEL := Some "constructor"; MODEL_TEMPERATURE := None; ANTHROPIC_API_KEY := None;
     GOOGLE_GENERATIVE_AI_API_KEY := None; OPENAI_API_KEY := Some "sk-test";
     OPENAI_BASE_URL := None; OLLAMA_URL := None;
     OPENAI_EMBEDDINGS_BASE_URL := None; EMBEDDING_MODEL := None |}.

End ModelCallScenario.

(** ** Reading more off the traces of the embedding retriever *)

Module EmbeddingTrace.
Import Eff EmbeddingRetriever.

(** The time a trace spends in [setTimeout], in milliseconds. *)
Definition sleep_of (e : Event) : N :=
  match e with EvSleep ms => ms | _ => 0%N end.

Definition total_sleep (tr : list Event) : N :=
  fold_right (fun e acc => (sleep_of e + acc)%N) 0%N tr.

(** The requests a trace has posted to the custom endpoint. *)
Definition request_of (e : Event) : list Request :=
  match e with EvFetch _ req => [req] | _ => [] end.

Definition requests (tr : list Event) : list Request := flat_map request_of tr.

Definition is_console_error (e : Event) : bool :=
  match e with EvConsoleError _ _ => true | _ => false end.

Definition console_errors (tr : list Event) : nat :=
  length (List.filter is_console_error tr).

Definition is_sdk_call (e : Event) : bool :=
  match e with EvSdkEmbed _ _ => true | _ => false end.

Definition is_ollama_call (e : Event) : bool :=
  match e with EvOllamaEmbed _ _ _ => true | _ => false end.

Fixpoint ends_with_slash (s : string) : bool :=
  match s with
  | EmptyString => false
  | String c EmptyString => Ascii.eqb c "/"%char
  | String _ rest => ends_with_slash rest
  end.

Definition wait_of (s : Step) : N :=
  match s with Wait ms => ms | Try _ => 0%N end.

Definition total_wait (l : list Step) : N :=
  fold_right (fun s acc => (wait_of s + acc)%N) 0%N l.

Definition is_omitted (m : PayloadModel) : bool :=
  match m with ModelOmitted => true | _ => false end.

Definition with_baseUrl (o : EmbeddingRequestOptions) (b : string) : EmbeddingRequestOptions :=
  {| baseUrl := b; text := text o; apiKey := apiKey o; model := model o;
     sendNullModelWhenMissing := sendNullModelWhenMissing o;
     maxRetries := maxRetries o |}.

Definition b2n (b : bool) : nat := if b then 1 else 0.

(** What a strategy leaves in the trace: its calls, and the line its [catch]
    logs when it has failed. *)
Definition failure_log (label : string) (o : Outcome Embedding) : list Event :=
  match o with
  | Thrown err => [EvConsoleError label err]
  | Returned _ => []
  end.

Definition succeeded (env : Env) (w : World) (text : string) (s : Strategy) : bool :=
  configured env s && negb (is_thrown (strategy_outcome env w text s)).

Definition strategy_part (env : Env) (w : World) (text : string) (s : Strategy)
  : list Event :=
  if configured env s then
    match s with
    | CustomEndpoint =>
        snd (requestEmbeddingWithRetries w (custom_options env text) [])
        ++ failure_log "Custom embedding endpoint failed after retries:"
             (strategy_outcome env w text s)
    | ManagedSdk =>
        EvSdkEmbed sdk_model text
        :: failure_log "OpenAI SDK embedding failed:" (strategy_outcome env w text s)
    | LocalInference =>
        EvOllamaEmbed (or_default (OLLAMA_URL env) "") (EMBEDDING_MODEL env) text
        :: failure_log "Ollama embedding failed:" (strategy_outcome env w text s)
    end%list
  else [].

End EmbeddingTrace.

(** ** Shapes of strings, for the properties of [stripHtml] *)

Module HtmlShape.
Import Html.

(** Some [<] of the string has a [>] behind it: [/<[^>]*>/] matches. *)
Fixpoint has_tag (s : string) : bool :=
  match s with
  | EmptyString => false
  | String c rest => (Ascii.eqb c "<"%char && contains_gt rest) || has_tag rest
  end.

Fixpoint contains_char (x : ascii) (s : string) : bool :=
  match s with
  | EmptyString => false
  | String c rest => Ascii.eqb c x || contains_char x rest
  end.

Definition starts_with_space (s : string) : bool :=
  match s with
  | EmptyString => false
  | String c _ => is_white_space c
  end.

Fixpoint ends_with_space (s : string) : bool :=
  match s with
  | EmptyString => false
  | String c EmptyString => is_white_space c
  | String _ rest => ends_with_space rest
  end.

(** Text that none of the passes of [stripHtml] has anything to do with. *)
Definition plain (s : string) : bool :=
  negb (contains_char "<"%char s) && negb (contains_char "&"%char s)
  && negb (starts_with_space s) && negb (ends_with_space s).

End HtmlShape.

(** ** Several requests of one conversation *)

Module ConversationRuns.
Import Eff ModelRouter Html Conversation.
Local Open Scope eff_scope.

(** A request, what the collaborators answer to it, and the message its
    stream ends with. *)
Record Exchange : Type := {
  ex_oracle : Oracle;
  ex_body : ChatRequest;
  ex_response : UIMessage
}.

(** One completed turn after the other on the same server; the run stops at
    the first request that throws. *)
Fixpoint exchanges (env : Env) (xs : list Exchange) : M ServerState unit :=
  match xs with
  | [] => ret tt
  | x :: rest =>
      completed_turn env (ex_oracle x) (ex_body x) (ex_response x) ;;;
      exchanges env rest
  end.

(** The callback called a second time, on the array it has left. *)
Definition onFinish_again (body : ChatRequest) (messages : list UIMessage)
  : M ServerState (list UIMessage) :=
  left <- onFinish body messages ;;
  onFinish body left.

(** The same request sent again after it has been handled. *)
Definition resend (env env' : Env) (o o' : Oracle) (body : ChatRequest)
    (st : ServerState) : ServerState :=
  snd (action env' o' body (snd (action env o body st))).

(** The rows and the jobs of one conversation. *)
Definition rows_of (id : string) (st : ServerState) : list HistoryRow :=
  List.filter (same_conversation id) (history st).

Definition jobs_of (id : string) (st : ServerState) : list TitleJob :=
  List.filter (fun j => String.eqb (job_conversationId j) id) (titleQueue st).

(** Who said what, in order. *)
Definition said (rows : list HistoryRow) : list (UserTypeEnum * string) :=
  map (fun r => (userType r, message r)) rows.

Definition transcript (xs : list Exchange) : list (UserTypeEnum * string) :=
  flat_map (fun x => [(User, first_text (ex_body x));
                      (Agent, text_of_parts (parts (ex_response x)))]) xs.

(** An exchange of conversation [id] that goes through: the listing is
    reached and the queue answers. *)
Definition goes_through (id : string) (x : Exchange) : bool :=
  String.eqb (body_id (ex_body x)) id
  && reaches_tools (ex_oracle x) (ex_body x)
  && negb (is_thrown (enqueue_title (ex_oracle x))).

End ConversationRuns.

Module ConversationScenario.
Import Conversation ConversationRuns Scenario.

Definition two_exchanges : list Exchange :=
  [{| ex_oracle := oracle_ok; ex_body := first_request; ex_response := response_message |};
   {| ex_oracle := oracle_tools_down; ex_body := first_request;
      ex_response := tools_only_message |}].

(** The token service answers without a token. *)
Definition oracle_no_token : Oracle :=
  {| delete_pat := Returned tt; create_pat := Returned None;
     create_mcp_client := Returned tt; mcp_tools := Returned ∅;
     enqueue_title := Returned tt; generateId := "gen-1" |}.

End ConversationScenario.

(** ** The title of a conversation: [processConversationTitleCreation]

  The job the route enqueues on the first message of a conversation. Its
  [stripHtml] is the one of the route, character for character. The prompt
  decides what [generateText] answers and nothing else; [JSON.parse] is a
  function of its argument, given by the oracle. *)

Module TitleCreation.
Import Eff ModelRouter Html.
Local Open Scope eff_scope.

(** What [JSON.parse] returns. The fields of an object are its own
    properties, each key once. *)
#[warnings="-register-all"] Inductive JSON : Type :=
| JNull
| JBool (b : bool)
| JNumber (q : Q)
| JString (s : string)
| JArray (items : list JSON)
| JObject (fields : list (string * JSON)).

Record CreateConversationTitlePayload : Type := {
  payload_conversationId : string;
  payload_message : string
}.

Record CreateConversationTitleResult : Type := {
  success : bool;
  title : option string;
  error : option string
}.

Record TitleOracle : Type := {
  generate_text : Outcome string;
  JSON_parse : string -> Outcome JSON;
  prisma_update : Outcome unit
}.

(** The [title] column of the conversations, and the logger. *)
Record TitleStore : Type := {
  titles : gmap string string;
  title_logs : list Conversation.LogEntry
}.

Definition log (lv : Conversation.LogLevel) (msg : string) (err : option string)
  : M TitleStore unit :=
  modify (fun st =>
    {| titles := titles st;
       title_logs :=
         (title_logs st ++
          [{| Conversation.level := lv; Conversation.log_message := msg;
              Conversation.log_error := err |}])%list |}).

Fixpoint drop (n : nat) (s : string) : string :=
  match n, s with
  | S k, String _ rest => drop k rest
  | _, _ => s
  end.

(** The text before and the text after the first place where [pat] is. *)
Fixpoint split_at (pat s : string) : option (string * string) :=
  if String.prefix pat s then Some (EmptyString, drop (String.length pat) s)
  else
    match s with
    | EmptyString => None
    | String c rest =>
        match split_at pat rest with
        | Some (before, after) => Some (String c before, after)
        | None => None
        end
    end.

(** [text.match(/<output>(.*?)<\/output>/s)], group 1: the match starts at
    the first [<output>] and its group runs to the first [</output>] behind
    it; when that [<output>] has no [</output>] behind it, no later one has. *)
Definition output_match (text : string) : option string :=
  match split_at "<output>" text with
  | Some (_, rest) =>
      match split_at "</output>" rest with
      | Some (inner, _) => Some inner
      | None => None
      end
  | None => None
  end.

Definition newline : string := String "010"%char EmptyString.

(** [text.split('\n')[0]]. *)
Definition first_line (text : string) : string :=
  match split_at newline text with
  | Some (line, _) => line
  | None => text
  end.

Definition to_lower (c : ascii) : ascii :=
  let n := nat_of_ascii c in
  if Nat.leb 65 n && Nat.leb n 90 then ascii_of_nat (n + 32) else c.

Fixpoint lower (s : string) : string :=
  match s with
  | EmptyString => EmptyString
  | String c rest => String (to_lower c) (lower rest)
  end.

(** [.replace(/^(title:|Title:)\s*/i, '')]. *)
Definition strip_title_prefix (s : string) : string :=
  if String.eqb (lower (String.substring 0 6 s)) "title:" then trim_start (drop 6 s) else s.

Definition is_quote (c : ascii) : bool :=
  Ascii.eqb c "034"%char || Ascii.eqb c "'"%char.

Fixpoint strip_quote_end (s : string) : string :=
  match s with
  | EmptyString => EmptyString
  | String c EmptyString => if is_quote c then EmptyString else s
  | String c rest => String c (strip_quote_end rest)
  end.

(** [.replace(/^["']|["']$/g, '')]. *)
Definition strip_quotes (s : string) : string :=
  strip_quote_end
    match s with
    | String c rest => if is_quote c then rest else s
    | EmptyString => EmptyString
    end.

(** [!!title]. *)
Definition truthy_json (v : option JSON) : bool :=
  match v with
  | None | Some JNull => false
  | Some (JBool b) => b
  | Some (JNumber q) => negb (Qeq_bool q 0)
  | Some (JString s) => negb (String.eqb s "")
  | Some (JArray _) | Some (JObject _) => true
  end.

(** [title.length === 0]: the length of a string or of an array, and for an
    object its member [length], if it has one and that is a number. *)
Definition length_is_zero (v : option JSON) : bool :=
  match v with
  | Some (JString s) => Nat.eqb (String.length s) 0
  | Some (JArray items) => Nat.eqb (length items) 0
  | Some (JObject fields) =>
      match snd <$> List.find (fun kv => String.eqb (fst kv) "length") fields with
      | Some (JNumber q) => Qeq_bool q 0
      | _ => false
      end
  | _ => false
  end.

(** [JSON.parse(s).title], with the error as a template literal prints
    it. *)
Definition parse_title (o : TitleOracle) (s : string) : Outcome (option JSON) :=
  match JSON_parse o s with
  | Thrown msg => Thrown ("SyntaxError: " +:+ msg)
  | Returned JNull => Thrown "TypeError: Cannot read properties of null (reading 'title')"
  | Returned (JObject fields) =>
      Returned (snd <$> List.find (fun kv => String.eqb (fst kv) "title") fields)
  | Returned _ => Returned None
  end.

(** The three ways the title is looked for, from [let title] to the last
    fallback. *)
Definition extract_title (o : TitleOracle) (text : string) : M TitleStore (option JSON) :=
  title <- match output_match text with
           | Some inner =>
               let jsonStr := trim inner in
               try_catch (await (parse_title o jsonStr))
                 (fun parseError =>
                    log Conversation.LogWarn
                        ("Failed to parse JSON from <output> tags: " +:+ parseError) None ;;;
                    ret None)
           | None => ret None
           end ;;
  title <- (if negb (truthy_json title) then
              try_catch (await (parse_title o text))
                (fun parseError =>
                   log Conversation.LogWarn
                       ("Failed to parse response as JSON: " +:+ parseError) None ;;;
                   ret title)
            else ret title) ;;
  if negb (truthy_json title) then
    let firstLine := trim (first_line text) in
    let cleaned := trim (strip_quotes (strip_title_prefix (stripHtml firstLine))) in
    if Nat.ltb 0 (String.length cleaned) && Nat.leb (String.length cleaned) 100
    then ret (Some (JString cleaned))
    else ret title
  else ret title.

(** [stripHtml(title)]: [html.replace] is there for a string only. *)
Definition stripHtml_of (v : option JSON) : M TitleStore string :=
  match v with
  | Some (JString s) => ret (stripHtml s)
  | _ => throw "html.replace is not a function"
  end.

Definition set_title (id t : string) : M TitleStore unit :=
  modify (fun st => {| titles := <[id := t]> (titles st); title_logs := title_logs st |}).

Definition processConversationTitleCreation (env : Env) (o : TitleOracle)
    (payload : CreateConversationTitlePayload)
  : M TitleStore CreateConversationTitleResult :=
  try_catch
    (model <- await (getModel env None) ;;
     text <- await (generate_text o) ;;
     title <- extract_title o text ;;
     if negb (truthy_json title) || length_is_zero title then
       log Conversation.LogError
           ("No valid title could be extracted from response: " +:+ text) None ;;;
       ret {| success := false; title := None;
              error := Some "Could not extract title from AI response" |}
     else
       stripped <- stripHtml_of title ;;
       let finalTitle := String.substring 0 100 stripped in
       await (prisma_update o) ;;;
       set_title (payload_conversationId payload) finalTitle ;;;
       ret {| success := true; title := Some finalTitle; error := None |})
    (fun error =>
       log Conversation.LogError
           ("Error creating conversation title for " +:+ payload_conversationId payload +:+ ":")
           (Some error) ;;;
       ret {| success := false; title := None; error := Some error |}).

(** *** Names for the properties *)

(** The title the first line of a plain answer gives. *)
Definition cleaned_line (text : string) : string :=
  trim (strip_quotes (strip_title_prefix (stripHtml (trim (first_line text))))).

Definition title_of (fields : list (string * JSON)) : option JSON :=
  snd <$> List.find (fun kv => String.eqb (fst kv) "title") fields.

Definition is_error_entry (e : Conversation.LogEntry) : bool :=
  match Conversation.level e with Conversation.LogError => true | _ => false end.

End TitleCreation.

Module TitleScenario.
Import TitleCreation.

Definition answer_with_output : string :=
  "Here you go: <output> {title: Trip} </output> done".

Definition oracle_output : TitleOracle :=
  {| generate_text := Returned answer_with_output;
     JSON_parse := fun s =>
       if String.eqb s "{title: Trip}"
       then Returned (JObject [("title", JString "<b>Trip</b> to Rome")])
       else Thrown "Unexpected token";
     prisma_update := Returned tt |}.

Definition oracle_plain (text : string) : TitleOracle :=
  {| generate_text := Returned text;
     JSON_parse := fun _ => Thrown "Unexpected token";
     prisma_update := Returned tt |}.

Definition plain_answer : string :=
  "Title: 'Trip to Rome'" +:+ newline +:+ "It is a plan for a week.".

Definition empty_titles : TitleStore := {| titles := ∅; title_logs := [] |}.

Definition job1 : CreateConversationTitlePayload :=
  {| payload_conversationId := "conv-1"; payload_message := "Plan a trip & book it" |}.

End TitleScenario.

(** ** The conversation page: the first message sent on its own *)

Module AutoStart.
Import Conversation Watchdog.





End AutoStart.

Module PageScenario.
Import Conversation Watchdog.


End PageScenario.

(** * Properties *)

(** ** JavaScript values *)

Section JSFacts.

Lemma truthy_Some (s : string) : truthy (Some s) = true <-> s <> "".
Proof.
  unfold truthy. destruct (String.eqb_spec s ""); simpl; split; congruence.
Qed.

Lemma or_default_truthy (a : option string) (b : string) :
  truthy a = true -> Some (or_default a b) = a.
Proof.
  destruct a as [s|]; simpl; [|discriminate].
  destruct (String.eqb s ""); simpl; [discriminate | reflexivity].
Qed.

Lemma or_default_nonempty (a : option string) (b : string) :
  b <> "" -> truthy (Some (or_default a b)) = true.
Proof.
  intros Hb. apply truthy_Some. destruct a as [s|]; simpl; [|exact Hb].
  destruct (String.eqb_spec s ""); [exact Hb | assumption].
Qed.

End JSFacts.

(** ** Model router *)

Section ModelRouterFacts.
Import ModelRouter Scenario.

(** Every value of the downgrade table is a non-empty string, so the [||]
    of [getModelForTask] never discards a table entry. *)
Lemma downgrades_values_truthy (k v : string) :
  downgrades !! k = Some v -> truthy (Some v) = true.
Proof.
  assert (H : map_Forall (fun _ v => truthy (Some v) = true) downgrades).
  { apply map_Forall_to_list. vm_compute. repeat constructor. }
  intros Hk. exact (H k v Hk).
Qed.

(** No inherited member is a key of the table, and none is the empty
    string. *)
Lemma inherited_not_keys (key : string) :
  key ∈ object_prototype_members -> downgrades !! key = None /\ truthy (Some key) = true.
Proof.
  assert (H : Forall (fun k => downgrades !! k = None /\ truthy (Some k) = true)
                     object_prototype_members).
  { vm_compute. repeat constructor. }
  intros Hk. exact (proj1 (Forall_forall _ _) H key Hk).
Qed.

Lemma downgrades_at_own (key cheaper : string) :
  downgrades !! key = Some cheaper -> downgrades_at key = Some (ModelName cheaper).
Proof. unfold downgrades_at. by intros ->. Qed.

Lemma downgrades_at_inherited (key : string) :
  key ∈ object_prototype_members -> downgrades_at key = Some (InheritedMember key).
Proof.
  intros Hk. unfold downgrades_at. destruct (inherited_not_keys key Hk) as [-> _].
  by rewrite bool_decide_eq_true_2.
Qed.

Lemma downgrades_at_absent (key : string) :
  downgrades !! key = None -> key ∉ object_prototype_members -> downgrades_at key = None.
Proof.
  intros Hk Hn. unfold downgrades_at. rewrite Hk. by rewrite bool_decide_eq_false_2.
Qed.

(** C4. What the code does where the specification asks for unmapped names to
    be returned unchanged. With complexity [low], a base model that is a key
    of the downgrade table is replaced by the cheaper model the table maps it
    to, and with complexity [high] the base model is returned as it is. A
    base model that is not a key is returned unchanged only when it is not
    the name of a member the table inherits from [Object.prototype]: for
    such a name, [constructor] for one, the lookup finds the inherited
    function, which is truthy, and [getModelForTask] returns that function
    instead of the name. *)
Theorem getModelForTask_returns_inherited_member :
  (forall env cheaper,
     downgrades !! or_default (MODEL env) default_model = Some cheaper ->
     getModelForTask env low = ModelName cheaper)
  /\ (forall env,
        downgrades !! or_default (MODEL env) default_model = None ->
        or_default (MODEL env) default_model ∉ object_prototype_members ->
        getModelForTask env low = ModelName (or_default (MODEL env) default_model))
  /\ (forall env,
        getModelForTask env high = ModelName (or_default (MODEL env) default_model))
  /\ (forall env key,
        MODEL env = Some key -> key ∈ object_prototype_members ->
        downgrades !! key = None
        /\ getModelForTask env low = InheritedMember key
        /\ getModelForTask env low <> ModelName key)
  /\ getModelForTask (env_with_model (Some "constructor")) low
     = InheritedMember "constructor".
Proof.
  split; [|split; [|split; [|split]]].
  - intros env cheaper Hk. unfold getModelForTask.
    rewrite (downgrades_at_own _ _ Hk). cbn [truthy_value].
    by rewrite (downgrades_values_truthy _ _ Hk).
  - intros env Hk Hn. unfold getModelForTask.
    by rewrite (downgrades_at_absent _ Hk Hn).
  - reflexivity.
  - intros env key Hm Hk. destruct (inherited_not_keys key Hk) as [Hnone Hne].
    assert (Hlow : getModelForTask env low = InheritedMember key).
    { unfold getModelForTask. rewrite Hm.
      assert (or_default (Some key) default_model = key) as ->.
      { unfold truthy in Hne. cbn. by destruct (String.eqb key ""). }
      by rewrite (downgrades_at_inherited key Hk). }
    split; [exact Hnone|]. split; [exact Hlow|]. rewrite Hlow. discriminate.
  - reflexivity.
Qed.

Lemma resolved_model_truthy (env : Env) (takeModel : option string) :
  truthy (Some (resolved_model env takeModel)) = true.
Proof. apply or_default_nonempty. discriminate. Qed.

(** The Ollama branch of [getModel] is never taken: the local [ollamaUrl] is
    overwritten with [undefined] before it is tested. *)
Lemma getModel_frame_not_ollama (env : Env) (takeModel : option string) (f : Frame) :
  getModel_frame env takeModel = Returned f ->
  ollamaUrl f = None /\ through_return f = true
  /\ exists m, modelInstance f = Some m /\ is_ollama m = false.
Proof.
  unfold getModel_frame. cbn [truthy].
  repeat match goal with
         | |- context [if ?b then _ else _] => destruct b
         end;
    intros [= <-]; cbn; eauto.
Qed.

(** C2. What the code does where the specification asks for the local-inference
    provider: with an Ollama URL configured, [getModel] asks for an OpenAI
    key and throws when there is none, binds the OpenAI provider when there
    is one, and for no configuration and no model name does it return an
    Ollama instance. *)
Theorem getModel_ignores_ollama_url :
  getModel env_ollama None = Thrown "No OpenAI API key found. Set OPENAI_API_KEY"
  /\ getModel env_ollama_openai None = Returned (Some (OpenAI "llama3"))
  /\ forall env takeModel, bound_to_ollama (getModel env takeModel) = false.
Proof.
  split; [reflexivity | split; [reflexivity |]].
  intros env takeModel. unfold getModel.
  destruct (getModel_frame env takeModel) as [f|msg] eqn:Hf; [|reflexivity].
  destruct (getModel_frame_not_ollama _ _ _ Hf) as (_ & -> & m & -> & Hm).
  exact Hm.
Qed.

(** For a name with the Anthropic marker, [getModel] throws exactly when the
    Anthropic key is missing or empty, and otherwise returns the Anthropic
    instance for that name. *)
Lemma getModel_anthropic (env : Env) (takeModel : option string) :
  includes "claude" (resolved_model env takeModel) = true ->
  getModel env takeModel =
    if truthy (ANTHROPIC_API_KEY env)
    then Returned (Some (Anthropic (resolved_model env takeModel)))
    else Thrown "No Anthropic API key found. Set ANTHROPIC_API_KEY".
Proof.
  intros Hc. unfold getModel, getModel_frame. fold (resolved_model env takeModel).
  rewrite resolved_model_truthy, Hc. cbn [truthy andb].
  destruct (truthy (ANTHROPIC_API_KEY env)); reflexivity.
Qed.

(** C3. What the code does where the specification asks for a binding that carries
    the lowered temperature: for an Anthropic name and a configured key the
    local [modelTemperature] is set to one half when control leaves
    [getModel], and the value that is returned is the provider instance
    alone, the same whatever [MODEL_TEMPERATURE] is. *)
Theorem getModel_drops_temperature :
  getModel_frame env_anthropic (Some "claude-sonnet-4-5")
    = Returned {| model := "claude-sonnet-4-5"; ollamaUrl := None;
                  modelInstance := Some (Anthropic "claude-sonnet-4-5");
                  modelTemperature := (1 # 2)%Q; through_return := true |}
  /\ getModel env_anthropic (Some "claude-sonnet-4-5")
     = Returned (Some (Anthropic "claude-sonnet-4-5"))
  /\ forall env takeModel t,
       getModel
         {| MODEL := MODEL env; MODEL_TEMPERATURE := t;
            ANTHROPIC_API_KEY := ANTHROPIC_API_KEY env;
            GOOGLE_GENERATIVE_AI_API_KEY := GOOGLE_GENERATIVE_AI_API_KEY env;
            OPENAI_API_KEY := OPENAI_API_KEY env;
            OPENAI_BASE_URL := OPENAI_BASE_URL env;
            OLLAMA_URL := OLLAMA_URL env;
            OPENAI_EMBEDDINGS_BASE_URL := OPENAI_EMBEDDINGS_BASE_URL env;
            EMBEDDING_MODEL := EMBEDDING_MODEL env |} takeModel
       = getModel env takeModel.
Proof.
  split; [reflexivity | split; [reflexivity |]].
  intros env takeModel t. unfold getModel, getModel_frame. cbn.
  repeat (match goal with
          | |- context [if ?b then _ else _] => destruct b
          end; cbn); reflexivity.
Qed.

End ModelRouterFacts.

(** ** Embedding retriever *)

Section EmbeddingRetrieverFacts.
Import Eff EmbeddingRetriever Scenario.

Lemma retry_loop_frame (w : World) (b : string) (req : Request) (mx : nat) :
  forall remaining attempt tr0,
    retry_loop w b req mx remaining attempt tr0
    = (fst (retry_loop w b req mx remaining attempt []),
       (tr0 ++ snd (retry_loop w b req mx remaining attempt []))%list).
Proof.
  induction remaining as [|k IH]; intros attempt tr0.
  - cbn. by rewrite app_nil_r.
  - cbn [retry_loop]. unfold bind, emit, modify, ret, throw. cbn.
    destruct (read_response (fetch w attempt)) as [e|err]; cbn; [done|].
    destruct (Nat.eqb attempt mx); cbn.
    + by rewrite <- !app_assoc.
    + rewrite IH. rewrite (IH _ [_; _; _]). cbn. by rewrite <- !app_assoc.
Qed.

Lemma retry_loop_unfold (w : World) (b : string) (req : Request) (mx k a : nat) :
  retry_loop w b req mx (S k) a [] =
    match read_response (fetch w a) with
    | Returned e => (Returned e, [EvFetch a req])
    | Thrown err =>
        if Nat.eqb a mx then (Thrown err, [EvFetch a req; attempt_log b a err])
        else (fst (retry_loop w b req mx k (S a) []),
              [EvFetch a req; attempt_log b a err; EvSleep (backoff_ms a)]
                ++ snd (retry_loop w b req mx k (S a) []))%list
    end.
Proof.
  cbn [retry_loop]. unfold bind, emit, modify, ret, throw. cbn.
  destruct (read_response (fetch w a)) as [e|err]; cbn; [done|].
  destruct (Nat.eqb a mx); cbn; [done|].
  by rewrite retry_loop_frame.
Qed.

Lemma retry_loop_schedule (w : World) (b : string) (req : Request) (mx : nat) :
  forall remaining attempt,
    attempt + remaining = S mx ->
    let r := retry_loop w b req mx remaining attempt [] in
    let k := attempts_made (snd r) in
    steps (snd r) = schedule attempt k
    /\ k <= remaining
    /\ (1 <= remaining -> 1 <= k)
    /\ (forall n, attempt <= n < attempt + k - 1 ->
                  is_thrown (read_response (fetch w n)) = true)
    /\ (1 <= k -> fst r = read_response (fetch w (attempt + k - 1)))
    /\ (is_thrown (fst r) = true -> k = remaining).
Proof.
  induction remaining as [|rem IH]; intros attempt Hinv.
  - cbn. repeat split; intros; first [lia | done].
  - cbv zeta. rewrite retry_loop_unfold.
    destruct (read_response (fetch w attempt)) as [e|err] eqn:Hr.
    + cbn. repeat split; intros; try first [lia | done].
      replace (attempt + 1 - 1) with attempt by lia. by rewrite Hr.
    + destruct (Nat.eqb_spec attempt mx) as [->|Hne].
      * cbn. assert (rem = 0) by lia. subst rem.
        repeat split; intros; try first [lia | done].
        replace (mx + 1 - 1) with mx by lia. by rewrite Hr.
      * specialize (IH (S attempt) ltac:(lia)). cbv zeta in IH.
        destruct IH as (Hs & Hle & Hge & Hfail & Hlast & Hthrown).
        set (r := retry_loop w b req mx rem (S attempt) []) in *.
        assert (Hk : attempts_made
                       ([EvFetch attempt req; attempt_log b attempt err;
                         EvSleep (backoff_ms attempt)] ++ snd r)
                     = S (attempts_made (snd r))) by reflexivity.
        cbn [fst snd]. rewrite Hk.
        specialize (Hge ltac:(lia)).
        change (steps ([EvFetch attempt req; attempt_log b attempt err;
                         EvSleep (backoff_ms attempt)] ++ snd r))
             with (Try attempt :: Wait (backoff_ms attempt) :: steps (snd r)).
        destruct (attempts_made (snd r)) as [|k'] eqn:Ek; [lia|].
        split; [rewrite Hs; reflexivity|].
        split; [lia|]. split; [lia|]. split; [|split].
        -- intros n Hn. destruct (decide (n = attempt)) as [->|Hn'].
           ++ by rewrite Hr.
           ++ apply Hfail. lia.
        -- intros _. rewrite Hlast by lia. f_equal. f_equal. lia.
        -- intros Ht. specialize (Hthrown Ht). lia.
Qed.

Lemma schedule_lookup (count : nat) :
  forall first i,
    i < count ->
    schedule first count !! (2 * i) = Some (Try (first + i))
    /\ (S i < count ->
        schedule first count !! (2 * i + 1) = Some (Wait (backoff_ms (first + i)))).
Proof.
  induction count as [|k IH]; intros first i Hi; [lia|].
  destruct i as [|i].
  - cbn. rewrite Nat.add_0_r. split; [done|]. intros Hk.
    destruct k; [lia|]. done.
  - destruct k as [|k]; [lia|].
    destruct (IH (S first) i ltac:(lia)) as [Ht Hw].
    replace (2 * S i) with (S (S (2 * i))) by lia.
    replace (first + S i) with (S first + i) by lia.
    cbn [schedule lookup list_lookup]. split; [exact Ht|].
    intros Hk. apply Hw. lia.
Qed.

(** C6. A call to the custom endpoint makes at most [maxRetries] attempts
    (three when the option is left out), numbered from one; it goes on to
    attempt [n + 1] only after attempt [n] has failed, and between the two
    it sleeps for [2 ^ n] seconds, that is [2 ^ n * 1000] milliseconds; it
    fails only after [maxRetries] attempts, and otherwise returns what the
    last attempt read. *)
Theorem requestEmbeddingWithRetries_backoff (w : World) (o : EmbeddingRequestOptions) :
  let r := requestEmbeddingWithRetries w o [] in
  let k := attempts_made (snd r) in
  k <= default 3 (maxRetries o)
  /\ steps (snd r) = schedule 1 k
  /\ (is_thrown (fst r) = true -> k = default 3 (maxRetries o))
  /\ (1 <= k -> fst r = read_response (fetch w k))
  /\ forall n, 1 <= n < k ->
       is_thrown (read_response (fetch w n)) = true
       /\ steps (snd r) !! (2 * (n - 1)) = Some (Try n)
       /\ steps (snd r) !! (2 * (n - 1) + 1) = Some (Wait (2 ^ N.of_nat n * 1000)%N)
       /\ steps (snd r) !! (2 * n) = Some (Try (S n)).
Proof.
  cbv zeta. unfold requestEmbeddingWithRetries.
  set (mx := default 3 (maxRetries o)) in *.
  pose proof (retry_loop_schedule w (baseUrl o) (build_request o) mx mx 1 ltac:(lia))
    as H.
  cbv zeta in H. destruct H as (Hs & Hle & _ & Hfail & Hlast & Hthrown).
  set (r := retry_loop w (baseUrl o) (build_request o) mx mx 1 []) in *.
  set (k := attempts_made (snd r)) in *.
  split; [exact Hle|]. split; [exact Hs|]. split; [exact Hthrown|]. split.
  - intros Hk. rewrite Hlast by lia. f_equal. f_equal. lia.
  - intros n Hn. split; [apply Hfail; lia|].
    rewrite Hs.
    destruct (schedule_lookup k 1 (n - 1) ltac:(lia)) as [Ht Hw].
    destruct (schedule_lookup k 1 n ltac:(lia)) as [Ht' _].
    replace (1 + (n - 1)) with n in * by lia.
    split; [exact Ht|]. split; [apply Hw; lia|]. exact Ht'.
Qed.

Lemma requestEmbeddingWithRetries_backoff_witness :
  let r := requestEmbeddingWithRetries world_failing_twice (options_with_retries None) [] in
  steps (snd r) = [Try 1; Wait 2000; Try 2; Wait 4000; Try 3]
  /\ steps (snd r) !! 3 = Some (Wait 4000%N)
  /\ fst r = Returned [1%Q].
Proof.
  cbv zeta.
  destruct (requestEmbeddingWithRetries_backoff world_failing_twice
              (options_with_retries None)) as (_ & Hs & _ & Hlast & Hn).
  split; [rewrite Hs; reflexivity|]. split.
  - apply (Hn 2). vm_compute. split; lia.
  - rewrite Hlast; [reflexivity | vm_compute; lia].
Defined.

(** The first attempt is always made when at least one is allowed. *)
Lemma requestEmbeddingWithRetries_attempts (w : World) (o : EmbeddingRequestOptions) :
  1 <= default 3 (maxRetries o) ->
  1 <= attempts_made (snd (requestEmbeddingWithRetries w o [])).
Proof.
  unfold requestEmbeddingWithRetries.
  set (mx := default 3 (maxRetries o)).
  pose proof (retry_loop_schedule w (baseUrl o) (build_request o) mx mx 1 ltac:(lia))
    as H.
  cbv zeta in H. destruct H as (_ & _ & Hge & _). exact Hge.
Qed.

Lemma first_success_thrown (outcome : Strategy -> Outcome Embedding) (ss : list Strategy) :
  (is_thrown (snd (first_success outcome ss)) = true
   <-> Forall (fun s => is_thrown (outcome s) = true) ss)
  /\ (is_thrown (snd (first_success outcome ss)) = true ->
      snd (first_success outcome ss) = Thrown all_failed).
Proof.
  induction ss as [|s rest [IH1 IH2]]; cbn.
  - split; [split; [constructor | reflexivity] | reflexivity].
  - destruct (outcome s) as [v|e] eqn:Hs; cbn.
    + split; [split; [discriminate|] | discriminate].
      intros H. apply Forall_cons in H as [H _]. rewrite Hs in H. discriminate.
    + destruct (first_success outcome rest) as [t r]; cbn in *.
      split; [|exact IH2]. rewrite IH1. split.
      * intros H. constructor; [by rewrite Hs | exact H].
      * intros H. by apply Forall_cons in H as [_ H].
Qed.

Lemma squash_replicate (a : Strategy) (k : nat) (l : list Strategy) :
  squash (replicate (S k) a ++ l) = squash (a :: l).
Proof.
  induction k as [|k IH]; [reflexivity|].
  change (replicate (S (S k)) a ++ l)%list with (a :: (replicate (S k) a ++ l))%list.
  change (squash (a :: replicate (S k) a ++ l))
    with (if Strategy_eqb a a then squash (replicate (S k) a ++ l)
          else a :: squash (replicate (S k) a ++ l)).
  destruct a; cbn [Strategy_eqb]; exact IH.
Qed.

Lemma retry_loop_strategy (w : World) (b : string) (req : Request) (mx : nat) :
  forall remaining attempt,
    flat_map strategy_of (snd (retry_loop w b req mx remaining attempt []))
    = replicate (attempts_made (snd (retry_loop w b req mx remaining attempt [])))
                CustomEndpoint.
Proof.
  induction remaining as [|rem IH]; intros attempt; [reflexivity|].
  rewrite retry_loop_unfold.
  destruct (read_response (fetch w attempt)) as [e|err]; [reflexivity|].
  destruct (Nat.eqb attempt mx); [reflexivity|].
  cbn [snd]. specialize (IH (S attempt)).
  set (r := retry_loop w b req mx rem (S attempt) []) in *.
  change (flat_map strategy_of
            ([EvFetch attempt req; attempt_log b attempt err;
              EvSleep (backoff_ms attempt)] ++ snd r))
    with (CustomEndpoint :: flat_map strategy_of (snd r)).
  change (attempts_made
            ([EvFetch attempt req; attempt_log b attempt err;
              EvSleep (backoff_ms attempt)] ++ snd r))
    with (S (attempts_made (snd r))).
  rewrite IH. reflexivity.
Qed.

(** The custom strategy always reaches the endpoint at least once. *)
Lemma custom_calls (w : World) (o : EmbeddingRequestOptions) :
  maxRetries o = None ->
  exists k, flat_map strategy_of (snd (requestEmbeddingWithRetries w o []))
            = replicate (S k) CustomEndpoint.
Proof.
  intros Hmx.
  pose proof (requestEmbeddingWithRetries_attempts w o) as Hge.
  unfold requestEmbeddingWithRetries in *. rewrite Hmx in *. cbn [default] in *.
  rewrite retry_loop_strategy.
  destruct (attempts_made _) as [|k]; [specialize (Hge ltac:(lia)); lia|].
  by exists k.
Qed.

Lemma custom_strategy_run (env : Env) (w : World) (text : string) :
  custom_strategy env w text [] =
    if truthy (OPENAI_EMBEDDINGS_BASE_URL env) then
      let r := requestEmbeddingWithRetries w (custom_options env text) [] in
      match fst r with
      | Returned e => (Returned (Some e), snd r)
      | Thrown err =>
          (Returned None,
           (snd r ++ [EvConsoleError "Custom embedding endpoint failed after retries:"
                                     err])%list)
      end
    else (Returned None, []).
Proof.
  unfold custom_strategy. fold (custom_options env text).
  destruct (truthy (OPENAI_EMBEDDINGS_BASE_URL env)); [|reflexivity].
  unfold try_catch, bind, ret, emit, modify. cbv zeta.
  destruct (requestEmbeddingWithRetries w (custom_options env text) [])
    as [[e|err] tr]; reflexivity.
Qed.

Lemma sdk_strategy_run (env : Env) (w : World) (text : string) (tr : list Event) :
  sdk_strategy env w text tr =
    if configured env ManagedSdk then
      match sdk_embed w with
      | Returned e => (Returned (Some e), (tr ++ [EvSdkEmbed sdk_model text])%list)
      | Thrown err =>
          (Returned None,
           (tr ++ [EvSdkEmbed sdk_model text;
                   EvConsoleError "OpenAI SDK embedding failed:" err])%list)
      end
    else (Returned None, tr).
Proof.
  unfold sdk_strategy, configured, try_catch, bind, ret, emit, modify, await.
  destruct (bool_decide (EMBEDDING_MODEL env = Some sdk_model)); [|reflexivity].
  destruct (sdk_embed w); cbn; [reflexivity|]. by rewrite <- app_assoc.
Qed.

Lemma ollama_strategy_run (env : Env) (w : World) (text : string) (tr : list Event) :
  ollama_strategy env w text tr =
    if configured env LocalInference then
      let call := EvOllamaEmbed (or_default (OLLAMA_URL env) "") (EMBEDDING_MODEL env) text in
      match ollama_embed w with
      | Returned e => (Returned (Some e), (tr ++ [call])%list)
      | Thrown err =>
          (Returned None,
           (tr ++ [call; EvConsoleError "Ollama embedding failed:" err])%list)
      end
    else (Returned None, tr).
Proof.
  unfold ollama_strategy, configured, try_catch, bind, ret, emit, modify, await.
  destruct (truthy (OLLAMA_URL env)); [|reflexivity].
  destruct (ollama_embed w); cbn; [reflexivity|]. by rewrite <- app_assoc.
Qed.

Lemma getEmbedding_refines (env : Env) (w : World) (text : string) :
  (tried (snd (getEmbedding env w text [])), fst (getEmbedding env w text []))
  = first_success (strategy_outcome env w text)
      (List.filter (configured env) [CustomEndpoint; ManagedSdk; LocalInference]).
Proof.
  unfold getEmbedding, bind. rewrite custom_strategy_run.
  cbn [List.filter first_success]. change (configured env CustomEndpoint)
    with (truthy (OPENAI_EMBEDDINGS_BASE_URL env)).
  destruct (truthy (OPENAI_EMBEDDINGS_BASE_URL env)) eqn:Hc.
  - cbv zeta. cbn [first_success strategy_outcome].
    destruct (custom_calls w (custom_options env text) eq_refl) as [k Hk].
    set (r := requestEmbeddingWithRetries w (custom_options env text) []) in *.
    destruct (fst r) as [e|err].
    + unfold ret, tried. cbn [fst snd]. rewrite Hk.
      pose proof (squash_replicate CustomEndpoint k []) as Hsq.
      rewrite app_nil_r in Hsq. rewrite Hsq. reflexivity.
    + rewrite sdk_strategy_run.
      destruct (configured env ManagedSdk); cbn [List.filter first_success strategy_outcome].
      * destruct (sdk_embed w) as [e2|err2].
        -- unfold ret, tried. cbn [fst snd].
           rewrite !flat_map_app, Hk, <- !app_assoc, squash_replicate. reflexivity.
        -- rewrite ollama_strategy_run.
           destruct (configured env LocalInference);
             cbn [List.filter first_success strategy_outcome]; cbv zeta.
           ++ destruct (ollama_embed w) as [e3|err3]; unfold ret, throw, tried;
                cbn [fst snd]; rewrite !flat_map_app, Hk, <- !app_assoc, squash_replicate;
                reflexivity.
           ++ unfold throw, tried. cbn [fst snd].
              rewrite !flat_map_app, Hk, <- ?app_assoc, squash_replicate. reflexivity.
      * rewrite ollama_strategy_run.
        destruct (configured env LocalInference);
          cbn [List.filter first_success strategy_outcome]; cbv zeta.
        -- destruct (ollama_embed w) as [e3|err3]; unfold ret, throw, tried;
             cbn [fst snd]; rewrite !flat_map_app, Hk, <- !app_assoc, squash_replicate;
                reflexivity.
        -- unfold throw, tried. cbn [fst snd].
           rewrite !flat_map_app, Hk, <- ?app_assoc, squash_replicate. reflexivity.
  - rewrite sdk_strategy_run.
    destruct (configured env ManagedSdk); cbn [List.filter first_success strategy_outcome].
    + destruct (sdk_embed w) as [e2|err2]; [reflexivity|].
      rewrite ollama_strategy_run.
      destruct (configured env LocalInference);
        cbn [List.filter first_success strategy_outcome]; cbv zeta; [|reflexivity].
      destruct (ollama_embed w) as [e3|err3]; reflexivity.
    + rewrite ollama_strategy_run.
      destruct (configured env LocalInference);
        cbn [List.filter first_success strategy_outcome]; cbv zeta; [|reflexivity].
      destruct (ollama_embed w) as [e3|err3]; reflexivity.
Qed.

Lemma first_success_prefix (outcome : Strategy -> Outcome Embedding) (ss : list Strategy) :
  fst (first_success outcome ss) `prefix_of` ss.
Proof.
  induction ss as [|s rest IH]; cbn; [done|].
  destruct (outcome s).
  - cbn. apply prefix_cons, prefix_nil.
  - destruct (first_success outcome rest) as [t r]. cbn in *. by apply prefix_cons.
Qed.

(** C5. The strategies [getEmbedding] tries are, in this order, the custom
    endpoint (when an embeddings base URL is configured), the managed SDK
    (when the embedding model is the one well-known name) and local
    inference (when an Ollama URL is configured); it stops at the first one
    that succeeds and returns its vector, so the strategies tried are a
    prefix of the configured ones; and it throws, with the message that all
    methods failed, exactly when every configured strategy fails. *)
Theorem getEmbedding_strategies (env : Env) (w : World) (text : string) :
  let r := getEmbedding env w text [] in
  let candidates :=
    List.filter (configured env) [CustomEndpoint; ManagedSdk; LocalInference] in
  (tried (snd r), fst r) = first_success (strategy_outcome env w text) candidates
  /\ tried (snd r) `prefix_of` candidates
  /\ (is_thrown (fst r) = true
      <-> Forall (fun s => is_thrown (strategy_outcome env w text s) = true) candidates)
  /\ (is_thrown (fst r) = true -> fst r = Thrown all_failed).
Proof.
  cbv zeta. pose proof (getEmbedding_refines env w text) as Href.
  set (candidates := List.filter (configured env) _) in *.
  pose proof (first_success_prefix (strategy_outcome env w text) candidates) as Hp.
  destruct (first_success_thrown (strategy_outcome env w text) candidates) as [Hiff Hall].
  rewrite <- Href in Hp, Hiff, Hall. cbn [fst snd] in *. auto.
Qed.

Lemma getEmbedding_strategies_witness :
  getEmbedding env_all_strategies world_third_succeeds "hello" []
    = (Returned [(1 # 4)%Q; (3 # 4)%Q],
       snd (getEmbedding env_all_strategies world_third_succeeds "hello" []))
  /\ tried (snd (getEmbedding env_all_strategies world_third_succeeds "hello" []))
     = [CustomEndpoint; ManagedSdk; LocalInference]
  /\ fst (getEmbedding env_all_strategies world_all_fail "hello" []) = Thrown all_failed.
Proof.
  split; [reflexivity|]. split; [reflexivity|].
  destruct (getEmbedding_strategies env_all_strategies world_all_fail "hello")
    as (_ & _ & Hiff & Hall).
  apply Hall, Hiff. vm_compute. repeat constructor.
Defined.

End EmbeddingRetrieverFacts.

(** ** The conversation route *)

Section ConversationFacts.
Import Eff ModelRouter Html Conversation Scenario.

Lemma string_app_nil_r (s : string) : s +:+ "" = s.
Proof.
  induction s as [|c s IH]; [reflexivity|].
  change (String c (s +:+ "") = String c s). by f_equal.
Qed.

Lemma string_app_assoc (a b c : string) : (a +:+ b) +:+ c = a +:+ (b +:+ c).
Proof.
  induction a as [|x a IH]; [reflexivity|].
  change (String x ((a +:+ b) +:+ c) = String x (a +:+ (b +:+ c))). by f_equal.
Qed.

Lemma collect_text_from (ps : list Part) (acc : string) :
  fold_left
    (fun message part =>
       if String.eqb (part_type part) "text" then message +:+ part_text part else message)
    ps acc
  = acc +:+ text_of_parts ps.
Proof.
  revert acc. induction ps as [|p ps IH]; intros acc; cbn.
  - unfold text_of_parts. cbn. by rewrite string_app_nil_r.
  - rewrite IH. unfold text_of_parts. cbn.
    destruct (String.eqb (part_type p) "text"); cbn; [|done].
    by rewrite string_app_assoc.
Qed.

Lemma collect_text_concat (ps : list Part) : collect_text ps = text_of_parts ps.
Proof. unfold collect_text. by rewrite collect_text_from. Qed.

(** What [action] does once the tool listing is reached, step by step. *)
Lemma action_run (env : Env) (o : Oracle) (body : ChatRequest) (st : ServerState) :
  reaches_tools o body = true ->
  action env o body st =
    let logs' := match mcp_tools o with
                 | Returned _ => logs st
                 | Thrown err => (logs st ++ [tools_warning err])%list
                 end in
    let history' := (history st ++ [user_row body st])%list in
    let finish queue' :=
      let st' := {| history := history'; logs := logs'; titleQueue := queue' |} in
      match getModel env None with
      | Returned m => (Returned (stream_of env o body st m), st')
      | Thrown e => (Thrown e, st')
      end in
    if Nat.eqb (length (prior_history body st)) 0 then
      match enqueue_title o with
      | Returned _ => finish (titleQueue st ++ [title_job body])%list
      | Thrown e =>
          (Thrown e, {| history := history'; logs := logs'; titleQueue := titleQueue st |})
      end
    else finish (titleQueue st).
Proof.
  unfold reaches_tools, action, stream_of, listed_tools, user_row, title_job, first_text,
    prior_history.
  destruct (delete_pat o) as [[]|]; [|discriminate].
  destruct (create_pat o) as [tok|]; [|discriminate].
  destruct (truthy tok) eqn:Htok; [|discriminate].
  destruct (body_message_parts body) as [|p ps]; [discriminate|].
  destruct (create_mcp_client o) as [[]|]; [|discriminate].
  intros _. destruct st as [h l q].
  unfold bind, await, try_catch, ret, throw, logger, modify, getConversationAndHistory,
    gets, createConversationHistory, enqueueCreateConversationTitle. cbn.
  rewrite Htok. cbn.
  destruct (mcp_tools o) as [t|err]; cbn;
    (destruct (length (List.filter (same_conversation (body_id body)) h)) eqn:Hlen; cbn;
     [destruct (enqueue_title o) as [[]|e]; cbn|];
     try destruct (getModel env None); reflexivity).
Qed.


Lemma action_returned_reaches (env : Env) (o : Oracle) (body : ChatRequest)
    (st st' : ServerState) (call : StreamCall) :
  action env o body st = (Returned call, st') -> reaches_tools o body = true.
Proof.
  unfold reaches_tools, action.
  unfold bind, await, try_catch, ret, throw, logger, modify.
  destruct (delete_pat o) as [[]|]; [|discriminate].
  destruct (create_pat o) as [tok|]; [|discriminate]. cbn.
  destruct (truthy tok); [|discriminate]. cbn.
  destruct (body_message_parts body) as [|p ps]; [discriminate|]. cbn.
  destruct (create_mcp_client o) as [[]|]; [reflexivity|discriminate].
Qed.

Lemma onFinish_run (body : ChatRequest) (messages : list UIMessage) (st : ServerState) :
  onFinish body messages st =
    (Returned (removelast messages),
     {| history :=
          (history st ++
           [agent_row body (text_of_parts (from_option parts [] (last messages)))
                      (length (history st))])%list;
        logs := logs st;
        titleQueue := titleQueue st |}).
Proof.
  unfold onFinish, bind, ret, createConversationHistory, agent_row. cbn.
  by rewrite collect_text_concat.
Qed.

Lemma turns_snoc (id : string) (st st' : ServerState) (r : HistoryRow) :
  history st' = (history st ++ [r])%list ->
  conversationId r = id ->
  match userType r with
  | Agent =>
      length (agent_turns id st') = S (length (agent_turns id st))
      /\ length (user_turns id st') = length (user_turns id st)
  | User =>
      length (agent_turns id st') = length (agent_turns id st)
      /\ length (user_turns id st') = S (length (user_turns id st))
  end.
Proof.
  intros Hh <-. unfold agent_turns, user_turns, same_conversation. rewrite Hh.
  rewrite !List.filter_app, !length_app. cbn. rewrite String.eqb_refl.
  destruct (userType r); cbn; lia.
Qed.

(** What a returning [action] leaves in the history: the user's row, and
    nothing else. *)
Lemma action_history (env : Env) (o : Oracle) (body : ChatRequest)
    (st st' : ServerState) (call : StreamCall) :
  action env o body st = (Returned call, st') ->
  history st' = (history st ++ [user_row body st])%list
  /\ exists m, call = stream_of env o body st m.
Proof.
  intros Hrun. pose proof (action_returned_reaches _ _ _ _ _ _ Hrun) as Hreach.
  rewrite (action_run _ _ _ _ Hreach) in Hrun. cbv zeta in Hrun.
  destruct (Nat.eqb (length (prior_history body st)) 0);
    [destruct (enqueue_title o); [|discriminate]|];
    destruct (getModel env None) as [m|]; try discriminate;
    injection Hrun as <- <-; cbn; eauto.
Qed.


(** C10. The callback persists one agent row whose text is the in-order
    concatenation of the [text] of exactly those parts of the last message
    whose type is [text]; parts of any other type add nothing; and when the
    last message has no such part (or there is no message at all) the row is
    persisted all the same, with the empty text. *)
Theorem onFinish_persists_text (body : ChatRequest) (messages : list UIMessage)
    (st : ServerState) :
  let r := onFinish body messages st in
  let final_parts := from_option parts [] (last messages) in
  history (snd r)
  = (history st ++ [agent_row body (text_of_parts final_parts) (length (history st))])%list
  /\ fst r = Returned (removelast messages)
  /\ logs (snd r) = logs st
  /\ titleQueue (snd r) = titleQueue st
  /\ (Forall (fun p => part_type p <> "text") final_parts ->
      history (snd r) = (history st ++ [agent_row body "" (length (history st))])%list).
Proof.
  cbv zeta. rewrite onFinish_run. cbn [fst snd history logs titleQueue].
  repeat split. intros Hnone. do 3 f_equal.
  unfold text_of_parts.
  induction Hnone as [|p ps Hp _ IH]; [reflexivity|]. cbn.
  destruct (String.eqb_spec (part_type p) "text"); [contradiction | exact IH].
Qed.

Lemma onFinish_persists_text_witness :
  history (snd (onFinish first_request [response_message] empty_server))
  = [agent_row first_request "Sure. Where to?" 0]
  /\ history (snd (onFinish first_request [tools_only_message] empty_server))
     = [agent_row first_request "" 0].
Proof.
  split.
  - apply (onFinish_persists_text first_request [response_message] empty_server).
  - apply (onFinish_persists_text first_request [tools_only_message] empty_server).
    repeat constructor; discriminate.
Defined.

(** C1, as the code has it. A turn whose stream ends, with the callback
    invoked once, appends exactly one user row and one agent row for the
    conversation, the agent row carrying the text of the response; the
    callback has no record of the turns it has persisted, and every further
    invocation of it appends one more agent row. *)
Theorem completed_turn_persists (env : Env) (o : Oracle) (body : ChatRequest)
    (response : UIMessage) (st st' : ServerState) (left_over : list UIMessage) :
  completed_turn env o body response st = (Returned left_over, st') ->
  history st'
  = (history st ++
     [user_row body st;
      agent_row body (text_of_parts (parts response)) (S (length (history st)))])%list
  /\ length (user_turns (body_id body) st') = S (length (user_turns (body_id body) st))
  /\ length (agent_turns (body_id body) st') = S (length (agent_turns (body_id body) st))
  /\ forall messages,
       length (agent_turns (body_id body) (snd (onFinish body messages st')))
       = S (S (length (agent_turns (body_id body) st))).
Proof.
  unfold completed_turn, bind. intros Hrun.
  destruct (action env o body st) as [[call|e] st1] eqn:Hact; [|discriminate].
  destruct (action_history _ _ _ _ _ _ Hact) as [Hh _].
  rewrite onFinish_run in Hrun. injection Hrun as _ <-.
  rewrite last_snoc. cbn [from_option].
  set (text := text_of_parts (parts response)).
  set (st2 := {| history := (history st1 ++ [agent_row body text (length (history st1))])%list;
                 logs := logs st1; titleQueue := titleQueue st1 |}).
  destruct (turns_snoc (body_id body) st st1 (user_row body st) Hh eq_refl) as [Ha1 Hu1].
  destruct (turns_snoc (body_id body) st1 st2 (agent_row body text (length (history st1)))
              eq_refl eq_refl) as [Ha2 Hu2].
  split; [|split; [lia | split; [lia|]]].
  - cbn [history st2]. rewrite Hh, length_app, <- app_assoc. cbn.
    by rewrite Nat.add_1_r.
  - intros messages. rewrite onFinish_run. cbn [snd].
    match goal with
    | |- length (agent_turns _ ?st3) = _ =>
        destruct (turns_snoc (body_id body) st2 st3
                    (agent_row body (text_of_parts (from_option parts [] (last messages)))
                               (length (history st2)))
                    eq_refl eq_refl) as [Ha3 _]
    end.
    lia.
Qed.

Lemma completed_turn_persists_witness :
  length (agent_turns "conv-1" after_first_turn) = 1
  /\ length (user_turns "conv-1" after_first_turn) = 1.
Proof.
  destruct (completed_turn_persists env_openai oracle_ok first_request response_message
              empty_server after_first_turn
              [to_ui_message "m-1" "<p>Plan a trip &amp; book it</p>" User] eq_refl)
    as (_ & Hu & Ha & _).
  split; [exact Ha | exact Hu].
Defined.

(** C1, as the specification states it, fails: after a turn has completed, a second
    invocation of the callback for the same turn, with the messages of the
    first, leaves two agent rows for the one user row. *)
Lemma onFinish_twice_duplicates :
  let replay :=
    onFinish first_request
      [to_ui_message "m-1" "<p>Plan a trip &amp; book it</p>" User; response_message]
      after_first_turn in
  length (user_turns "conv-1" (snd replay)) = 1
  /\ length (agent_turns "conv-1" after_first_turn) = 1
  /\ length (agent_turns "conv-1" (snd replay)) = 2.
Proof. vm_compute. repeat split. Qed.


Lemma reaches_tools_with_tools (o : Oracle) (body : ChatRequest)
    (t : Outcome (gmap string Tool)) :
  reaches_tools (with_tools o t) body = reaches_tools o body.
Proof. reflexivity. Qed.

(** C7. When the listing of the tools fails, the turn goes on as it would
    with a gateway that lists no tool: same outcome, same history, same
    queue, and [streamText] is called with the empty tool set; the failure is
    logged by exactly one warning, which is the only entry the route adds to
    the log; the error of the listing is not what the caller receives, and
    when the steps after it succeed the route returns its stream. *)
Theorem tools_failure_degrades (env : Env) (o : Oracle) (body : ChatRequest)
    (st : ServerState) (err : string) :
  reaches_tools o body = true ->
  mcp_tools o = Thrown err ->
  let r := action env o body st in
  let r0 := action env (with_tools o (Returned ∅)) body st in
  fst r = fst r0
  /\ history (snd r) = history (snd r0)
  /\ titleQueue (snd r) = titleQueue (snd r0)
  /\ logs (snd r0) = logs st
  /\ logs (snd r) = (logs st ++ [tools_warning err])%list
  /\ (forall call, fst r = Returned call -> stream_tools call = ∅)
  /\ (forall m,
        prior_history body st <> [] \/ enqueue_title o = Returned tt ->
        getModel env None = Returned m ->
        fst r = Returned (stream_of env o body st m)
        /\ stream_tools (stream_of env o body st m) = ∅).
Proof.
  intros Hreach Herr. cbv zeta.
  rewrite (action_run env o body st Hreach).
  rewrite (action_run env (with_tools o (Returned ∅)) body st Hreach).
  unfold stream_of, listed_tools. cbn [mcp_tools with_tools enqueue_title generateId].
  rewrite Herr. cbv zeta.
  assert (Hq : forall e, enqueue_title o = Thrown e -> enqueue_title o <> Returned tt)
    by (intros e -> ; discriminate).
  destruct (prior_history body st) as [|h0 hs] eqn:Hprior; cbn [length Nat.eqb];
    [destruct (enqueue_title o) as [[]|e] eqn:Henq|];
    try destruct (getModel env None) as [m|e'];
    cbn [fst snd history logs titleQueue];
    repeat split;
    try congruence;
    try (by intros call [= <-]);
    try (intros m' _ [= <-]; reflexivity);
    try (intros m' [Hne|Hne] Hm; congruence);
    try match goal with
        | H : _ \/ _ |- _ => destruct H as [H|H]; [by destruct H | discriminate H]
        end.
Qed.

Lemma tools_failure_degrades_witness :
  logs (snd (action env_openai oracle_tools_down first_request empty_server))
  = [tools_warning "fetch failed"]
  /\ fst (action env_openai oracle_tools_down first_request empty_server)
     = Returned (stream_of env_openai oracle_tools_down first_request empty_server
                   (Some (OpenAI "gpt-4.1-2025-04-14")))
  /\ stream_tools (stream_of env_openai oracle_tools_down first_request empty_server
                     (Some (OpenAI "gpt-4.1-2025-04-14"))) = ∅.
Proof.
  destruct (tools_failure_degrades env_openai oracle_tools_down first_request empty_server
              "fetch failed" eq_refl eq_refl) as (_ & _ & _ & _ & Hlog & _ & Hdone).
  split; [exact Hlog|].
  apply Hdone; [right|]; reflexivity.
Defined.

(** Once the listing is reached, the user's row is persisted, however the
    rest of the request goes. *)
Lemma action_persists_user (env : Env) (o : Oracle) (body : ChatRequest) (st : ServerState) :
  reaches_tools o body = true ->
  history (snd (action env o body st)) = (history st ++ [user_row body st])%list.
Proof.
  intros Hreach. rewrite (action_run env o body st Hreach). cbv zeta.
  destruct (Nat.eqb (length (prior_history body st)) 0);
    [destruct (enqueue_title o)|]; try destruct (getModel env None); reflexivity.
Qed.

(** A request that does not reach the tool listing throws, having written at
    most one entry to the log and nothing else. *)
Lemma action_early (env : Env) (o : Oracle) (body : ChatRequest) (st : ServerState) :
  reaches_tools o body = false ->
  exists e l,
    action env o body st
    = (Thrown e, {| history := history st; logs := (logs st ++ l)%list;
                    titleQueue := titleQueue st |})
    /\ length l <= 1
    /\ Forall (fun entry => level entry = LogError) l.
Proof.
  unfold reaches_tools, action.
  unfold bind, await, try_catch, ret, throw, logger, modify.
  destruct st as [h l q]. cbn [history logs titleQueue].
  destruct (delete_pat o) as [[]|e0]; cbn.
  2: { intros _. exists e0, []. rewrite app_nil_r. repeat split; [cbn; lia | constructor]. }
  destruct (create_pat o) as [tok|e1]; cbn.
  2: { intros _. exists e1, []. rewrite app_nil_r. repeat split; [cbn; lia | constructor]. }
  destruct (truthy tok); cbn.
  2: { intros _. eexists _, [_]. repeat split; [cbn; lia | by repeat constructor]. }
  destruct (body_message_parts body) as [|p ps]; cbn.
  { intros _. eexists _, []. rewrite app_nil_r. repeat split; [cbn; lia | constructor]. }
  destruct (create_mcp_client o) as [[]|e2]; cbn; [discriminate|].
  intros _. eexists _, [_]. repeat split; [cbn; lia | by repeat constructor].
Qed.

(** C8, as the code has it. Take any request. When it fails before the tool
    listing (no token, no part in the message, no client of the tool
    gateway), it throws and neither persists nor enqueues anything. When it
    gets that far: on the first message of a conversation the route enqueues
    one title job, carrying the identifier of the conversation and
    [stripHtml] of the message, and it waits for the enqueue; on a message of
    a conversation that already has history it enqueues nothing; a failing
    enqueue is not caught: the request fails with its error, after the user's
    row has been persisted, and nothing is streamed. Once the request has got
    that far, no later request of the conversation enqueues a job, whatever
    becomes of it. *)
Theorem title_job_first_message (env : Env) (o : Oracle) (body : ChatRequest)
    (st : ServerState) :
  let r := action env o body st in
  let job := {| job_conversationId := body_id body;
                job_message := stripHtml (first_text body) |} in
  (reaches_tools o body = false ->
   is_thrown (fst r) = true
   /\ titleQueue (snd r) = titleQueue st
   /\ history (snd r) = history st)
  /\ (reaches_tools o body = true ->
      (prior_history body st = [] -> enqueue_title o = Returned tt ->
       titleQueue (snd r) = (titleQueue st ++ [job])%list)
      /\ (prior_history body st <> [] -> titleQueue (snd r) = titleQueue st)
      /\ (forall e, prior_history body st = [] -> enqueue_title o = Thrown e ->
            fst r = Thrown e
            /\ titleQueue (snd r) = titleQueue st
            /\ history (snd r) = (history st ++ [user_row body st])%list)
      /\ (forall env' o' body',
            body_id body' = body_id body ->
            titleQueue (snd (action env' o' body' (snd r))) = titleQueue (snd r))).
Proof.
  cbv zeta. split.
  - intros Hearly. destruct (action_early env o body st Hearly) as (e & l & -> & _).
    done.
  - intros Hreach.
    pose proof (action_persists_user env o body st Hreach) as Hh.
    rewrite (action_run env o body st Hreach) in *. cbv zeta in *.
    fold (title_job body).
    split; [|split; [|split]].
    + intros -> ->. cbn [length Nat.eqb]. by destruct (getModel env None).
    + intros Hne. destruct (prior_history body st); [done|]. cbn [length Nat.eqb].
      by destruct (getModel env None).
    + intros e -> ->. cbn [length Nat.eqb]. done.
    + intros env' o' body' Hid.
      match goal with |- context [action env' o' body' ?s] => set (st1 := s) in * end.
      destruct (reaches_tools o' body') eqn:Hreach'.
      * rewrite (action_run env' o' body' st1 Hreach'). cbv zeta.
        assert (Hprior : prior_history body' st1 <> []).
        { unfold prior_history, same_conversation.
          rewrite Hh, List.filter_app, Hid. cbn. rewrite String.eqb_refl.
          intros Hnil. by apply app_eq_nil in Hnil as [_ ?]. }
        destruct (prior_history body' st1); [done|]. cbn [length Nat.eqb].
        by destruct (getModel env' None).
      * by destruct (action_early env' o' body' st1 Hreach') as (e & l & -> & _).
Qed.

Lemma title_job_first_message_witness :
  titleQueue (snd (action env_openai oracle_ok first_request empty_server))
  = [{| job_conversationId := "conv-1"; job_message := "Plan a trip & book it" |}]
  /\ titleQueue (snd (action env_openai oracle_ok first_request after_first_turn))
     = titleQueue after_first_turn.
Proof.
  destruct (title_job_first_message env_openai oracle_ok first_request empty_server)
    as (_ & Hreached).
  destruct (Hreached eq_refl) as (Hfirst & _).
  destruct (title_job_first_message env_openai oracle_ok first_request after_first_turn)
    as (_ & Hreached').
  destruct (Hreached' eq_refl) as (_ & Hlater & _).
  split.
  - apply Hfirst; reflexivity.
  - apply Hlater. vm_compute. discriminate.
Defined.

(** C8, as the specification states it, fails: on the first message of a new
    conversation, with a queue that refuses the job and everything else in
    order, the request fails with the error of the queue, where the same
    request with a working queue returns its stream. *)
Lemma enqueue_failure_fails_turn :
  prior_history first_request empty_server = []
  /\ is_thrown (fst (action env_openai oracle_ok first_request empty_server)) = false
  /\ action env_openai oracle_queue_down first_request empty_server
     = (Thrown "queue unavailable",
        {| history := [user_row first_request empty_server];
           logs := [];
           titleQueue := [] |}).
Proof. vm_compute. repeat split. Qed.

End ConversationFacts.

(** ** The stall watchdog *)

Section WatchdogFacts.
Import Watchdog.


(** The thirty seconds are kept as a name from here on: the proofs depend on
    the number of milliseconds through [watchdog_timeout_pos] only. *)
Local Opaque watchdog_timeout.

Lemma render_fields (p : Page) :
  status (render p) = status p
  /\ unloaded (render p) = unloaded p
  /\ reload_pending (render p) = reload_pending p
  /\ retryCount (render p) = (if completes (status p) then 0 else retryCount p)
  /\ statusTimeout (render p)
     = (if monitored (status p)
        then Some {| remaining := watchdog_timeout; seen_retryCount := retryCount p |}
        else None).
Proof.
  destruct p as [s rc t rp u].
  destruct s, rc as [|rc]; unfold render, reset_effect, watchdog_effect; simpl;
    rewrite ?Nat.eqb_refl; repeat split.
Qed.


Lemma elapse_before (ms : nat) :
  forall s rc rem seen,
    ms < rem ->
    elapse ms {| status := s; retryCount := rc;
                 statusTimeout := Some {| remaining := rem; seen_retryCount := seen |};
                 reload_pending := None; unloaded := false |}
    = ({| status := s; retryCount := rc;
          statusTimeout := Some {| remaining := rem - ms; seen_retryCount := seen |};
          reload_pending := None; unloaded := false |}, []).
Proof.
  induction ms as [|ms IH]; intros s rc rem seen Hlt.
  - cbn. by rewrite Nat.sub_0_r.
  - destruct rem as [|[|rem]]; [lia | lia |].
    cbn [elapse]. unfold tick at 1, set_statusTimeout, set_reload_pending. cbn.
    rewrite IH by lia. reflexivity.
Qed.
















Local Transparent watchdog_timeout.


End WatchdogFacts.

(** ** The definitions at work on concrete inputs *)

Section Examples.
Import Eff ModelRouter EmbeddingRetriever Html Conversation Watchdog Scenario.

Example stripHtml_paragraph : stripHtml "<p>Hello <b>world</b></p>" = "Hello world".
Proof. reflexivity. Qed.

Example stripHtml_entities :
  stripHtml "  a &lt; b &amp;&amp; c &gt; d &nbsp; " = "a < b && c > d".
Proof. reflexivity. Qed.

Example stripHtml_unclosed : stripHtml "x < y and <a<b>z, then 1 < 2" = "x z, then 1 < 2".
Proof. reflexivity. Qed.

Example stripHtml_entity_order : stripHtml "&amp;lt;" = "&lt;".
Proof. reflexivity. Qed.

Example getModel_default : getModel env_openai None = Returned (Some (OpenAI default_model)).
Proof. reflexivity. Qed.

Example getModel_gemini_without_key :
  getModel env_openai (Some "gemini-2.0-flash")
  = Thrown "No Google API key found. Set GOOGLE_API_KEY".
Proof. reflexivity. Qed.

Example getEmbedding_trace :
  steps (snd (getEmbedding env_all_strategies world_third_succeeds "hello" []))
  = [Try 1; Wait 2000; Try 2; Wait 4000; Try 3].
Proof. reflexivity. Qed.

Example action_first_message :
  action env_openai oracle_ok first_request empty_server
  = (Returned (stream_of env_openai oracle_ok first_request empty_server
                 (Some (OpenAI default_model))),
     {| history := [user_row first_request empty_server];
        logs := [];
        titleQueue := [title_job first_request] |}).
Proof. reflexivity. Qed.

Example watchdog_three_stalls :
  snd (run [Elapse watchdog_timeout; Elapse watchdog_timeout; Elapse watchdog_timeout]
           (mount streaming))
  = [Stop; RevalidateAfter 1000; Stop; RevalidateAfter 1000; Reload].
Proof. vm_compute. reflexivity. Qed.

Example watchdog_reset_between_stalls :
  retryCount
    (fst (run [Elapse watchdog_timeout; StatusChange success; StatusChange streaming]
              (mount streaming))) = 0.
Proof. vm_compute. reflexivity. Qed.

End Examples.

(** ** Labelling and calling a model *)

Section ModelCallFacts.
Import Eff ModelRouter ModelCall Scenario ModelCallScenario.

Lemma prefix_includes (p s : string) :
  String.prefix p s = true -> includes p s = true.
Proof.
  intros Hp. destruct s as [|c s]; cbn [includes]; [exact Hp|].
  rewrite Hp. reflexivity.
Qed.

Lemma prefix_app_l (p q s : string) :
  String.prefix (p +:+ q) s = true -> String.prefix p s = true.
Proof.
  revert s. induction p as [|a p IH]; intros s; [by destruct s|].
  change (String a p +:+ q) with (String a (p +:+ q)).
  destruct s as [|b s]; cbn [String.prefix]; [done|].
  destruct (ascii_dec a b); [apply IH | done].
Qed.

Lemma or_default_Some (v b : string) :
  truthy (Some v) = true -> or_default (Some v) b = v.
Proof.
  unfold truthy, or_default. by destruct (String.eqb v "").
Qed.

Lemma resolved_model_given (env : Env) (name : string) :
  truthy (Some name) = true -> resolved_model env (Some name) = name.
Proof.
  intros Hn. unfold resolved_model, or_else. rewrite Hn.
  by apply or_default_Some.
Qed.

(** What [getModelForTask] returns: a non-empty name, unless the base model
    names an inherited member and the complexity is [low]. *)
Lemma getModelForTask_name (env : Env) (c : ModelComplexity) :
  (c = low -> names_inherited_member env = false) ->
  exists name,
    getModelForTask env c = ModelName name
    /\ truthy (Some name) = true
    /\ name = match c with
              | high => base_model env
              | low => or_default (downgrades !! base_model env) (base_model env)
              end.
Proof.
  intros Hc. unfold getModelForTask. fold (base_model env).
  assert (Hbase : truthy (Some (base_model env)) = true)
    by (apply or_default_nonempty; discriminate).
  destruct c; [by eexists|].
  specialize (Hc eq_refl). unfold names_inherited_member in Hc.
  apply bool_decide_eq_false in Hc.
  destruct (downgrades !! base_model env) as [v|] eqn:Hk.
  - rewrite (downgrades_at_own _ _ Hk). cbn [truthy_value].
    pose proof (downgrades_values_truthy _ _ Hk) as Hv. rewrite Hv.
    exists v. by rewrite or_default_Some.
  - rewrite (downgrades_at_absent _ Hk Hc). by eexists.
Qed.

Lemma getModelForTask_inherited (env : Env) :
  names_inherited_member env = true ->
  getModelForTask env low = InheritedMember (base_model env).
Proof.
  intros Hi. apply bool_decide_eq_true in Hi.
  unfold getModelForTask. fold (base_model env).
  by rewrite (downgrades_at_inherited _ Hi).
Qed.

Lemma getModelForTask_cases (env : Env) (c : ModelComplexity) :
  (c = low /\ names_inherited_member env = true
   /\ getModelForTask env c = InheritedMember (base_model env))
  \/ (exists name, getModelForTask env c = ModelName name /\ truthy (Some name) = true).
Proof.
  destruct (names_inherited_member env) eqn:Hi.
  - destruct c.
    + right. destruct (getModelForTask_name env high) as (n & Hn & Ht & _); [done|eauto].
    + left. split; [done|]. split; [done|]. by apply getModelForTask_inherited.
  - right. destruct (getModelForTask_name env c (fun _ => Hi)) as (n & Hn & Ht & _). eauto.
Qed.

(** A name that [getModelForTask] returns is not empty. *)
Lemma getModelForTask_truthy (env : Env) (c : ModelComplexity) (name : string) :
  getModelForTask env c = ModelName name -> truthy (Some name) = true.
Proof.
  intros Hn.
  destruct (getModelForTask_cases env c) as [(-> & Hi & Hv)|(n & Hv & Ht)].
  - rewrite Hv in Hn. discriminate.
  - congruence.
Qed.

(** [getModel] as a table: the provider of the resolved name decides which
    key is asked for and which client is bound. *)
Lemma getModel_by_provider (env : Env) (takeModel : option string) :
  getModel env takeModel =
    let name := resolved_model env takeModel in
    let p := provider_of name in
    if truthy (provider_key env p)
    then Returned (Some (provider_instance env p name))
    else Thrown (missing_key_message p).
Proof.
  cbv zeta. unfold getModel, getModel_frame, provider_of.
  fold (resolved_model env takeModel).
  rewrite resolved_model_truthy. cbn [truthy andb].
  destruct (includes "claude" (resolved_model env takeModel)); cbn.
  - by destruct (truthy (ANTHROPIC_API_KEY env)).
  - destruct (includes "gemini" (resolved_model env takeModel)); cbn.
    + by destruct (truthy (GOOGLE_GENERATIVE_AI_API_KEY env)).
    + by destruct (truthy (OPENAI_API_KEY env)).
Qed.

(** X1. [getModel] routes by the first marker found in the resolved name,
    [claude] before [gemini] before the OpenAI default; it throws the
    missing-key error of that provider exactly when that provider's key is
    missing or empty, whatever the other keys are, and otherwise returns the
    client of that provider for exactly the resolved name. *)
Theorem getModel_routing (env : Env) (takeModel : option string) :
  let name := resolved_model env takeModel in
  let p := provider_of name in
  getModel env takeModel =
    (if truthy (provider_key env p)
     then Returned (Some (provider_instance env p name))
     else Thrown (missing_key_message p))
  /\ (includes "claude" name = true -> p = AnthropicProvider)
  /\ (includes "claude" name = false -> includes "gemini" name = true ->
      p = GoogleProvider)
  /\ (includes "claude" name = false -> includes "gemini" name = false ->
      p = OpenAIProvider).
Proof.
  cbv zeta. split; [apply getModel_by_provider|].
  unfold provider_of. repeat split; intros; by repeat
    match goal with H : includes _ _ = _ |- _ => rewrite H; clear H end.
Qed.

Lemma getModel_routing_witness :
  getModel env_anthropic (Some "gemini-claude-mix")
  = Returned (Some (Anthropic "gemini-claude-mix"))
  /\ provider_of (resolved_model env_openai (Some "gemini-2.0-flash")) = GoogleProvider.
Proof.
  destruct (getModel_routing env_anthropic (Some "gemini-claude-mix")) as [Hrun _].
  destruct (getModel_routing env_openai (Some "gemini-2.0-flash")) as (_ & _ & Hg & _).
  split; [exact Hrun | apply Hg; reflexivity].
Defined.

(** The downgrade table, entry by entry: a key and its value have the same
    provider and the same label, and no value is downgraded further. *)
Lemma downgrades_entries (k v : string) :
  downgrades !! k = Some v ->
  provider_of k = provider_of v
  /\ existsb (fun pattern => String.prefix pattern k) proprietaryPatterns
     = existsb (fun pattern => String.prefix pattern v) proprietaryPatterns
  /\ default (ModelName v) (downgrades_at v) = ModelName v.
Proof.
  assert (H : map_Forall
                (fun k v =>
                   provider_of k = provider_of v
                   /\ existsb (fun pattern => String.prefix pattern k) proprietaryPatterns
                      = existsb (fun pattern => String.prefix pattern v) proprietaryPatterns
                   /\ default (ModelName v) (downgrades_at v) = ModelName v)
                downgrades).
  { apply map_Forall_to_list. vm_compute. repeat constructor. }
  intros Hk. exact (H k v Hk).
Qed.

(** The names of the inherited members: none has a marker of Anthropic or
    Google in it, and none starts like a proprietary model. *)
Lemma inherited_names (key : string) :
  key ∈ object_prototype_members ->
  provider_of key = OpenAIProvider
  /\ existsb (fun pattern => String.prefix pattern key) proprietaryPatterns = false
  /\ existsb (fun pattern => String.prefix pattern (show_value (InheritedMember key)))
       proprietaryPatterns = false.
Proof.
  assert (H : Forall
                (fun k =>
                   provider_of k = OpenAIProvider
                   /\ existsb (fun pattern => String.prefix pattern k) proprietaryPatterns
                      = false
                   /\ existsb (fun pattern =>
                                 String.prefix pattern (show_value (InheritedMember k)))
                        proprietaryPatterns = false)
                object_prototype_members).
  { vm_compute. repeat constructor. }
  intros Hk. exact (proj1 (Forall_forall _ _) H key Hk).
Qed.

Lemma isProprietaryModel_task (env : Env) (c : ModelComplexity) :
  isProprietaryModel env None c
  = match getModelForTask env c with
    | ModelName name =>
        existsb (fun pattern => String.prefix pattern name) proprietaryPatterns
    | InheritedMember _ => false
    end.
Proof.
  unfold isProprietaryModel. cbn [truthy].
  destruct (getModelForTask env c) as [name|key] eqn:Hv.
  - cbn [truthy_value show_value]. by rewrite (getModelForTask_truthy env c name Hv).
  - cbn [truthy_value negb].
    destruct (getModelForTask_cases env c) as [(-> & Hi & Hv')|(n & Hv' & _)];
      [|congruence].
    rewrite Hv' in Hv. injection Hv as <-.
    apply bool_decide_eq_true in Hi. by destruct (inherited_names _ Hi) as (_ & _ & ->).
Qed.

(** X2. Unless [MODEL] is the name of a member inherited from
    [Object.prototype], the complexity tier never changes the provider, and
    so never the credential a call needs: the model picked for [low] falls
    into the same branch of [getModel] as the model picked for [high], and it
    gets the same label from [isProprietaryModel]. At the name of an
    inherited member the tiers part: [high] is routed to OpenAI like any
    other unknown name, and [low] hands [getModel] a function, on which it
    throws a [TypeError] whatever the keys are. *)
Theorem tier_keeps_provider (env : Env) :
  (names_inherited_member env = false ->
   exists lo hi,
     getModelForTask env low = ModelName lo
     /\ getModelForTask env high = ModelName hi
     /\ provider_of lo = provider_of hi
     /\ isProprietaryModel env None low = isProprietaryModel env None high
     /\ is_thrown (getModel_of env (getModelForTask env low))
        = is_thrown (getModel_of env (getModelForTask env high)))
  /\ (names_inherited_member env = true ->
      getModel_of env (getModelForTask env low) = Thrown "model.includes is not a function"
      /\ getModel_of env (getModelForTask env high)
         = (if truthy (OPENAI_API_KEY env)
            then Returned (Some (provider_instance env OpenAIProvider (base_model env)))
            else Thrown (missing_key_message OpenAIProvider))
      /\ isProprietaryModel env None low = false
      /\ isProprietaryModel env None high = false).
Proof.
  split.
  - intros Hno.
    destruct (getModelForTask_name env low (fun _ => Hno)) as (lo & Hlo & Htlo & Elo).
    destruct (getModelForTask_name env high) as (hi & Hhi & Hthi & Ehi); [done|].
    exists lo, hi. split; [exact Hlo|]. split; [exact Hhi|].
    assert (Hp : provider_of lo = provider_of hi
                 /\ existsb (fun pattern => String.prefix pattern lo) proprietaryPatterns
                    = existsb (fun pattern => String.prefix pattern hi) proprietaryPatterns).
    { subst lo hi.
      destruct (downgrades !! base_model env) as [v|] eqn:Hk; [|done].
      destruct (downgrades_entries _ _ Hk) as (H1 & H2 & _).
      rewrite (or_default_Some v _ (downgrades_values_truthy _ _ Hk)). auto. }
    destruct Hp as [Hprov Hlabel]. split; [exact Hprov|]. split.
    + rewrite !isProprietaryModel_task, Hlo, Hhi. exact Hlabel.
    + rewrite Hlo, Hhi. cbn [getModel_of]. rewrite !getModel_by_provider. cbv zeta.
      rewrite (resolved_model_given env lo Htlo), (resolved_model_given env hi Hthi).
      rewrite Hprov. by destruct (truthy (provider_key env (provider_of hi))).
  - intros Hi. rewrite (getModelForTask_inherited env Hi).
    pose proof Hi as Hmem. apply bool_decide_eq_true in Hmem.
    destruct (inherited_names _ Hmem) as (Hprov & Hlabel & _).
    destruct (getModelForTask_name env high) as (hi & Hhi & Hthi & Ehi); [done|].
    subst hi. split; [reflexivity|]. split; [|split].
    + rewrite Hhi. cbn [getModel_of]. rewrite getModel_by_provider. cbv zeta.
      rewrite (resolved_model_given env _ Hthi), Hprov. reflexivity.
    + by rewrite isProprietaryModel_task, (getModelForTask_inherited env Hi).
    + by rewrite isProprietaryModel_task, Hhi.
Qed.

(** X3. Downgrading is idempotent: with the model picked for [low] configured
    as [MODEL], the model picked for [low] is that same model. The pick is
    the name of a model in every configuration but those in which [MODEL]
    names an inherited member, where the pick is no string and cannot be
    configured. *)
Theorem downgrade_idempotent (env : Env) :
  match getModelForTask env low with
  | ModelName name => getModelForTask (with_MODEL env (Some name)) low = ModelName name
  | InheritedMember key => MODEL env = Some key /\ key ∈ object_prototype_members
  end.
Proof.
  destruct (names_inherited_member env) eqn:Hi.
  - rewrite (getModelForTask_inherited env Hi).
    apply bool_decide_eq_true in Hi. split; [|exact Hi].
    assert (Hd : default_model ∉ object_prototype_members).
    { apply (bool_decide_eq_false _). vm_compute. reflexivity. }
    unfold base_model, or_default in *. destruct (MODEL env) as [m|]; [|done].
    by destruct (String.eqb m "").
  - destruct (getModelForTask_name env low (fun _ => Hi)) as (name & Hn & Ht & En).
    rewrite Hn. unfold getModelForTask. cbn [MODEL with_MODEL].
    rewrite (or_default_Some name _ Ht).
    apply bool_decide_eq_false in Hi.
    destruct (downgrades !! base_model env) as [v|] eqn:Hk.
    + rewrite (or_default_Some v _ (downgrades_values_truthy _ _ Hk)) in En. subst name.
      destruct (downgrades_entries _ _ Hk) as (_ & _ & Hv).
      destruct (downgrades_at v) as [w|]; [|done].
      cbn in Hv. rewrite Hv. cbn [truthy_value]. by rewrite Ht.
    + cbn in En. subst name. by rewrite (downgrades_at_absent _ Hk Hi).
Qed.

Lemma isProprietaryModel_given (env : Env) (name : string) (c : ModelComplexity) :
  truthy (Some name) = true ->
  isProprietaryModel env (Some name) c
  = existsb (fun pattern => String.prefix pattern name) proprietaryPatterns.
Proof.
  intros Hn. unfold isProprietaryModel. rewrite Hn, (or_default_Some name _ Hn).
  cbn [truthy_value show_value]. by rewrite Hn.
Qed.

(** X4. The label and the route agree on the prefixes: a name that starts
    with [claude-] is labelled proprietary and is routed to Anthropic, so that
    [getModel] asks for the Anthropic key; a name that starts with [gemini-]
    and has no [claude] in it is labelled proprietary and routed to Google. *)
Theorem proprietary_prefix_routes (env : Env) (name : string) (c : ModelComplexity) :
  (String.prefix "claude-" name = true ->
   isProprietaryModel env (Some name) c = true
   /\ provider_of name = AnthropicProvider
   /\ getModel env (Some name)
      = if truthy (ANTHROPIC_API_KEY env) then Returned (Some (Anthropic name))
        else Thrown (missing_key_message AnthropicProvider))
  /\ (String.prefix "gemini-" name = true -> includes "claude" name = false ->
      isProprietaryModel env (Some name) c = true
      /\ provider_of name = GoogleProvider).
Proof.
  assert (Hne : forall p, String.prefix (String p "") name = true \/
                          (exists q, String.prefix (String p q) name = true) ->
                          truthy (Some name) = true).
  { intros p [H|[q H]]; by destruct name. }
  split.
  - intros Hp.
    assert (Hn : truthy (Some name) = true) by (apply (Hne "c"%char); eauto).
    assert (Hi : includes "claude" name = true).
    { apply prefix_includes. by apply (prefix_app_l "claude" "-"). }
    assert (Hprov : provider_of name = AnthropicProvider)
      by (unfold provider_of; by rewrite Hi).
    split; [|split; [exact Hprov|]].
    + rewrite (isProprietaryModel_given env name c Hn). unfold proprietaryPatterns. cbn [existsb].
      rewrite Hp. by destruct (String.prefix "gpt-" name).
    + rewrite getModel_by_provider. cbv zeta.
      rewrite (resolved_model_given env name Hn), Hprov. reflexivity.
  - intros Hp Hc.
    assert (Hn : truthy (Some name) = true) by (apply (Hne "g"%char); eauto).
    assert (Hi : includes "gemini" name = true).
    { apply prefix_includes. by apply (prefix_app_l "gemini" "-"). }
    split.
    + rewrite (isProprietaryModel_given env name c Hn). unfold proprietaryPatterns. cbn [existsb].
      rewrite Hp.
      by destruct (String.prefix "gpt-" name), (String.prefix "claude-" name).
    + unfold provider_of. by rewrite Hc, Hi.
Qed.

Lemma proprietary_prefix_routes_witness :
  isProprietaryModel env_anthropic (Some "claude-sonnet-4-5") high = true
  /\ provider_of "gemini-2.0-flash" = GoogleProvider.
Proof.
  destruct (proprietary_prefix_routes env_anthropic "claude-sonnet-4-5" high) as [Hc _].
  destruct (proprietary_prefix_routes env_anthropic "gemini-2.0-flash" high) as [_ Hg].
  split; [apply Hc; reflexivity | apply Hg; reflexivity].
Defined.

(** [makeModelCall], step by step. *)
Lemma makeModelCall_run (env : Env) (streamed : Outcome unit)
    (generated : Outcome (string * option Usage)) (stream : bool)
    (messages : list CoreMessage) (onFinish : OnFinish) (options : option CallOptions)
    (c : ModelComplexity) (tr : list CallEvent) :
  makeModelCall env streamed generated stream messages onFinish options c tr =
    match getModelForTask env c with
    | InheritedMember _ => (Thrown "model.includes is not a function", tr)
    | ModelName model =>
        let p := provider_of model in
        let instance := provider_instance env p model in
        if truthy (provider_key env p) then
          if stream then
            let tr1 := (tr ++ [CeStreamText (spread instance messages options)])%list in
            match streamed with
            | Returned _ => (Returned Streaming, tr1)
            | Thrown e => (Thrown e, tr1)
            end
          else
            match generated with
            | Returned (text, usage) =>
                let tr1 :=
                  (tr ++ [CeGenerateText instance messages]
                      ++ match to_token_usage usage with
                         | Some t => [CeConsoleLog (usage_line c (ModelName model) t)]
                         | None => []
                         end
                      ++ [CeOnFinish text (ModelName model) (to_token_usage usage)])%list in
                match onFinish text (ModelName model) (to_token_usage usage) with
                | Returned _ => (Returned (Generated text), tr1)
                | Thrown e => (Thrown e, tr1)
                end
            | Thrown e => (Thrown e, (tr ++ [CeGenerateText instance messages])%list)
            end
        else (Thrown (missing_key_message p), tr)
    end.
Proof.
  unfold makeModelCall. cbv zeta.
  destruct (getModelForTask env c) as [model|key] eqn:Hv; [|reflexivity].
  pose proof (getModelForTask_truthy env c model Hv) as Ht.
  unfold bind at 1, await at 1. cbn [getModel_of].
  rewrite getModel_by_provider. cbv zeta. rewrite (resolved_model_given env model Ht).
  destruct (truthy (provider_key env (provider_of model))); [|done].
  destruct stream.
  - unfold bind, call_emit, modify, await, ret. by destruct streamed as [[]|].
  - unfold call_emit, modify, ret, finish, bind, await.
    destruct generated as [[text usage]|e]; [|done]. cbn [fst snd].
    destruct usage as [u|]; cbn [to_token_usage];
      destruct (onFinish _ _ _) as [[]|]; cbn; rewrite <- ?app_assoc; reflexivity.
Qed.

(** X5. [makeModelCall] fails in five ways only. Before any call to a
    provider, any log line and any callback: with a [TypeError] when
    [getModelForTask] has returned an inherited member instead of a name, or
    with the missing-key error of the provider of the task model. After the
    provider has been called: with the error [streamText] throws when it
    streams, with the error [generateText] throws when it does not, in both
    cases without a callback; or, when it does not stream, with the error the
    caller's [onFinish] throws, once the text has been generated and the
    callback called. Its own check for an unsupported model never fires,
    since [getModel] never returns [undefined]. *)
Theorem makeModelCall_errors (env : Env) (streamed : Outcome unit)
    (generated : Outcome (string * option Usage)) (stream : bool)
    (messages : list CoreMessage) (onFinish : OnFinish) (options : option CallOptions)
    (c : ModelComplexity) (tr : list CallEvent) (msg : string) :
  let run := makeModelCall env streamed generated stream messages onFinish options c tr in
  fst run = Thrown msg ->
  (exists key,
     getModelForTask env c = InheritedMember key
     /\ msg = "model.includes is not a function"
     /\ snd run = tr)
  \/ exists model,
       getModelForTask env c = ModelName model
       /\ let p := provider_of model in
          (truthy (provider_key env p) = false
           /\ msg = missing_key_message p
           /\ snd run = tr)
          \/ (truthy (provider_key env p) = true
              /\ stream = true
              /\ streamed = Thrown msg
              /\ List.filter is_on_finish (snd run) = List.filter is_on_finish tr)
          \/ (truthy (provider_key env p) = true
              /\ stream = false
              /\ generated = Thrown msg
              /\ List.filter is_on_finish (snd run) = List.filter is_on_finish tr)
          \/ (truthy (provider_key env p) = true
              /\ stream = false
              /\ exists text usage,
                   generated = Returned (text, usage)
                   /\ onFinish text (ModelName model) (to_token_usage usage) = Thrown msg
                   /\ List.filter is_on_finish (snd run)
                      = (List.filter is_on_finish tr
                         ++ [CeOnFinish text (ModelName model) (to_token_usage usage)])%list).
Proof.
  cbv zeta. rewrite makeModelCall_run.
  destruct (getModelForTask env c) as [model|key].
  2: { cbn [fst snd]. intros [= <-]. left. by exists key. }
  cbv zeta. intros Hrun. right. exists model. split; [reflexivity|].
  destruct (truthy (provider_key env (provider_of model))).
  2: { cbn [fst snd] in *. injection Hrun as <-. left. auto. }
  right. destruct stream.
  - left. destruct streamed as [[]|e]; [discriminate|].
    cbn [fst snd] in *. injection Hrun as ->. repeat split.
    rewrite List.filter_app. cbn. by rewrite app_nil_r.
  - right. destruct generated as [[text usage]|e].
    + right. destruct (onFinish text (ModelName model) (to_token_usage usage))
        as [[]|e] eqn:Hcb; [discriminate|].
      cbn [fst snd] in *. injection Hrun as ->. repeat split.
      exists text, usage. repeat split; [exact Hcb|].
      rewrite !List.filter_app. destruct (to_token_usage usage); reflexivity.
    + left. cbn [fst snd] in *. injection Hrun as ->. repeat split.
      rewrite List.filter_app. cbn. by rewrite app_nil_r.
Qed.

Lemma makeModelCall_errors_witness :
  snd (makeModelCall env_constructor (Returned tt) (Returned ("hi", None)) false one_message
         onFinish_ok None low []) = []
  /\ fst (makeModelCall env_constructor (Returned tt) (Returned ("hi", None)) false
            one_message onFinish_ok None low [])
     = Thrown "model.includes is not a function".
Proof.
  destruct (makeModelCall_errors env_constructor (Returned tt) (Returned ("hi", None)) false
              one_message onFinish_ok None low [] "model.includes is not a function"
              eq_refl)
    as [(key & _ & _ & Htr)|(model & Hmodel & _)]; [|discriminate Hmodel].
  split; [exact Htr | reflexivity].
Defined.

(** X6. With the model picked for the tier a name and the key of its
    provider configured. When it does not stream, [makeModelCall] calls
    [generateText] once, with the client of that provider for exactly that
    model and with the messages it was given, whatever [options] holds; it
    then calls [onFinish] exactly once, as the last thing it does, with the
    text, the name of that same model and the usage under its new field
    names, the usage line being logged exactly when there is a usage; and it
    returns the text when the callback returns. When it streams, it opens one
    stream and calls nothing back; the stream is opened with the model and
    the messages of [options] where [options] has them, and with the client
    of the tier and the messages given otherwise. *)
Theorem makeModelCall_reports_model (env : Env) (streamed : Outcome unit)
    (messages : list CoreMessage) (onFinish : OnFinish) (options : option CallOptions)
    (text : string) (usage : option Usage) (c : ModelComplexity) (model : string) :
  getModelForTask env c = ModelName model ->
  truthy (provider_key env (provider_of model)) = true ->
  let instance := provider_instance env (provider_of model) model in
  let generating :=
    makeModelCall env streamed (Returned (text, usage)) false messages onFinish options c [] in
  let streaming :=
    makeModelCall env streamed (Returned (text, usage)) true messages onFinish options c [] in
  List.filter is_provider_call (snd generating) = [CeGenerateText instance messages]
  /\ List.filter is_on_finish (snd generating)
     = [CeOnFinish text (ModelName model) (to_token_usage usage)]
  /\ last (snd generating) = Some (CeOnFinish text (ModelName model) (to_token_usage usage))
  /\ length (snd generating) = match usage with Some _ => 3 | None => 2 end
  /\ fst generating
     = match onFinish text (ModelName model) (to_token_usage usage) with
       | Returned _ => Returned (Generated text)
       | Thrown e => Thrown e
       end
  /\ snd streaming = [CeStreamText (spread instance messages options)]
  /\ fst streaming = match streamed with
                     | Returned _ => Returned Streaming
                     | Thrown e => Thrown e
                     end
  /\ call_model (spread instance messages options)
     = default instance (options ≫= options_model)
  /\ call_messages (spread instance messages options)
     = default messages (options ≫= options_messages).
Proof.
  intros Hmodel Hk. cbv zeta. rewrite !makeModelCall_run, Hmodel. cbv zeta. rewrite Hk.
  split; [|split; [|split; [|split; [|split; [|split; [|split; [|split]]]]]]].
  1-5: destruct usage as [u|]; cbn [to_token_usage];
       destruct (onFinish _ _ _) as [[]|]; reflexivity.
  - by destruct streamed.
  - by destruct streamed.
  - by destruct options.
  - by destruct options.
Qed.

Lemma makeModelCall_reports_model_witness :
  List.filter is_on_finish
    (snd (makeModelCall env_openai (Returned tt) (Returned ("hi", Some usage_of_call)) false
            one_message onFinish_ok (Some options_other_model) low []))
  = [CeOnFinish "hi" (ModelName "gpt-4.1-mini-2025-04-14")
       (Some {| promptTokens := Some 12; completionTokens := Some 30;
                totalTokens := Some 42 |})]
  /\ snd (makeModelCall env_openai (Returned tt) (Returned ("hi", Some usage_of_call)) true
            one_message onFinish_ok (Some options_other_model) low [])
     = [CeStreamText {| call_model := Anthropic "claude-sonnet-4-5";
                        call_messages := one_message;
                        call_settings := [("temperature", "0")] |}].
Proof.
  destruct (makeModelCall_reports_model env_openai (Returned tt) one_message onFinish_ok
              (Some options_other_model) "hi" (Some usage_of_call) low
              "gpt-4.1-mini-2025-04-14" eq_refl eq_refl)
    as (_ & Hcb & _ & _ & _ & Hstream & _).
  split; [exact Hcb | exact Hstream].
Defined.

End ModelCallFacts.

(** ** More on the embedding retriever *)

Section EmbeddingTraceFacts.
Import Eff EmbeddingRetriever EmbeddingTrace Scenario ModelCallScenario.

Lemma strip_trailing_slash_snoc (s : string) : strip_trailing_slash (s +:+ "/") = s.
Proof.
  induction s as [|c s IH]; [reflexivity|].
  change (String c s +:+ "/") with (String c (s +:+ "/")).
  cbn [strip_trailing_slash]. rewrite IH.
  destruct s; reflexivity.
Qed.

Lemma strip_trailing_slash_id (s : string) :
  ends_with_slash s = false -> strip_trailing_slash s = s.
Proof.
  induction s as [|c s IH]; [reflexivity|].
  cbn [ends_with_slash strip_trailing_slash].
  destruct s as [|d s]; [by intros ->|].
  intros H. by rewrite IH.
Qed.

(** X7. The endpoint is the base URL with one trailing slash removed and
    [/embeddings] added: a base URL and the same base URL followed by a slash
    give the same endpoint. *)
Theorem endpoint_trailing_slash (o : EmbeddingRequestOptions) (s : string) :
  ends_with_slash s = false ->
  endpoint (build_request (with_baseUrl o s)) = s +:+ "/embeddings"
  /\ endpoint (build_request (with_baseUrl o (s +:+ "/"))) = s +:+ "/embeddings".
Proof.
  intros Hs. unfold build_request. cbn [endpoint baseUrl with_baseUrl].
  by rewrite strip_trailing_slash_snoc, strip_trailing_slash_id.
Qed.

Lemma endpoint_trailing_slash_witness :
  endpoint (build_request (with_baseUrl (options_with_retries None) "http://h/v1/"))
  = "http://h/v1/embeddings".
Proof.
  apply (endpoint_trailing_slash (options_with_retries None) "http://h/v1"). reflexivity.
Defined.

Lemma total_sleep_app (a b : list Event) :
  total_sleep (a ++ b) = (total_sleep a + total_sleep b)%N.
Proof.
  unfold total_sleep. induction a as [|e a IH]; cbn [app fold_right]; [done|].
  rewrite IH. lia.
Qed.

Lemma total_sleep_steps (tr : list Event) : total_sleep tr = total_wait (steps tr).
Proof.
  unfold total_sleep, total_wait, steps.
  induction tr as [|e tr IH]; [reflexivity|].
  destruct e; cbn [flat_map step_of app fold_right sleep_of wait_of]; rewrite IH; lia.
Qed.

Lemma schedule_total_wait (k : nat) :
  forall first,
    (total_wait (schedule first (S k)) + 2 ^ N.of_nat first * 1000
     = 2 ^ N.of_nat (first + k) * 1000)%N.
Proof.
  induction k as [|k IH]; intros first.
  - cbn. rewrite Nat.add_0_r. lia.
  - change (schedule first (S (S k)))
      with (Try first :: Wait (backoff_ms first) :: schedule (S first) (S k)).
    cbn [total_wait fold_right wait_of].
    change (fold_right (fun s acc => (wait_of s + acc)%N) 0%N (schedule (S first) (S k)))
      with (total_wait (schedule (S first) (S k))).
    specialize (IH (S first)). unfold backoff_ms.
    replace (first + S k) with (S first + k) by lia.
    rewrite Nat2N.inj_succ, N.pow_succ_r' in IH. lia.
Qed.

Lemma requestEmbeddingWithRetries_total_backoff_aux (w : World)
    (o : EmbeddingRequestOptions) :
  maxRetries o = None ->
  (total_sleep (snd (requestEmbeddingWithRetries w o [])) <= 6000)%N.
Proof.
  intros Hmx. unfold requestEmbeddingWithRetries. rewrite Hmx. cbn [default].
  pose proof (retry_loop_schedule w (baseUrl o) (build_request o) 3 3 1 ltac:(lia)) as H.
  cbv zeta in H. destruct H as (Hs & Hle & _).
  rewrite total_sleep_steps, Hs.
  destruct (attempts_made _) as [|[|[|[|k]]]]; [..|lia]; vm_compute; discriminate.
Qed.

(** X8. The time a call to the custom endpoint spends waiting is fixed by the
    number [k] of attempts it makes: [2 ^ k - 2] seconds, so nothing for a
    first attempt that succeeds and at most six seconds with the default of
    three attempts. *)
Theorem requestEmbeddingWithRetries_total_backoff (w : World) (o : EmbeddingRequestOptions) :
  let r := requestEmbeddingWithRetries w o [] in
  let k := attempts_made (snd r) in
  (1 <= k -> (total_sleep (snd r) + 2000 = 2 ^ N.of_nat k * 1000)%N)
  /\ (k = 0 -> total_sleep (snd r) = 0%N)
  /\ (maxRetries o = None -> (total_sleep (snd r) <= 6000)%N).
Proof.
  cbv zeta. unfold requestEmbeddingWithRetries.
  set (mx := default 3 (maxRetries o)).
  pose proof (retry_loop_schedule w (baseUrl o) (build_request o) mx mx 1 ltac:(lia)) as H.
  cbv zeta in H. destruct H as (Hs & Hle & _).
  set (r := retry_loop w (baseUrl o) (build_request o) mx mx 1 []) in *.
  rewrite total_sleep_steps, Hs.
  assert (H1 : 1 <= attempts_made (snd r) ->
               (total_wait (schedule 1 (attempts_made (snd r))) + 2000
                = 2 ^ N.of_nat (attempts_made (snd r)) * 1000)%N).
  { intros Hk. destruct (attempts_made (snd r)) as [|k]; [lia|].
    pose proof (schedule_total_wait k 1) as E.
    change (2 ^ N.of_nat 1 * 1000)%N with 2000%N in E. exact E. }
  split; [exact H1|]. split; [by intros ->|].
  intros Hmx. subst mx. rewrite Hmx in Hle. cbn [default] in Hle.
  destruct (attempts_made (snd r)) as [|[|[|[|k]]]] eqn:Ek; [..|lia];
    vm_compute; discriminate.
Qed.

Lemma requestEmbeddingWithRetries_total_backoff_witness :
  total_sleep (snd (requestEmbeddingWithRetries world_failing_twice
                      (options_with_retries None) [])) = 6000%N.
Proof.
  destruct (requestEmbeddingWithRetries_total_backoff world_failing_twice
              (options_with_retries None)) as (H & _).
  specialize (H ltac:(vm_compute; lia)).
  change (attempts_made
            (snd (requestEmbeddingWithRetries world_failing_twice
                    (options_with_retries None) []))) with 3 in H.
  change (2 ^ N.of_nat 3 * 1000)%N with 8000%N in H. lia.
Defined.

Lemma retry_loop_measures (w : World) (b : string) (req : Request) (mx : nat) :
  forall remaining attempt,
    let r := retry_loop w b req mx remaining attempt [] in
    requests (snd r) = replicate (attempts_made (snd r)) req
    /\ console_errors (snd r) + b2n (negb (is_thrown (fst r))) = attempts_made (snd r).
Proof.
  induction remaining as [|rem IH]; intros attempt; [by cbn|].
  cbv zeta. rewrite retry_loop_unfold.
  destruct (read_response (fetch w attempt)) as [e|err]; [by cbn|].
  destruct (Nat.eqb attempt mx); [by cbn|].
  specialize (IH (S attempt)). cbv zeta in IH. destruct IH as [Hreq Herr].
  set (r := retry_loop w b req mx rem (S attempt) []) in *.
  cbn [fst snd].
  change (requests ([EvFetch attempt req; attempt_log b attempt err;
                     EvSleep (backoff_ms attempt)] ++ snd r))
    with (req :: requests (snd r)).
  change (attempts_made ([EvFetch attempt req; attempt_log b attempt err;
                          EvSleep (backoff_ms attempt)] ++ snd r))
    with (S (attempts_made (snd r))).
  change (console_errors ([EvFetch attempt req; attempt_log b attempt err;
                           EvSleep (backoff_ms attempt)] ++ snd r))
    with (S (console_errors (snd r))).
  rewrite Hreq. split; [reflexivity | lia].
Qed.

(** X9. Every attempt of a call posts the same request, the one built from
    the options; for [getEmbedding] that request always has a [model] field,
    the configured name or [null], and an [Authorization] header exactly when
    an OpenAI key is configured. *)
Theorem requestEmbeddingWithRetries_same_request (w : World) (o : EmbeddingRequestOptions) :
  requests (snd (requestEmbeddingWithRetries w o []))
  = replicate (attempts_made (snd (requestEmbeddingWithRetries w o []))) (build_request o)
  /\ forall env text,
       is_omitted (payload_model (build_request (custom_options env text))) = false
       /\ (authorization (build_request (custom_options env text)) = None
           <-> truthy (OPENAI_API_KEY env) = false).
Proof.
  split.
  - unfold requestEmbeddingWithRetries.
    apply (retry_loop_measures w (baseUrl o) (build_request o)).
  - intros env text. unfold build_request, custom_options.
    cbn [payload_model authorization model sendNullModelWhenMissing apiKey default].
    split; [by destruct (truthy (EMBEDDING_MODEL env))|].
    by destruct (truthy (OPENAI_API_KEY env)).
Qed.

Lemma requestEmbeddingWithRetries_same_request_witness :
  authorization (build_request (custom_options (env_with_model None) "hello")) = None.
Proof.
  destruct (requestEmbeddingWithRetries_same_request world_all_fail
              (options_with_retries None)) as [_ H].
  apply (H (env_with_model None) "hello"). reflexivity.
Defined.

(** X10. With [maxRetries] zero the call posts nothing and throws the error
    that follows the loop; with one attempt or more allowed it always posts
    at least once, and when it throws, it has made all its attempts and the
    error is the one of the last attempt. *)
Theorem requestEmbeddingWithRetries_edges (w : World) (o : EmbeddingRequestOptions) :
  (maxRetries o = Some 0 ->
   requestEmbeddingWithRetries w o []
   = (Thrown "Embedding request failed after retries", []))
  /\ (1 <= default 3 (maxRetries o) ->
      1 <= attempts_made (snd (requestEmbeddingWithRetries w o []))
      /\ (is_thrown (fst (requestEmbeddingWithRetries w o [])) = true ->
          attempts_made (snd (requestEmbeddingWithRetries w o []))
          = default 3 (maxRetries o)
          /\ fst (requestEmbeddingWithRetries w o [])
             = read_response (fetch w (default 3 (maxRetries o))))).
Proof.
  split.
  - intros Hmx. unfold requestEmbeddingWithRetries. rewrite Hmx. reflexivity.
  - intros Hmx. unfold requestEmbeddingWithRetries.
    set (mx := default 3 (maxRetries o)) in *.
    pose proof (retry_loop_schedule w (baseUrl o) (build_request o) mx mx 1 ltac:(lia))
      as H.
    cbv zeta in H. destruct H as (_ & _ & Hge & _ & Hlast & Hthrown).
    specialize (Hge Hmx). split; [exact Hge|].
    intros Ht. specialize (Hthrown Ht). split; [exact Hthrown|].
    rewrite Hlast by exact Hge. rewrite Hthrown. f_equal. f_equal. lia.
Qed.

Lemma requestEmbeddingWithRetries_edges_witness :
  requestEmbeddingWithRetries world_all_fail (options_with_retries (Some 0)) []
  = (Thrown "Embedding request failed after retries", [])
  /\ fst (requestEmbeddingWithRetries world_all_fail (options_with_retries (Some 2)) [])
     = Thrown "connection refused".
Proof.
  destruct (requestEmbeddingWithRetries_edges world_all_fail (options_with_retries (Some 0)))
    as [H0 _].
  destruct (requestEmbeddingWithRetries_edges world_all_fail (options_with_retries (Some 2)))
    as [_ H2].
  split; [apply H0; reflexivity|].
  destruct (H2 ltac:(vm_compute; lia)) as [_ Hlast].
  rewrite (proj2 (Hlast eq_refl)). reflexivity.
Defined.

(** The trace of [getEmbedding], strategy by strategy: each strategy that is
    reached leaves its part, and the first one that succeeds is the last. *)
Lemma getEmbedding_trace_parts (env : Env) (w : World) (text : string) :
  snd (getEmbedding env w text []) =
    (strategy_part env w text CustomEndpoint
     ++ if succeeded env w text CustomEndpoint then []
        else strategy_part env w text ManagedSdk
             ++ if succeeded env w text ManagedSdk then []
                else strategy_part env w text LocalInference)%list.
Proof.
  unfold getEmbedding, bind. rewrite custom_strategy_run.
  unfold succeeded, strategy_part. cbn [strategy_outcome].
  change (configured env CustomEndpoint) with (truthy (OPENAI_EMBEDDINGS_BASE_URL env)).
  destruct (truthy (OPENAI_EMBEDDINGS_BASE_URL env)); cbv zeta; cbn [andb].
  - set (r := requestEmbeddingWithRetries w (custom_options env text) []).
    destruct (fst r) as [e|err]; cbn [is_thrown negb failure_log fst snd ret].
    + unfold ret. cbn. by rewrite ?app_nil_r.
    + rewrite sdk_strategy_run.
      destruct (configured env ManagedSdk); cbn [andb].
      * destruct (sdk_embed w) as [e2|err2]; cbn [is_thrown negb failure_log].
        -- unfold ret. cbn. by rewrite <- ?app_assoc, ?app_nil_r.
        -- rewrite ollama_strategy_run.
           destruct (configured env LocalInference); cbv zeta; cbn [andb].
           ++ destruct (ollama_embed w); unfold ret, throw; cbn;
                by rewrite <- ?app_assoc, ?app_nil_r.
           ++ unfold throw. cbn. by rewrite <- ?app_assoc, ?app_nil_r.
      * rewrite ollama_strategy_run.
        destruct (configured env LocalInference); cbv zeta; cbn [andb].
        -- destruct (ollama_embed w); unfold ret, throw; cbn;
             by rewrite <- ?app_assoc, ?app_nil_r.
        -- unfold throw. cbn. by rewrite ?app_nil_r.
  - rewrite sdk_strategy_run.
    destruct (configured env ManagedSdk); cbn [andb].
    + destruct (sdk_embed w) as [e2|err2]; cbn [is_thrown negb failure_log]; [done|].
      rewrite ollama_strategy_run.
      destruct (configured env LocalInference); cbv zeta; cbn [andb]; [|done].
      by destruct (ollama_embed w).
    + rewrite ollama_strategy_run.
      destruct (configured env LocalInference); cbv zeta; cbn [andb]; [|done].
      by destruct (ollama_embed w).
Qed.

(** X11. With no embeddings base URL, an embedding model other than the one
    the SDK strategy knows, and no Ollama URL, [getEmbedding] fails at once:
    it calls nothing, logs nothing, and throws that all methods failed. *)
Theorem getEmbedding_unconfigured (env : Env) (w : World) (text : string)
    (tr : list Event) :
  (forall s, configured env s = false) ->
  getEmbedding env w text tr = (Thrown all_failed, tr).
Proof.
  intros Hc.
  pose proof (Hc CustomEndpoint) as H1. pose proof (Hc ManagedSdk) as H2.
  pose proof (Hc LocalInference) as H3. cbn [configured] in H1, H2, H3.
  unfold getEmbedding, bind, custom_strategy, sdk_strategy, ollama_strategy, try_catch.
  rewrite H1, H2, H3. reflexivity.
Qed.

Lemma getEmbedding_unconfigured_witness :
  getEmbedding (env_with_model (Some "gpt-4.1")) world_third_succeeds "hello" []
  = (Thrown all_failed, []).
Proof.
  apply getEmbedding_unconfigured. intros []; reflexivity.
Defined.

Lemma attempts_made_app (a b : list Event) :
  attempts_made (a ++ b) = attempts_made a + attempts_made b.
Proof.
  unfold attempts_made, steps. by rewrite flat_map_app, List.filter_app, length_app.
Qed.

Lemma console_errors_app (a b : list Event) :
  console_errors (a ++ b) = console_errors a + console_errors b.
Proof. unfold console_errors. by rewrite List.filter_app, length_app. Qed.

Lemma retry_loop_only_fetches (w : World) (b : string) (req : Request) (mx : nat) :
  forall remaining attempt,
    List.filter is_sdk_call (snd (retry_loop w b req mx remaining attempt [])) = []
    /\ List.filter is_ollama_call (snd (retry_loop w b req mx remaining attempt [])) = [].
Proof.
  induction remaining as [|rem IH]; intros attempt; [by cbn|].
  rewrite retry_loop_unfold.
  destruct (read_response (fetch w attempt)); [by cbn|].
  destruct (Nat.eqb attempt mx); [by cbn|].
  cbn [snd]. rewrite !List.filter_app. cbn. apply IH.
Qed.

Lemma custom_part_measures (env : Env) (w : World) (text : string) :
  let part := strategy_part env w text CustomEndpoint in
  attempts_made part <= 3
  /\ (total_sleep part <= 6000)%N
  /\ List.filter is_sdk_call part = []
  /\ List.filter is_ollama_call part = []
  /\ (succeeded env w text CustomEndpoint = false ->
      console_errors part = 4 * b2n (configured env CustomEndpoint)).
Proof.
  cbv zeta. unfold strategy_part, succeeded.
  destruct (configured env CustomEndpoint);
    [|cbn; repeat split; first [lia | done]].
  cbn [strategy_outcome andb].
  set (o := custom_options env text).
  pose proof (retry_loop_schedule w (baseUrl o) (build_request o) 3 3 1 ltac:(lia)) as Hsch.
  cbv zeta in Hsch. destruct Hsch as (_ & Hle & _ & _ & _ & Hthrown).
  change (retry_loop w (baseUrl o) (build_request o) 3 3 1)
    with (requestEmbeddingWithRetries w o) in Hle, Hthrown.
  pose proof (requestEmbeddingWithRetries_total_backoff_aux w o eq_refl) as Hsleep.
  pose proof (retry_loop_measures w (baseUrl o) (build_request o)
                (default 3 (maxRetries o)) (default 3 (maxRetries o)) 1) as Hm.
  cbv zeta in Hm. destruct Hm as [_ Herr].
  fold (requestEmbeddingWithRetries w o) in Herr.
  set (r := requestEmbeddingWithRetries w o []) in *.
  destruct (retry_loop_only_fetches w (baseUrl o) (build_request o)
              (default 3 (maxRetries o)) (default 3 (maxRetries o)) 1) as [Hs Ho].
  fold (requestEmbeddingWithRetries w o) in Hs, Ho. fold r in Hs, Ho.
  rewrite attempts_made_app, total_sleep_app, !List.filter_app, console_errors_app, Hs, Ho.
  change (default 3 (maxRetries o)) with 3 in *.
  destruct (fst r) as [e|err]; cbn [failure_log is_thrown negb b2n] in *.
  - change (attempts_made []) with 0. change (total_sleep []) with 0%N.
    cbn [List.filter app]. repeat split; first [lia | done].
  - specialize (Hthrown eq_refl).
    change (attempts_made [_]) with 0. change (total_sleep [_]) with 0%N.
    change (console_errors [_]) with 1.
    cbn [List.filter app is_sdk_call is_ollama_call]. repeat split; first [lia | done].
Qed.

Lemma other_part_measures (env : Env) (w : World) (text : string) (s : Strategy) :
  s <> CustomEndpoint ->
  let part := strategy_part env w text s in
  attempts_made part = 0
  /\ total_sleep part = 0%N
  /\ length (List.filter is_sdk_call part)
     = (if Strategy_eqb s ManagedSdk then b2n (configured env s) else 0)
  /\ length (List.filter is_ollama_call part)
     = (if Strategy_eqb s LocalInference then b2n (configured env s) else 0)
  /\ (succeeded env w text s = false -> console_errors part = b2n (configured env s)).
Proof.
  intros Hs. cbv zeta. unfold strategy_part, succeeded.
  destruct s; [done| |];
    (destruct (configured env _); [|cbn; repeat split; done]);
    cbn [strategy_outcome andb];
    match goal with |- context [failure_log _ ?o] => destruct o end;
    cbn; repeat split; try done; intros; discriminate.
Qed.

(** X12. One call of [getEmbedding] posts at most three requests to the
    custom endpoint, and none when no embeddings base URL is configured; it
    calls [embed] of the SDK at most once, and only when the embedding model
    is the one the SDK strategy knows; and it calls [embed] of Ollama at most
    once, and only when an Ollama URL is configured. What [embed] does inside
    one call is the SDK's own. *)
Theorem getEmbedding_bounds (env : Env) (w : World) (text : string) :
  let tr := snd (getEmbedding env w text []) in
  attempts_made tr <= 3 * b2n (configured env CustomEndpoint)
  /\ length (List.filter is_sdk_call tr) <= b2n (configured env ManagedSdk)
  /\ length (List.filter is_ollama_call tr) <= b2n (configured env LocalInference).
Proof.
  cbv zeta. rewrite getEmbedding_trace_parts.
  destruct (custom_part_measures env w text) as (Ha & _ & Hsdk & Hol & _).
  destruct (other_part_measures env w text ManagedSdk ltac:(done))
    as (Ha2 & _ & Hsdk2 & Hol2 & _).
  destruct (other_part_measures env w text LocalInference ltac:(done))
    as (Ha3 & _ & Hsdk3 & Hol3 & _).
  cbv zeta in *. cbn [Strategy_eqb] in *.
  assert (Ha' : attempts_made (strategy_part env w text CustomEndpoint)
                <= 3 * b2n (configured env CustomEndpoint)).
  { unfold strategy_part in *. destruct (configured env CustomEndpoint); cbn [b2n]; [lia|].
    change (attempts_made []) with 0. lia. }
  assert (Hb : forall b, b2n b <= 1) by (intros []; cbn; lia).
  pose proof (Hb (configured env ManagedSdk)).
  pose proof (Hb (configured env LocalInference)).
  destruct (succeeded env w text CustomEndpoint);
    [|destruct (succeeded env w text ManagedSdk)];
    rewrite ?app_nil_r, ?attempts_made_app, ?List.filter_app,
      ?length_app, ?Ha2, ?Ha3, ?Hsdk, ?Hol, ?Hsdk2, ?Hsdk3, ?Hol2, ?Hol3;
    cbn [length app]; repeat split; lia.
Qed.

(** X13. When [getEmbedding] throws, every configured strategy has logged its
    failure: the custom endpoint one line for each of its three attempts and
    one for the strategy, the SDK and Ollama one line each. When nothing is
    configured, it throws without a line. *)
Theorem getEmbedding_logs_failures (env : Env) (w : World) (text : string) :
  is_thrown (fst (getEmbedding env w text [])) = true ->
  console_errors (snd (getEmbedding env w text []))
  = 4 * b2n (configured env CustomEndpoint)
    + b2n (configured env ManagedSdk)
    + b2n (configured env LocalInference).
Proof.
  intros Ht.
  assert (Hfail : forall s, succeeded env w text s = false).
  { pose proof (getEmbedding_refines env w text) as Href.
    destruct (first_success_thrown (strategy_outcome env w text)
                (List.filter (configured env) [CustomEndpoint; ManagedSdk; LocalInference]))
      as [Hiff _].
    rewrite <- Href in Hiff. cbn [snd] in Hiff. apply Hiff in Ht.
    rewrite Forall_forall in Ht.
    intros s. unfold succeeded. destruct (configured env s) eqn:Hc; [|done].
    cbn [andb]. rewrite Ht; [done|].
    apply list_elem_of_In, filter_In. split; [|exact Hc]. destruct s; cbn; auto. }
  rewrite getEmbedding_trace_parts, !Hfail.
  destruct (custom_part_measures env w text) as (_ & _ & _ & _ & H1).
  destruct (other_part_measures env w text ManagedSdk ltac:(done)) as (_ & _ & _ & _ & H2).
  destruct (other_part_measures env w text LocalInference ltac:(done))
    as (_ & _ & _ & _ & H3).
  cbv zeta in *. rewrite !console_errors_app, H1, H2, H3 by apply Hfail. lia.
Qed.

Lemma getEmbedding_logs_failures_witness :
  console_errors (snd (getEmbedding env_all_strategies world_all_fail "hello" [])) = 6.
Proof.
  apply (getEmbedding_logs_failures env_all_strategies world_all_fail "hello").
  reflexivity.
Defined.

End EmbeddingTraceFacts.

(** ** Markup stripping *)

Section HtmlFacts.
Import Html HtmlShape.

Lemma no_gt_no_tag (s : string) : contains_gt s = false -> has_tag s = false.
Proof.
  induction s as [|c s IH]; [done|]. cbn [contains_gt has_tag].
  intros H. apply orb_false_iff in H as [_ H]. rewrite H, (IH H).
  by rewrite andb_false_r.
Qed.

Lemma remove_tags_no_tag (s : string) :
  forall in_tag, has_tag (remove_tags in_tag s) = false.
Proof.
  induction s as [|c s IH]; intros in_tag; [by destruct in_tag|].
  cbn [remove_tags]. destruct in_tag; [apply IH|].
  destruct (Ascii.eqb c "<"%char) eqn:Hc.
  - destruct (contains_gt s) eqn:Hg; [apply IH|].
    cbn [has_tag]. rewrite Hc, Hg. cbn. by apply no_gt_no_tag.
  - cbn [has_tag]. rewrite Hc. cbn. apply IH.
Qed.

Lemma remove_tags_fixed (s : string) : has_tag s = false -> remove_tags false s = s.
Proof.
  induction s as [|c s IH]; [done|]. cbn [has_tag remove_tags].
  intros H. apply orb_false_iff in H as [H1 H2].
  destruct (Ascii.eqb c "<"%char); cbn in H1.
  - by rewrite H1.
  - by rewrite (IH H2).
Qed.

(** X14. The first pass of [stripHtml] leaves no tag: in what it returns no
    [<] has a [>] behind it, and a second pass changes nothing. *)
Theorem remove_tags_complete (s : string) :
  has_tag (remove_tags false s) = false
  /\ remove_tags false (remove_tags false s) = remove_tags false s.
Proof.
  split; [apply remove_tags_no_tag|].
  apply remove_tags_fixed, remove_tags_no_tag.
Qed.

Lemma trim_start_no_space (s : string) : starts_with_space (trim_start s) = false.
Proof.
  induction s as [|c s IH]; [done|]. cbn [trim_start].
  destruct (is_white_space c) eqn:Hc; [exact IH|]. cbn. exact Hc.
Qed.

Lemma trim_end_no_space (s : string) : ends_with_space (trim_end s) = false.
Proof.
  induction s as [|c s IH]; [done|]. cbn [trim_end].
  destruct (trim_end s) as [|d r] eqn:Ht.
  - destruct (is_white_space c) eqn:Hc; [done|]. cbn. exact Hc.
  - exact IH.
Qed.

Lemma trim_end_keeps_start (s : string) :
  starts_with_space s = false -> starts_with_space (trim_end s) = false.
Proof.
  destruct s as [|c s]; [done|]. cbn [starts_with_space trim_end]. intros Hc.
  destruct (trim_end s); [by rewrite Hc|done].
Qed.

Lemma trim_start_fixed (s : string) : starts_with_space s = false -> trim_start s = s.
Proof. destruct s as [|c s]; [done|]. cbn. by intros ->. Qed.

Lemma trim_end_fixed (s : string) : ends_with_space s = false -> trim_end s = s.
Proof.
  induction s as [|c s IH]; [done|]. cbn [ends_with_space trim_end].
  destruct s as [|d r]; [by intros ->|].
  intros H. by rewrite (IH H).
Qed.

Lemma trim_shape (s : string) :
  starts_with_space (trim s) = false /\ ends_with_space (trim s) = false.
Proof.
  unfold trim. split; [|apply trim_end_no_space].
  apply trim_end_keeps_start, trim_start_no_space.
Qed.

Lemma trim_fixed (s : string) :
  starts_with_space s = false -> ends_with_space s = false -> trim s = s.
Proof. intros H1 H2. unfold trim. by rewrite (trim_start_fixed s H1), trim_end_fixed. Qed.

(** X15. What [stripHtml] returns neither starts nor ends with white space,
    and trimming it again changes nothing. *)
Theorem stripHtml_trimmed (html : string) :
  starts_with_space (stripHtml html) = false
  /\ ends_with_space (stripHtml html) = false
  /\ trim (stripHtml html) = stripHtml html.
Proof.
  unfold stripHtml.
  match goal with |- context [trim ?x] => generalize x end. intros s.
  destruct (trim_shape s) as [H1 H2]. split; [exact H1|]. split; [exact H2|].
  by apply trim_fixed.
Qed.

Lemma no_lt_no_tag (s : string) : contains_char "<"%char s = false -> has_tag s = false.
Proof.
  induction s as [|c s IH]; [done|]. cbn [contains_char has_tag].
  intros H. apply orb_false_iff in H as [Hc H]. by rewrite Hc, (IH H).
Qed.

Lemma replace_from_no_amp (pat rep s : string) :
  contains_char "&"%char s = false ->
  replace_from (String "&"%char pat) rep 0 s = s.
Proof.
  induction s as [|c s IH]; [done|]. cbn [contains_char replace_from String.prefix].
  intros H. apply orb_false_iff in H as [Hc H].
  destruct (ascii_dec "&"%char c) as [<-|_]; [done|]. by rewrite (IH H).
Qed.

(** X16. [stripHtml] returns plain text as it is: a string with no [<] and no
    [&] in it, and no white space at either end, is unchanged. *)
Theorem stripHtml_plain (s : string) : plain s = true -> stripHtml s = s.
Proof.
  unfold plain. intros H.
  apply andb_true_iff in H as [H Hend]. apply andb_true_iff in H as [H Hstart].
  apply andb_true_iff in H as [Hlt Hamp].
  apply negb_true_iff in Hlt, Hamp, Hstart, Hend.
  unfold stripHtml, replace_all.
  rewrite (remove_tags_fixed s (no_lt_no_tag s Hlt)).
  repeat rewrite (fun pat rep => replace_from_no_amp pat rep s Hamp).
  by apply trim_fixed.
Qed.

Lemma stripHtml_plain_witness : stripHtml "What is 2 > 1?" = "What is 2 > 1?".
Proof. apply stripHtml_plain. reflexivity. Defined.

Lemma string_length_app (a b : string) :
  String.length (a +:+ b) = String.length a + String.length b.
Proof.
  induction a as [|c a IH]; [done|].
  change (String c a +:+ b) with (String c (a +:+ b)). cbn. by rewrite IH.
Qed.

Lemma prefix_length (p s : string) :
  String.prefix p s = true -> String.length p <= String.length s.
Proof.
  revert s. induction p as [|a p IH]; intros s; [cbn; lia|].
  destruct s as [|b s]; cbn [String.prefix String.length]; [done|].
  destruct (ascii_dec a b); [|done]. intros H. specialize (IH s H). lia.
Qed.

Lemma remove_tags_length (s : string) :
  forall in_tag, String.length (remove_tags in_tag s) <= String.length s.
Proof.
  induction s as [|c s IH]; intros in_tag; [by destruct in_tag|].
  cbn [remove_tags].
  destruct in_tag; [specialize (IH (negb (Ascii.eqb c ">"%char))); cbn; lia|].
  destruct (Ascii.eqb c "<"%char).
  - destruct (contains_gt s); [specialize (IH true); cbn; lia | done].
  - specialize (IH false). cbn. lia.
Qed.

(** A replacement that is no longer than what it replaces cannot make the
    string longer; [skip] characters are yet to be dropped. *)
Lemma replace_from_length (pat rep : string) :
  String.length rep <= String.length pat ->
  forall s skip,
    String.length (replace_from pat rep skip s) + Nat.min skip (String.length s)
    <= String.length s.
Proof.
  intros Hrep. induction s as [|c s IH]; intros skip; [cbn; lia|].
  cbn [replace_from]. destruct skip as [|k].
  - destruct (String.prefix pat (String c s)) eqn:Hp.
    + apply prefix_length in Hp. cbn [String.length] in Hp.
      rewrite string_length_app.
      specialize (IH (String.length pat - 1)). cbn [String.length]. lia.
    + specialize (IH 0). cbn [String.length]. lia.
  - specialize (IH k). cbn [String.length]. lia.
Qed.

Lemma replace_all_length (pat rep s : string) :
  String.length rep <= String.length pat ->
  String.length (replace_all pat rep s) <= String.length s.
Proof.
  intros Hrep. pose proof (replace_from_length pat rep Hrep s 0). unfold replace_all. lia.
Qed.

Lemma trim_length (s : string) : String.length (trim s) <= String.length s.
Proof.
  assert (Hs : forall t, String.length (trim_start t) <= String.length t).
  { induction t as [|c t IH]; [done|]. cbn [trim_start].
    destruct (is_white_space c); cbn [String.length]; lia. }
  assert (He : forall t, String.length (trim_end t) <= String.length t).
  { induction t as [|c t IH]; [done|]. cbn [trim_end].
    destruct (trim_end t); [destruct (is_white_space c)|]; cbn [String.length] in *; lia. }
  unfold trim. specialize (Hs s). specialize (He (trim_start s)). lia.
Qed.

(** X17. [stripHtml] never returns more characters than it is given. *)
Theorem stripHtml_length (html : string) :
  String.length (stripHtml html) <= String.length html.
Proof.
  unfold stripHtml.
  pose proof (remove_tags_length html false) as H0.
  set (s0 := remove_tags false html) in *.
  pose proof (replace_all_length "&nbsp;" " " s0 ltac:(cbn; lia)) as H1.
  set (s1 := replace_all "&nbsp;" " " s0) in *.
  pose proof (replace_all_length "&lt;" "<" s1 ltac:(cbn; lia)) as H2.
  set (s2 := replace_all "&lt;" "<" s1) in *.
  pose proof (replace_all_length "&gt;" ">" s2 ltac:(cbn; lia)) as H3.
  set (s3 := replace_all "&gt;" ">" s2) in *.
  pose proof (replace_all_length "&amp;" "&" s3 ltac:(cbn; lia)) as H4.
  set (s4 := replace_all "&amp;" "&" s3) in *.
  pose proof (replace_all_length "&quot;" double_quote s4 ltac:(cbn; lia)) as H5.
  set (s5 := replace_all "&quot;" double_quote s4) in *.
  pose proof (replace_all_length "&#039;" "'" s5 ltac:(cbn; lia)) as H6.
  set (s6 := replace_all "&#039;" "'" s5) in *.
  pose proof (trim_length s6). lia.
Qed.

Lemma prefix_empty (s : string) : String.prefix "" s = true.
Proof. by destruct s. Qed.

Lemma contains_char_app (x : ascii) (a b : string) :
  contains_char x (a +:+ b) = contains_char x a || contains_char x b.
Proof.
  induction a as [|c a IH]; [done|].
  change (String c a +:+ b) with (String c (a +:+ b)). cbn [contains_char].
  by rewrite IH, orb_assoc.
Qed.

Lemma replace_from_app_no_amp (pat rep t rest : string) :
  contains_char "&"%char t = false ->
  replace_from (String "&"%char pat) rep 0 (t +:+ rest)
  = t +:+ replace_from (String "&"%char pat) rep 0 rest.
Proof.
  induction t as [|c t IH]; [done|].
  change (String c t +:+ rest) with (String c (t +:+ rest)).
  cbn [contains_char replace_from String.prefix].
  intros H. apply orb_false_iff in H as [Hc H].
  destruct (ascii_dec "&"%char c) as [<-|_]; [done|]. rewrite (IH H).
  reflexivity.
Qed.

Lemma ends_with_space_snoc (t : string) (c : ascii) :
  ends_with_space (t +:+ String c "") = is_white_space c.
Proof.
  induction t as [|d t IH]; [done|].
  change (String d t +:+ String c "") with (String d (t +:+ String c "")).
  cbn [ends_with_space]. rewrite IH.
  destruct t; reflexivity.
Qed.

Lemma remove_tags_inside (t : string) :
  contains_char ">"%char t = false ->
  contains_gt (t +:+ ">") = true /\ remove_tags true (t +:+ ">") = "".
Proof.
  induction t as [|c t IH]; [done|].
  change (String c t +:+ ">") with (String c (t +:+ ">")).
  cbn [contains_char contains_gt remove_tags].
  intros H. apply orb_false_iff in H as [Hc H]. destruct (IH H) as [H1 H2].
  rewrite Hc, H1. cbn. auto.
Qed.

(** X18. [stripHtml] decodes the entities after it has removed the tags, and
    does not look at the result again: an escaped tag comes out as a tag. So
    what it returns can hold markup, and stripping it a second time can
    remove more. *)
Theorem stripHtml_decodes_after_stripping (t : string) :
  contains_char "<"%char t = false ->
  contains_char ">"%char t = false ->
  contains_char "&"%char t = false ->
  stripHtml ("&lt;" +:+ t +:+ "&gt;") = "<" +:+ t +:+ ">"
  /\ has_tag (stripHtml ("&lt;" +:+ t +:+ "&gt;")) = true
  /\ stripHtml (stripHtml ("&lt;" +:+ t +:+ "&gt;")) = "".
Proof.
  intros Hlt Hgt Hamp.
  assert (Hno : contains_char "&"%char ("<" +:+ t +:+ ">") = false).
  { change ("<" +:+ t +:+ ">") with (String "<"%char (t +:+ ">")).
    cbn [contains_char]. by rewrite contains_char_app, Hamp. }
  assert (H1 : stripHtml ("&lt;" +:+ t +:+ "&gt;") = "<" +:+ t +:+ ">").
  { unfold stripHtml, replace_all.
    rewrite remove_tags_fixed.
    2: { apply no_lt_no_tag.
         change ("&lt;" +:+ t +:+ "&gt;")
           with (String "&"%char (String "l"%char (String "t"%char
                   (String ";"%char (t +:+ "&gt;"))))).
         cbn [contains_char]. by rewrite contains_char_app, Hlt. }
    assert (E1 : replace_from "&nbsp;" " " 0 ("&lt;" +:+ t +:+ "&gt;")
                 = "&lt;" +:+ t +:+ "&gt;").
    { change ("&lt;" +:+ t +:+ "&gt;")
        with (String "&"%char (String "l"%char (String "t"%char
                (String ";"%char (t +:+ "&gt;"))))).
      cbn. by rewrite (replace_from_app_no_amp _ _ t) by exact Hamp. }
    assert (E2 : replace_from "&lt;" "<" 0 ("&lt;" +:+ t +:+ "&gt;")
                 = "<" +:+ t +:+ "&gt;").
    { change ("&lt;" +:+ t +:+ "&gt;")
        with (String "&"%char (String "l"%char (String "t"%char
                (String ";"%char (t +:+ "&gt;"))))).
      cbn. rewrite prefix_empty.
      by rewrite (replace_from_app_no_amp _ _ t) by exact Hamp. }
    assert (E3 : replace_from "&gt;" ">" 0 ("<" +:+ t +:+ "&gt;")
                 = "<" +:+ t +:+ ">").
    { change ("<" +:+ t +:+ "&gt;") with (String "<"%char (t +:+ "&gt;")).
      cbn. by rewrite (replace_from_app_no_amp _ _ t) by exact Hamp. }
    rewrite E1, E2, E3.
    repeat rewrite (fun pat rep => replace_from_no_amp pat rep _ Hno).
    apply trim_fixed; [done|].
    change ("<" +:+ t +:+ ">") with (String "<"%char (t +:+ ">")).
    cbn [ends_with_space]. rewrite ends_with_space_snoc.
    by destruct (t +:+ ">"). }
  destruct (remove_tags_inside t Hgt) as [Hc Hr].
  split; [exact H1|]. rewrite H1. split.
  - change ("<" +:+ t +:+ ">") with (String "<"%char (t +:+ ">")).
    cbn [has_tag]. by rewrite Hc.
  - unfold stripHtml.
    change ("<" +:+ t +:+ ">") with (String "<"%char (t +:+ ">")).
    cbn [remove_tags]. rewrite Hc. cbn [Ascii.eqb]. cbn. by rewrite Hr.
Qed.

Lemma stripHtml_decodes_after_stripping_witness :
  stripHtml "&lt;script src=x&gt;" = "<script src=x>".
Proof.
  apply (stripHtml_decodes_after_stripping "script src=x"); reflexivity.
Defined.

End HtmlFacts.

(** ** More on the conversation route *)

Section ConversationRunFacts.
Import Eff ModelRouter Html Conversation ConversationRuns Scenario ConversationScenario.

(** X19. A request that fails before the tool listing (no token, an empty
    message, no connection to the tool gateway) leaves the history and the
    title queue as they were: it throws, and adds at most one entry to the
    log, at the error level. *)
Theorem action_fails_early (env : Env) (o : Oracle) (body : ChatRequest)
    (st : ServerState) :
  reaches_tools o body = false ->
  is_thrown (fst (action env o body st)) = true
  /\ history (snd (action env o body st)) = history st
  /\ titleQueue (snd (action env o body st)) = titleQueue st
  /\ exists l, logs (snd (action env o body st)) = (logs st ++ l)%list
               /\ length l <= 1
               /\ Forall (fun entry => level entry = LogError) l.
Proof.
  intros Hr. destruct (action_early env o body st Hr) as (e & l & -> & Hl & Hf).
  cbn. repeat split. by exists l.
Qed.


Lemma action_fails_early_witness :
  is_thrown (fst (action env_openai oracle_no_token first_request empty_server)) = true
  /\ history (snd (action env_openai oracle_no_token first_request empty_server)) = []
  /\ titleQueue (snd (action env_openai oracle_no_token first_request empty_server)) = [].
Proof.
  destruct (action_fails_early env_openai oracle_no_token first_request empty_server eq_refl)
    as (Hthrown & Hh & Hq & _).
  split; [exact Hthrown|]. split; [exact Hh | exact Hq].
Defined.

Lemma same_conversation_other (id : string) (r : HistoryRow) :
  conversationId r <> id -> same_conversation id r = false.
Proof. unfold same_conversation. intros H. by apply String.eqb_neq. Qed.

(** What any request leaves behind, whether it reaches the listing or not. *)
Lemma action_state (env : Env) (o : Oracle) (body : ChatRequest) (st : ServerState) :
  exists hs ls js,
    snd (action env o body st)
    = {| history := (history st ++ hs)%list; logs := (logs st ++ ls)%list;
         titleQueue := (titleQueue st ++ js)%list |}
    /\ (hs = [] \/ hs = [user_row body st])
    /\ (js = [] \/ (js = [title_job body] /\ hs = [user_row body st]
                    /\ prior_history body st = []))
    /\ length ls <= 1.
Proof.
  destruct (reaches_tools o body) eqn:Hr.
  - rewrite (action_run env o body st Hr). cbv zeta.
    exists [user_row body st].
    exists (match mcp_tools o with Returned _ => [] | Thrown err => [tools_warning err] end).
    assert (Hl : forall l : list LogEntry,
      match mcp_tools o with Returned _ => l | Thrown err => (l ++ [tools_warning err])%list end
      = (l ++ match mcp_tools o with Returned _ => [] | Thrown err => [tools_warning err] end)%list).
    { intros l. destruct (mcp_tools o); by rewrite ?app_nil_r. }
    rewrite Hl.
    assert (Hlen : length (match mcp_tools o with
                           | Returned _ => []
                           | Thrown err => [tools_warning err] end) <= 1).
    { destruct (mcp_tools o); cbn; lia. }
    destruct (prior_history body st) eqn:Hp; cbn [length Nat.eqb].
    + destruct (enqueue_title o) as [[]|e].
      * exists [title_job body].
        destruct (getModel env None); cbn; repeat split; auto.
      * exists []. cbn. rewrite app_nil_r. repeat split; auto.
    + exists []. destruct (getModel env None); cbn; rewrite app_nil_r; repeat split; auto.
  - destruct (action_early env o body st Hr) as (e & l & -> & Hl & _).
    exists [], l, []. cbn. rewrite !app_nil_r. repeat split; auto.
Qed.

(** X20. The handler and the callback only append: whatever the request and
    whatever the collaborators answer, the rows, the log and the queue it finds
    are kept in order, at most one row and one job are added, both for the
    conversation of the request, and the rows and jobs of every other
    conversation are the same before and after; the callback adds exactly one
    row, to the conversation of the request. *)
Theorem action_appends_only (env : Env) (o : Oracle) (body : ChatRequest)
    (messages : list UIMessage) (st : ServerState) :
  let st1 := snd (action env o body st) in
  let st2 := snd (onFinish body messages st) in
  (exists hs ls js,
     history st1 = (history st ++ hs)%list /\ length hs <= 1
     /\ logs st1 = (logs st ++ ls)%list /\ length ls <= 1
     /\ titleQueue st1 = (titleQueue st ++ js)%list /\ length js <= 1)
  /\ (forall id, id <> body_id body ->
        rows_of id st1 = rows_of id st /\ jobs_of id st1 = jobs_of id st)
  /\ (exists r, history st2 = (history st ++ [r])%list
                /\ conversationId r = body_id body /\ userType r = Agent)
  /\ logs st2 = logs st /\ titleQueue st2 = titleQueue st
  /\ (forall id, id <> body_id body -> rows_of id st2 = rows_of id st).
Proof.
  cbv zeta. destruct (action_state env o body st) as (hs & ls & js & -> & Hhs & Hjs & Hls).
  rewrite onFinish_run. cbn [snd history logs titleQueue].
  split; [|split; [|split; [|split; [|split]]]]; try reflexivity.
  - exists hs, ls, js. repeat split; try done.
    + destruct Hhs as [-> | ->]; cbn; lia.
    + destruct Hjs as [-> | (-> & _)]; cbn; lia.
  - intros id Hid. unfold rows_of, jobs_of. cbn [history titleQueue].
    rewrite !List.filter_app. split.
    + destruct Hhs as [-> | ->]; cbn [List.filter]; [by rewrite app_nil_r|].
      rewrite same_conversation_other; [by rewrite app_nil_r | cbn; congruence].
    + destruct Hjs as [-> | (-> & _)]; cbn [List.filter title_job job_conversationId];
        [by rewrite app_nil_r|].
      assert (String.eqb (body_id body) id = false) as -> by (apply String.eqb_neq; congruence).
      by rewrite app_nil_r.
  - eexists. split; [reflexivity|]. by split.
  - intros id Hid. unfold rows_of. cbn [history]. rewrite List.filter_app.
    cbn [List.filter].
    rewrite same_conversation_other; [by rewrite app_nil_r | cbn; congruence].
Qed.


(** X21. The route keeps no trace of the requests it has handled: the same
    request sent again, for instance after a failure past the tool listing,
    persists the user's message a second time, and enqueues no title job; when
    the first attempt was the first message of the conversation and failed at
    the enqueue, the conversation is left without a title job. *)
Theorem resend_duplicates (env env' : Env) (o o' : Oracle) (body : ChatRequest)
    (st : ServerState) :
  reaches_tools o body = true ->
  reaches_tools o' body = true ->
  let st1 := snd (action env o body st) in
  let st2 := resend env env' o o' body st in
  history st2 = (history st ++ [user_row body st; user_row body st1])%list
  /\ message (user_row body st1) = message (user_row body st)
  /\ titleQueue st2 = titleQueue st1
  /\ (prior_history body st = [] -> is_thrown (enqueue_title o) = true ->
      titleQueue st2 = titleQueue st).
Proof.
  intros Hr Hr'. cbv zeta. unfold resend.
  pose proof (action_persists_user env o body st Hr) as Hh.
  set (st1 := snd (action env o body st)) in *.
  pose proof (action_persists_user env' o' body st1 Hr') as Hh'.
  assert (Hprior : Nat.eqb (length (prior_history body st1)) 0 = false).
  { unfold prior_history, same_conversation. rewrite Hh, List.filter_app, length_app.
    cbn. rewrite String.eqb_refl. cbn. apply Nat.eqb_neq. lia. }
  assert (Hq : titleQueue (snd (action env' o' body st1)) = titleQueue st1).
  { rewrite (action_run env' o' body st1 Hr'). cbv zeta. rewrite Hprior.
    by destruct (getModel env' None). }
  split; [|split; [done|split; [done|]]].
  - rewrite Hh', Hh, <- app_assoc. reflexivity.
  - intros Hp Hthrown. rewrite Hq. subst st1.
    rewrite (action_run env o body st Hr). cbv zeta. rewrite Hp. cbn [length Nat.eqb].
    by destruct (enqueue_title o).
Qed.

Lemma resend_duplicates_witness :
  said (history (resend env_openai env_openai oracle_queue_down oracle_ok
                        first_request empty_server))
  = [(User, "<p>Plan a trip &amp; book it</p>"); (User, "<p>Plan a trip &amp; book it</p>")]
  /\ titleQueue (resend env_openai env_openai oracle_queue_down oracle_ok
                        first_request empty_server) = [].
Proof.
  destruct (resend_duplicates env_openai env_openai oracle_queue_down oracle_ok
              first_request empty_server eq_refl eq_refl) as (Hh & _ & _ & Hq).
  split.
  - rewrite Hh. reflexivity.
  - rewrite Hq; reflexivity.
Defined.

Lemma text_of_single (t : string) :
  text_of_parts [{| part_type := "text"; part_text := t |}] = t.
Proof. unfold text_of_parts. cbn. apply string_app_nil_r. Qed.

(** X22. The callback removes the message it reads from the array of the
    request: called a second time on that array, it reads the message before,
    which is the user's own, and persists the user's text as one more agent
    row. *)
Theorem onFinish_again_persists_user_text (env : Env) (o : Oracle) (body : ChatRequest)
    (response : UIMessage) (st st1 : ServerState) (call : StreamCall) :
  action env o body st = (Returned call, st1) ->
  let n := length (history st) in
  history (snd (onFinish_again body (stream_messages call ++ [response])%list st1))
  = (history st ++ [user_row body st;
                    agent_row body (text_of_parts (parts response)) (S n);
                    agent_row body (first_text body) (S (S n))])%list.
Proof.
  intros Hrun. cbv zeta. destruct (action_history _ _ _ _ _ _ Hrun) as (Hh & m & ->).
  unfold onFinish_again, bind. rewrite onFinish_run.
  rewrite onFinish_run. cbn [snd history].
  rewrite last_snoc, removelast_last. cbn [from_option].
  unfold stream_of. cbn [stream_messages]. rewrite last_snoc. cbn [from_option].
  unfold to_ui_message. cbn [parts]. rewrite text_of_single.
  rewrite Hh, !length_app. cbn [length]. rewrite !Nat.add_1_r, <- !app_assoc.
  reflexivity.
Qed.

Lemma onFinish_again_persists_user_text_witness :
  said (history (snd (onFinish_again first_request
          (stream_messages (stream_of env_openai oracle_ok first_request empty_server
                                      (Some (OpenAI "gpt-4.1-2025-04-14")))
           ++ [response_message])%list
          (snd (action env_openai oracle_ok first_request empty_server)))))
  = [(User, "<p>Plan a trip &amp; book it</p>"); (Agent, "Sure. Where to?");
     (Agent, "<p>Plan a trip &amp; book it</p>")].
Proof.
  rewrite (onFinish_again_persists_user_text env_openai oracle_ok first_request
             response_message empty_server
             (snd (action env_openai oracle_ok first_request empty_server))
             (stream_of env_openai oracle_ok first_request empty_server
                        (Some (OpenAI "gpt-4.1-2025-04-14")))).
  - reflexivity.
  - vm_compute. reflexivity.
Defined.


(** A turn that goes through, step by step. *)
Lemma completed_turn_run (env : Env) (o : Oracle) (body : ChatRequest)
    (response : UIMessage) (st : ServerState) :
  reaches_tools o body = true ->
  is_thrown (enqueue_title o) = false ->
  is_thrown (getModel env None) = false ->
  exists left ls,
    completed_turn env o body response st
    = (Returned left,
       {| history :=
            (history st ++
             [user_row body st;
              agent_row body (text_of_parts (parts response)) (S (length (history st)))])%list;
          logs := (logs st ++ ls)%list;
          titleQueue :=
            (titleQueue st ++
             if Nat.eqb (length (prior_history body st)) 0 then [title_job body] else [])%list |}).
Proof.
  intros Hr Hq Hm. unfold completed_turn, bind.
  rewrite (action_run env o body st Hr). cbv zeta.
  exists (stream_messages (stream_of env o body st
            (match getModel env None with Returned m => m | Thrown _ => None end))).
  exists (match mcp_tools o with Returned _ => [] | Thrown err => [tools_warning err] end).
  destruct (enqueue_title o) as [[]|]; [|discriminate].
  destruct (getModel env None) as [m|]; [|discriminate].
  destruct (Nat.eqb (length (prior_history body st)) 0);
    rewrite onFinish_run; cbn [history logs titleQueue];
    rewrite last_snoc, removelast_last; cbn [from_option];
    rewrite length_app, Nat.add_1_r, <- app_assoc, ?app_nil_r;
    destruct (mcp_tools o); by rewrite ?app_nil_r.
Qed.

(** X23. Turns of one conversation that go through leave its transcript in
    the history: after any number of them the rows of the conversation are
    the rows it had, followed by each user message and the text of its reply,
    in the order of the requests; and the conversation gets a title job, for
    its first message, exactly when it had no row before the first of them. *)
Theorem exchanges_transcript (env : Env) (id : string) (xs : list Exchange)
    (st : ServerState) :
  is_thrown (getModel env None) = false ->
  forallb (goes_through id) xs = true ->
  fst (exchanges env xs st) = Returned tt
  /\ said (rows_of id (snd (exchanges env xs st)))
     = (said (rows_of id st) ++ transcript xs)%list
  /\ jobs_of id (snd (exchanges env xs st))
     = (jobs_of id st ++
        match xs, rows_of id st with
        | x :: _, [] => [title_job (ex_body x)]
        | _, _ => []
        end)%list.
Proof.
  intros Hm. revert st. induction xs as [|x xs IH]; intros st Hall.
  - cbn. rewrite !app_nil_r. by destruct (rows_of id st).
  - cbn [forallb] in Hall. apply andb_prop in Hall as [Hx Hall].
    unfold goes_through in Hx. apply andb_prop in Hx as [Hx Hq].
    apply andb_prop in Hx as [Hid Hr]. apply String.eqb_eq in Hid.
    apply negb_true_iff in Hq.
    destruct (completed_turn_run env (ex_oracle x) (ex_body x) (ex_response x) st Hr Hq Hm)
      as (left & ls & Hrun).
    cbn [exchanges]. unfold bind. rewrite Hrun. cbv beta iota.
    match goal with |- context [exchanges env xs ?s] => set (st1 := s) in * end.
    destruct (IH st1 Hall) as (Hres & Hrows & Hjobs).
    assert (Hrows1 : rows_of id st1
                     = (rows_of id st ++
                        [user_row (ex_body x) st;
                         agent_row (ex_body x) (text_of_parts (parts (ex_response x)))
                                   (S (length (history st)))])%list).
    { unfold rows_of, st1. cbn [history]. rewrite List.filter_app.
      cbn [List.filter]. unfold same_conversation, user_row, agent_row.
      cbn [conversationId]. rewrite Hid, String.eqb_refl. reflexivity. }
    split; [done|]. split.
    + rewrite Hrows, Hrows1. unfold said. rewrite !map_app, <- app_assoc. reflexivity.
    + assert (Hjobs1 : jobs_of id st1
                       = (jobs_of id st ++
                          match rows_of id st with
                          | [] => [title_job (ex_body x)]
                          | _ :: _ => []
                          end)%list).
      { unfold jobs_of, st1. cbn [titleQueue]. rewrite List.filter_app.
        unfold prior_history. rewrite Hid. fold (rows_of id st).
        destruct (rows_of id st);
          cbn [length Nat.eqb List.filter title_job job_conversationId];
          [by rewrite Hid, String.eqb_refl | reflexivity]. }
      rewrite Hjobs, Hjobs1, Hrows1.
      destruct xs; [by rewrite app_nil_r|].
      destruct (rows_of id st); cbn [app]; by rewrite app_nil_r.
Qed.

Lemma exchanges_transcript_witness :
  said (rows_of "conv-1" (snd (exchanges env_openai two_exchanges empty_server)))
  = [(User, "<p>Plan a trip &amp; book it</p>"); (Agent, "Sure. Where to?");
     (User, "<p>Plan a trip &amp; book it</p>"); (Agent, "")]
  /\ jobs_of "conv-1" (snd (exchanges env_openai two_exchanges empty_server))
     = [{| job_conversationId := "conv-1"; job_message := "Plan a trip & book it" |}].
Proof.
  destruct (exchanges_transcript env_openai "conv-1" two_exchanges empty_server
              eq_refl eq_refl) as (_ & Hrows & Hjobs).
  split.
  - rewrite Hrows. reflexivity.
  - rewrite Hjobs. reflexivity.
Defined.

End ConversationRunFacts.

(** ** The title of a conversation *)

Section TitleCreationFacts.
Import Eff ModelRouter Html TitleCreation Scenario TitleScenario.

Lemma substring_length (n : nat) (s : string) :
  String.length (String.substring 0 n s) <= n.
Proof.
  revert n. induction s as [|c s IH]; intros [|n]; cbn; try lia.
  specialize (IH n). lia.
Qed.


(** Looking for the title only writes warnings, and does not throw. *)
Lemma extract_title_run (o : TitleOracle) (text : string) (st : TitleStore) :
  exists t ws,
    extract_title o text st
    = (Returned t, {| titles := titles st; title_logs := (title_logs st ++ ws)%list |})
    /\ Forall (fun e => is_error_entry e = false) ws.
Proof.
  destruct st as [ts ls]. unfold extract_title.
  set (line := trim (strip_quotes (strip_title_prefix (stripHtml (trim (first_line text)))))).
  set (fits := Nat.ltb 0 (String.length line) && Nat.leb (String.length line) 100).
  unfold bind, try_catch, await, ret, log, modify. cbn [titles title_logs].
  destruct (output_match text) as [inner|];
    [destruct (parse_title o (trim inner)) as [t1|e1]|]; cbn [titles title_logs];
    try destruct (truthy_json t1) eqn:Ht1; cbn [negb truthy_json];
    try (destruct (parse_title o text) as [t2|e2]; cbn [titles title_logs];
         try destruct (truthy_json t2) eqn:Ht2; cbn [negb truthy_json]);
    rewrite ?Ht1; cbn [negb];
    try destruct fits;
    eexists _, _; (split; [rewrite <- ?app_assoc; try reflexivity;
                           rewrite <- (app_nil_r ls) at 1; reflexivity|]);
    repeat constructor.
Qed.

Local Ltac failed_result ws :=
  eexists; split; [reflexivity|]; split; [discriminate|]; intros _;
  split; [reflexivity|]; split; [by eexists|]; split; [reflexivity|];
  eexists ws, _; split; [cbn [title_logs]; rewrite <- ?app_assoc; reflexivity | reflexivity].

(** X24. The job never throws: it always answers with a result. A successful
    result carries the title that has been stored for the conversation, of at
    most 100 characters, and is only given when the model, the generation and
    the database have all answered; a failed result carries an error and no
    title, leaves every stored title as it was, and an entry at the error
    level is the last the job has written to the log. *)
Theorem processConversationTitleCreation_result (env : Env) (o : TitleOracle)
    (payload : CreateConversationTitlePayload) (st : TitleStore) :
  let run := processConversationTitleCreation env o payload st in
  exists r,
    fst run = Returned r
    /\ (success r = true ->
        exists t,
          title r = Some t /\ error r = None /\ String.length t <= 100
          /\ titles (snd run) = <[payload_conversationId payload := t]> (titles st)
          /\ is_thrown (getModel env None) = false
          /\ is_thrown (generate_text o) = false
          /\ is_thrown (prisma_update o) = false)
    /\ (success r = false ->
        title r = None /\ is_Some (error r)
        /\ titles (snd run) = titles st
        /\ exists ws e, title_logs (snd run) = (title_logs st ++ ws ++ [e])%list
                        /\ is_error_entry e = true).
Proof.
  cbv zeta.
  remember (processConversationTitleCreation env o payload st) as run eqn:Hrun.
  unfold processConversationTitleCreation, try_catch, bind, await in Hrun.
  destruct (getModel env None) as [m|e0].
  2: { subst run. cbn. failed_result (@nil Conversation.LogEntry). }
  destruct (generate_text o) as [text|e1].
  2: { subst run. cbn. failed_result (@nil Conversation.LogEntry). }
  destruct (extract_title_run o text st) as (t & ws & He & Hws).
  rewrite He in Hrun.
  destruct (negb (truthy_json t) || length_is_zero t) eqn:Hbad.
  { subst run. cbn. failed_result ws. }
  unfold stripHtml_of in Hrun.
  destruct t as [[| | |s| |]|]; cbn [throw ret] in Hrun;
    try (subst run; cbn; failed_result ws).
  destruct (prisma_update o) as [[]|e2].
  2: { subst run. cbn. failed_result ws. }
  subst run. cbn. eexists. split; [reflexivity|]. split; [|discriminate]. intros _.
  eexists. repeat split. apply substring_length.
Qed.


Lemma includes_cons (pat : string) (c : ascii) (s : string) :
  includes pat (String c s) = false ->
  String.prefix pat (String c s) = false /\ includes pat s = false.
Proof. cbn [includes]. intros H. by apply orb_false_elim in H. Qed.

Lemma split_at_none (pat s : string) :
  includes pat s = false -> split_at pat s = None.
Proof.
  induction s as [|c s IH]; intros H.
  - cbn [includes] in H. unfold split_at. by rewrite H.
  - apply includes_cons in H as [Hp Hi]. cbn [split_at]. rewrite Hp, (IH Hi). reflexivity.
Qed.

Lemma prefix_self_app (p s : string) : String.prefix p (p +:+ s) = true.
Proof.
  induction p as [|a p IH]; [by destruct s|].
  change (String a p +:+ s) with (String a (p +:+ s)). cbn [String.prefix].
  by destruct (ascii_dec a a).
Qed.

Lemma drop_app (p s : string) : drop (String.length p) (p +:+ s) = s.
Proof.
  induction p as [|a p IH]; [by destruct s|].
  change (String a p +:+ s) with (String a (p +:+ s)). cbn [String.length drop]. exact IH.
Qed.

(** A pattern whose first character is nowhere else in it cannot begin
    inside the text before one of its occurrences and end inside that
    occurrence. *)
Lemma prefix_no_straddle (c0 : ascii) (t a r : string) :
  HtmlShape.contains_char c0 t = false ->
  String.prefix t (a +:+ String c0 r) = true -> String.prefix t a = true.
Proof.
  revert a. induction t as [|d t IH]; intros a Hc Hp; [by destruct a|].
  cbn [HtmlShape.contains_char] in Hc. apply orb_false_elim in Hc as [Hd Hc].
  destruct a as [|x a].
  - change ("" +:+ String c0 r) with (String c0 r) in Hp. cbn [String.prefix] in Hp.
    destruct (ascii_dec d c0) as [->|]; [|done]. by rewrite Ascii.eqb_refl in Hd.
  - change (String x a +:+ String c0 r) with (String x (a +:+ String c0 r)) in Hp.
    cbn [String.prefix] in *. destruct (ascii_dec d x); [by apply IH | done].
Qed.

Lemma split_at_app (c0 : ascii) (t pre rest : string) :
  HtmlShape.contains_char c0 t = false ->
  includes (String c0 t) pre = false ->
  split_at (String c0 t) (pre +:+ String c0 t +:+ rest) = Some (pre, rest).
Proof.
  intros Hc. induction pre as [|x pre IH]; intros Hi.
  - change ("" +:+ String c0 t +:+ rest) with (String c0 t +:+ rest).
    destruct (String c0 t +:+ rest) eqn:E; unfold split_at; fold split_at;
      rewrite <- E, prefix_self_app, drop_app; reflexivity.
  - apply includes_cons in Hi as [Hp Hi].
    change (String x pre +:+ String c0 t +:+ rest)
      with (String x (pre +:+ String c0 t +:+ rest)).
    cbn [split_at].
    assert (Hno : String.prefix (String c0 t) (String x (pre +:+ String c0 t +:+ rest)) = false).
    { apply not_true_is_false. intros Hyes. apply not_true_iff_false in Hp. apply Hp.
      cbn [String.prefix] in *. destruct (ascii_dec c0 x); [|done].
      change (String c0 t +:+ rest) with (String c0 (t +:+ rest)) in Hyes.
      by apply (prefix_no_straddle c0 t pre (t +:+ rest)). }
    rewrite Hno, (IH Hi). reflexivity.
Qed.

Lemma output_match_block (pre inner post : string) :
  includes "<output>" pre = false ->
  includes "</output>" inner = false ->
  output_match (pre +:+ "<output>" +:+ inner +:+ "</output>" +:+ post) = Some inner.
Proof.
  intros Hpre Hinner. unfold output_match.
  rewrite (split_at_app "<"%char "output>" pre _ eq_refl Hpre).
  by rewrite (split_at_app "<"%char "/output>" inner _ eq_refl Hinner).
Qed.

(** X25. An answer with an [<output>] block whose content parses to an object
    with a non-empty string as [title] gets that title, stripped of its HTML
    and cut at 100 characters: what stands before and behind the block, and
    what the whole answer parses to, play no part, and nothing is written to
    the log. *)
Theorem output_title_wins (env : Env) (o : TitleOracle)
    (payload : CreateConversationTitlePayload) (st : TitleStore)
    (m : option LanguageModel) (pre inner post t : string)
    (fields : list (string * JSON)) :
  getModel env None = Returned m ->
  generate_text o = Returned (pre +:+ "<output>" +:+ inner +:+ "</output>" +:+ post) ->
  includes "<output>" pre = false ->
  includes "</output>" inner = false ->
  JSON_parse o (trim inner) = Returned (JObject fields) ->
  title_of fields = Some (JString t) ->
  t <> "" ->
  prisma_update o = Returned tt ->
  let finalTitle := String.substring 0 100 (stripHtml t) in
  processConversationTitleCreation env o payload st
  = (Returned {| success := true; title := Some finalTitle; error := None |},
     {| titles := <[payload_conversationId payload := finalTitle]> (titles st);
        title_logs := title_logs st |}).
Proof.
  intros Hm Hg Hpre Hinner Hparse Htitle Ht Hdb. cbv zeta.
  unfold processConversationTitleCreation, try_catch, bind, await.
  rewrite Hm, Hg. unfold extract_title, bind, try_catch, await.
  rewrite (output_match_block pre inner post Hpre Hinner).
  unfold parse_title. rewrite Hparse. fold (title_of fields). rewrite Htitle.
  assert (Htruthy : truthy_json (Some (JString t)) = true).
  { cbn. apply negb_true_iff. by apply String.eqb_neq. }
  assert (Hlen : length_is_zero (Some (JString t)) = false).
  { cbn. destruct t; [done | reflexivity]. }
  unfold ret. repeat (rewrite ?Htruthy, ?Hlen; cbn [negb orb]; cbv beta iota).
  unfold stripHtml_of, ret, set_title, modify. rewrite Hdb. reflexivity.
Qed.

Lemma output_title_wins_witness :
  processConversationTitleCreation env_openai oracle_output job1 empty_titles
  = (Returned {| success := true; title := Some "Trip to Rome"; error := None |},
     {| titles := {[ "conv-1" := "Trip to Rome" ]}; title_logs := [] |}).
Proof.
  apply (output_title_wins env_openai oracle_output job1 empty_titles
           (Some (OpenAI "gpt-4.1-2025-04-14")) "Here you go: " " {title: Trip} " " done"
           "<b>Trip</b> to Rome" [("title", JString "<b>Trip</b> to Rome")]);
    try reflexivity.
  discriminate.
Defined.

(** X26. An answer without an [<output>] block that is not JSON gets its
    title from its first line: trimmed, stripped of HTML, of a leading
    [title:] in any case and of a quote at either end, and then stripped of
    HTML once more. A line that is empty or longer than 100 characters after
    the cleaning is refused, not cut: the job fails and stores nothing. *)
Theorem plain_answer_title (env : Env) (o : TitleOracle)
    (payload : CreateConversationTitlePayload) (st : TitleStore)
    (m : option LanguageModel) (text e : string) :
  getModel env None = Returned m ->
  generate_text o = Returned text ->
  includes "<output>" text = false ->
  JSON_parse o text = Thrown e ->
  prisma_update o = Returned tt ->
  let line := cleaned_line text in
  let run := processConversationTitleCreation env o payload st in
  (1 <= String.length line <= 100 ->
   fst run = Returned {| success := true;
                         title := Some (String.substring 0 100 (stripHtml line));
                         error := None |}
   /\ titles (snd run)
      = <[payload_conversationId payload := String.substring 0 100 (stripHtml line)]>
          (titles st))
  /\ (String.length line = 0 \/ 100 < String.length line ->
      fst run = Returned {| success := false; title := None;
                            error := Some "Could not extract title from AI response" |}
      /\ titles (snd run) = titles st).
Proof.
  intros Hm Hg Hout Hparse Hdb. cbv zeta.
  unfold processConversationTitleCreation, try_catch, bind, await.
  rewrite Hm, Hg. unfold extract_title, bind, try_catch, await, output_match.
  rewrite (split_at_none _ _ Hout). unfold parse_title. rewrite Hparse.
  cbn [ret truthy_json negb log modify bind].
  fold (cleaned_line text). unfold bind, ret.
  cbn [truthy_json negb].
  split.
  - intros [Hlo Hhi].
    assert (Nat.ltb 0 (String.length (cleaned_line text)) = true) as ->
      by (apply Nat.ltb_lt; lia).
    assert (Nat.leb (String.length (cleaned_line text)) 100 = true) as ->
      by (apply Nat.leb_le; lia).
    cbn [andb].
    assert (Htruthy : truthy_json (Some (JString (cleaned_line text))) = true).
    { cbn. destruct (cleaned_line text); [cbn in Hlo; lia | reflexivity]. }
    assert (Hlen : length_is_zero (Some (JString (cleaned_line text))) = false).
    { cbn. apply Nat.eqb_neq. lia. }
    rewrite Htruthy, Hlen. cbn [negb orb].
    unfold stripHtml_of, ret, set_title, modify. rewrite Hdb. done.
  - intros Hbad.
    assert (Nat.ltb 0 (String.length (cleaned_line text))
            && Nat.leb (String.length (cleaned_line text)) 100 = false) as ->.
    { destruct Hbad as [H0 | Hbig].
      - rewrite H0. reflexivity.
      - apply andb_false_iff. right. apply Nat.leb_gt. lia. }
    cbn. done.
Qed.

Lemma plain_answer_title_witness :
  1 <= String.length (cleaned_line plain_answer) <= 100
  /\ fst (processConversationTitleCreation env_openai (oracle_plain plain_answer) job1
            empty_titles)
     = Returned {| success := true; title := Some "Trip to Rome"; error := None |}
  /\ titles (snd (processConversationTitleCreation env_openai (oracle_plain plain_answer)
                    job1 empty_titles))
     = <["conv-1" := "Trip to Rome"]> ∅.
Proof.
  assert (Hfits : 1 <= String.length (cleaned_line plain_answer) <= 100)
    by (vm_compute; lia).
  split; [exact Hfits|].
  exact (proj1 (plain_answer_title env_openai (oracle_plain plain_answer) job1 empty_titles
                  (Some (OpenAI "gpt-4.1-2025-04-14")) plain_answer "Unexpected token"
                  eq_refl eq_refl eq_refl eq_refl eq_refl) Hfits).
Defined.

End TitleCreationFacts.

(** ** More on the conversation page *)

Section PageFacts.
Import Eff ModelRouter Html Conversation ConversationRuns Watchdog AutoStart Scenario
  PageScenario.

Local Opaque watchdog_timeout.

Lemma ChatStatus_eqb_neq (a b : ChatStatus) : a <> b -> ChatStatus_eqb a b = false.
Proof. by destruct a, b. Qed.

Lemma elapse_quiet (n : nat) (p : Page) :
  statusTimeout p = None -> reload_pending p = None -> elapse n p = (p, []).
Proof.
  intros Ht Hr. induction n as [|n IH]; [done|].
  cbn [elapse]. unfold tick. rewrite Hr. cbn [fmap option_fmap option_map].
  destruct (unloaded p) eqn:Hu; [by rewrite IH|].
  assert (Hp : set_reload_pending None p = p).
  { destruct p. cbn in *. by subst. }
  rewrite Hp, Ht, IH. reflexivity.
Qed.

(** X27. The watchdog follows the status: when the status changes before the
    thirty seconds are over, the page does nothing; a change to the other
    monitored status sets the watchdog again for a full thirty seconds, with
    the same retry counter; a change to any other status clears it, and then
    the page takes no action however long the status lasts. *)
Theorem watchdog_follows_status (p : Page) (ms : nat) (s' : ChatStatus) :
  armed p ->
  ms < watchdog_timeout ->
  s' <> status p ->
  let r := run [Elapse ms; StatusChange s'] p in
  snd r = []
  /\ status (fst r) = s'
  /\ (monitored s' = true -> armed (fst r) /\ retryCount (fst r) = retryCount p)
  /\ (monitored s' = false ->
      statusTimeout (fst r) = None /\ forall n, snd (elapse n (fst r)) = []).
Proof.
  destruct p as [s rc t rp u]. intros (Hu & Hp & Hm & Ht) Hms Hs.
  cbn in Hu, Hp, Hm, Ht, Hs. subst u rp t. cbv zeta.
  match goal with |- context [run ?evs ?p0] =>
    assert (Hrun : run evs p0
                   = (render (set_status s'
                        {| status := s; retryCount := rc;
                           statusTimeout :=
                             Some {| remaining := watchdog_timeout - ms;
                                     seen_retryCount := rc |};
                           reload_pending := None; unloaded := false |}), []))
  end.
  { cbn [run]. unfold step at 1. cbn [unloaded]. rewrite elapse_before by exact Hms.
    unfold step. cbn [unloaded status]. rewrite (ChatStatus_eqb_neq s' s Hs).
    reflexivity. }
  rewrite Hrun. clear Hrun.
  match goal with |- context [render ?q0] =>
    pose proof (render_fields q0) as Hq; set (q := render q0) in *; clearbody q end.
  cbn [status unloaded reload_pending retryCount set_status] in Hq.
  destruct Hq as (Hst & Hun & Hrp & Hr & Htm).
  cbn [fst snd app]. split; [done|]. split; [exact Hst|]. split.
  - intros Hm'. rewrite Hm' in Htm.
    assert (Hc : completes s' = false) by (by destruct s').
    rewrite Hc in Hr. split; [|exact Hr].
    unfold armed. rewrite Hun, Hrp, Hst, Htm, Hr. auto.
  - intros Hm'. rewrite Hm' in Htm. split; [exact Htm|].
    intros n. by rewrite (elapse_quiet n q Htm Hrp).
Qed.

Local Transparent watchdog_timeout.

Lemma watchdog_follows_status_witness :
  snd (run [Elapse 1000; StatusChange submitted] (mount streaming)) = []
  /\ armed (fst (run [Elapse 1000; StatusChange submitted] (mount streaming))).
Proof.
  assert (Harmed : armed (mount streaming)) by (repeat split).
  assert (Hms : 1000 < watchdog_timeout) by (unfold watchdog_timeout; lia).
  assert (Hs : submitted <> status (mount streaming)) by discriminate.
  destruct (watchdog_follows_status (mount streaming) 1000 submitted Harmed Hms Hs)
    as (Hquiet & _ & Hmon & _).
  split; [exact Hquiet|]. by apply Hmon.
Defined.


Local Opaque watchdog_timeout.



Local Transparent watchdog_timeout.




End PageFacts.
